(** * sora_auto_toy: the registration engine, the inbox bridge and their
      resilient-interaction layer

    A shallow embedding of [src/modules/register.js] and
    [src/modules/tempmail.js].  JavaScript strings are sequences of UTF-16
    code units; regular expressions are run by a small backtracking matcher
    that follows the ECMAScript semantics for the constructs the two modules
    use; the asynchronous methods are state-and-exception computations over
    an abstract browser world, one thread of control, each [await] a step.

    The file has two halves.  The first holds the program: strings, the
    matcher, values and exceptions, the driver interface, the two modules, a
    simulated browser for concrete runs, and the vocabulary the properties
    are stated in.  The second holds the facts, module by module, and ends
    with concrete runs. *)

From Stdlib Require Import ZArith NArith List String Ascii Bool Lia DecimalString.
Import ListNotations.

Set Implicit Arguments.

(* ------------------------------------------------------------------ *)
(** ** JavaScript strings *)

Module JsStr.

(** A JavaScript string: its UTF-16 code units. *)
Definition t := list N.

(** An ASCII literal of the source as code units. *)
Definition lit (s : string) : t :=
  map N_of_ascii (list_ascii_of_string s).

Fixpoint eqb (a b : t) : bool :=
  match a, b with
  | [], [] => true
  | x :: a', y :: b' => N.eqb x y && eqb a' b'
  | _, _ => false
  end.

Fixpoint startsWith (s needle : t) {struct needle} : bool :=
  match needle with
  | [] => true
  | x :: needle' =>
      match s with
      | [] => false
      | y :: s' => N.eqb x y && startsWith s' needle'
      end
  end.

(** [String.prototype.includes]. *)
Fixpoint includes (s needle : t) : bool :=
  startsWith s needle ||
  match s with
  | [] => false
  | _ :: s' => includes s' needle
  end.

Definition inRange (lo hi c : N) : bool := N.leb lo c && N.leb c hi.

Definition isDigit (c : N) : bool := inRange 48 57 c.
Definition isUpper (c : N) : bool := inRange 65 90 c.
Definition isLower (c : N) : bool := inRange 97 122 c.
Definition isAlpha (c : N) : bool := isUpper c || isLower c.

(** [\w] of a regular expression without the [u] flag. *)
Definition isWordChar (c : N) : bool :=
  isAlpha c || isDigit c || N.eqb c 95.

(** ECMAScript WhiteSpace and LineTerminator: what [\s] matches and what
    [String.prototype.trim] strips. *)
Definition isWhiteSpace (c : N) : bool :=
  inRange 9 13 c || N.eqb c 32 || N.eqb c 160 || N.eqb c 5760 ||
  inRange 8192 8202 c || N.eqb c 8232 || N.eqb c 8233 || N.eqb c 8239 ||
  N.eqb c 8287 || N.eqb c 12288 || N.eqb c 65279.

Fixpoint trimStart (s : t) : t :=
  match s with
  | c :: s' => if isWhiteSpace c then trimStart s' else s
  | [] => []
  end.

Definition trimEnd (s : t) : t := rev (trimStart (rev s)).

Definition trim (s : t) : t := trimEnd (trimStart s).

(** [s.substring(a, b)] for [0 <= a <= b]. *)
Definition slice (a b : nat) (s : t) : t := firstn (b - a) (skipn a s).

(** Truthiness of a string: non-empty. *)
Definition truthy (s : t) : bool :=
  match s with [] => false | _ :: _ => true end.

End JsStr.

Definition jsstring : Type := JsStr.t.

(* ------------------------------------------------------------------ *)
(** ** Regular expressions

    The patterns of the two modules are sequences of quantified character
    classes, one capture group, the anchors [^] and [$] and the word
    boundary [\b].  [matchAtoms] is the ECMAScript backtracking matcher for
    such sequences: a quantifier first tries its preferred branch (one more
    character when greedy, the continuation when lazy) and falls back to the
    other. *)

Module Regex.

Inductive atom : Type :=
| Rep (cls : N -> bool) (min : nat) (max : option nat) (greedy : bool)
| Open                      (* the opening parenthesis of group 1 *)
| Close                     (* its closing parenthesis *)
| Bol                       (* ^ *)
| Eol                       (* $ *)
| WordB.                    (* \b *)

Definition regex := list atom.

(** The end of a match and the span of group 1, as indices into the
    subject string. *)
Definition ends : Type := nat * option (nat * nat).

Definition canTakeMore (max : option nat) : bool :=
  match max with Some O => false | _ => true end.

Fixpoint repeat (cls : N -> bool) (greedy : bool) (min : nat) (max : option nat)
         (k : option N -> list N -> nat -> option ends)
         (prev : option N) (s : list N) (pos : nat) {struct s} : option ends :=
  match s with
  | c :: s' =>
      if cls c && canTakeMore max then
        if greedy then
          match repeat cls greedy (pred min) (option_map pred max) k (Some c) s' (S pos) with
          | Some r => Some r
          | None => match min with O => k prev s pos | S _ => None end
          end
        else
          match (match min with O => k prev s pos | S _ => None end) with
          | Some r => Some r
          | None => repeat cls greedy (pred min) (option_map pred max) k (Some c) s' (S pos)
          end
      else match min with O => k prev s pos | S _ => None end
  | [] => match min with O => k prev s pos | S _ => None end
  end.

Definition isWordAt (c : option N) : bool :=
  match c with Some x => JsStr.isWordChar x | None => false end.

Fixpoint matchAtoms (r : regex) (opened : option nat) (cap : option (nat * nat))
         (prev : option N) (s : list N) (pos : nat) {struct r} : option ends :=
  match r with
  | [] => Some (pos, cap)
  | Rep cls mn mx g :: r' =>
      repeat cls g mn mx (fun prev' s' pos' => matchAtoms r' opened cap prev' s' pos')
             prev s pos
  | Open :: r' => matchAtoms r' (Some pos) cap prev s pos
  | Close :: r' =>
      matchAtoms r' opened
                 (match opened with Some b => Some (b, pos) | None => cap end)
                 prev s pos
  | Bol :: r' =>
      match prev with
      | None => matchAtoms r' opened cap prev s pos
      | Some _ => None
      end
  | Eol :: r' =>
      match s with
      | [] => matchAtoms r' opened cap prev s pos
      | _ :: _ => None
      end
  | WordB :: r' =>
      if xorb (isWordAt prev) (isWordAt (hd_error s))
      then matchAtoms r' opened cap prev s pos
      else None
  end.

(** The leftmost match at or after [pos]: start, end, group 1. *)
Fixpoint searchFrom (r : regex) (prev : option N) (s : list N) (pos : nat)
         {struct s} : option (nat * ends) :=
  match matchAtoms r None None prev s pos with
  | Some e => Some (pos, e)
  | None =>
      match s with
      | [] => None
      | c :: s' => searchFrom r (Some c) s' (S pos)
      end
  end.

(** The result array of a successful [exec]: element 0 is the matched
    text, element 1 the text of group 1 ([None] when the group did not
    take part: JavaScript's [undefined]). *)
Record result : Type := MkResult {
  whole : jsstring;
  group1 : option jsstring
}.

(** [subject.match(r)] for a pattern without the [g] flag; [None] is
    JavaScript's [null]. *)
Definition exec (r : regex) (subject : jsstring) : option result :=
  match searchFrom r None subject 0 with
  | Some (b, (e, cap)) =>
      Some (MkResult (JsStr.slice b e subject)
                     (option_map (fun be => JsStr.slice (fst be) (snd be) subject) cap))
  | None => None
  end.

(** All matches of a pattern with the [g] flag, left to right.  After a
    match the search resumes at its end ([skip] counts the positions still
    covered by the last match); after an empty match it resumes one
    position further. *)
Fixpoint scan (r : regex) (prev : option N) (s : list N) (pos skip : nat)
         {struct s} : list (nat * nat) :=
  match skip with
  | S skip' =>
      match s with
      | [] => []
      | c :: s' => scan r (Some c) s' (S pos) skip'
      end
  | O =>
      match matchAtoms r None None prev s pos with
      | Some (e, _) =>
          (pos, e) ::
          match s with
          | [] => []
          | c :: s' => scan r (Some c) s' (S pos) (e - pos - 1)
          end
      | None =>
          match s with
          | [] => []
          | c :: s' => scan r (Some c) s' (S pos) 0
          end
      end
  end.

(** [subject.match(r)] for a pattern with the [g] flag: the matched texts,
    or [None] ([null]) when there is none. *)
Definition matchGlobal (r : regex) (subject : jsstring) : option (list jsstring) :=
  match scan r None subject 0 0 with
  | [] => None
  | spans => Some (map (fun be => JsStr.slice (fst be) (snd be) subject) spans)
  end.

(** Pattern builders. *)
Definition one (cls : N -> bool) : atom := Rep cls 1 (Some 1) true.
Definition plus (cls : N -> bool) : atom := Rep cls 1 None true.
Definition star (cls : N -> bool) : atom := Rep cls 0 None true.
Definition exactly (n : nat) (cls : N -> bool) : atom := Rep cls n (Some n) true.
Definition atLeast (n : nat) (cls : N -> bool) : atom := Rep cls n None true.

Definition chr (c x : N) : bool := N.eqb x c.

(** A pattern character under the [i] flag: an ASCII letter matches both
    of its cases, any other character only itself. *)
Definition chrNoCase (c x : N) : bool :=
  N.eqb x c ||
  (JsStr.isUpper c && N.eqb x (c + 32)) ||
  (JsStr.isLower c && N.eqb x (c - 32)).

Definition literal (s : jsstring) : regex := map (fun c => one (chr c)) s.
Definition literalNoCase (s : jsstring) : regex := map (fun c => one (chrNoCase c)) s.

End Regex.

(* ------------------------------------------------------------------ *)
(** ** JavaScript values, exceptions and the browser world *)

Module Js.

(** The values that cross the page boundary: what [JSON.parse] and a
    serialised [page.evaluate] result can hold, plus [undefined]. *)
#[warnings="-register-all"]
Inductive value : Type :=
| VUndefined
| VNull
| VBool (b : bool)
| VNum (n : Z)
| VStr (s : jsstring)
| VArr (items : list value)
| VObj (props : list (jsstring * value)).

(** ToBoolean. *)
Definition truthy (v : value) : bool :=
  match v with
  | VUndefined | VNull => false
  | VBool b => b
  | VNum n => negb (Z.eqb n 0)
  | VStr s => JsStr.truthy s
  | VArr _ | VObj _ => true
  end.

Fixpoint lookup (key : jsstring) (props : list (jsstring * value)) : value :=
  match props with
  | [] => VUndefined
  | (k, v) :: rest => if JsStr.eqb k key then v else lookup key rest
  end.

(** [v.key] for one of the data properties the modules read ([error],
    [accessToken], [user], [expires]): [None] is the TypeError of reading a
    property of [null] or [undefined]; a primitive or an array has no such
    property. *)
Definition getProp (v : value) (key : jsstring) : option value :=
  match v with
  | VUndefined | VNull => None
  | VObj props => Some (lookup key props)
  | _ => Some VUndefined
  end.

(** [a || b]. *)
Definition orElse (a b : value) : value := if truthy a then a else b.

(** What a [throw] carries.  The driver and the modules throw [Error]
    objects; [throw lastError] of [withRetry] can throw [undefined]. *)
Inductive thrown : Type :=
| Error (message : jsstring)
| Undefined.

(** How a driver call settles: the promise resolves, or it rejects with
    an [Error] carrying a message. *)
Inductive outcome (A : Type) : Type :=
| Resolved (a : A)
| Rejected (message : jsstring).

Arguments Resolved {A} a.
Arguments Rejected {A} message.

(** How a method of the modules completes. *)
Inductive completion (A : Type) : Type :=
| Return (a : A)
| Throw (t : thrown).

Arguments Return {A} a.
Arguments Throw {A} t.

Definition isThrow {A} (c : completion A) : bool :=
  match c with Throw _ => true | Return _ => false end.

(** Logger levels and the pieces of a template literal. *)
Inductive level : Type := Info | Success | Warn | Err | Step (n : nat).

Inductive piece : Type :=
| Txt (s : string)          (* literal text of the template *)
| Str (s : jsstring)        (* an interpolated string *)
| Num (n : Z)               (* an interpolated integer *)
| Quot (a b : Z)            (* an interpolated quotient a / b *)
| Val (v : value).          (* an interpolated value *)

(** What a run leaves behind, oldest first.  [Invoked] records a labelled
    operation when it settles: [None] when it resolved, the message when it
    rejected.  No operation can write it by itself. *)
Inductive event : Type :=
| Logged (l : level) (msg : list piece)
| Slept (ms : Z)
| Invoked (label : string) (rejection : option jsstring).

Section World.

(** The state of everything outside the module: browser, pages, sites,
    clock. *)
Variable W : Type.

Record state : Type := MkState {
  world : W;
  trace : list event
}.

(** A method: from a state to a completion and the state it leaves, also
    when it throws. *)
Definition M (A : Type) : Type := state -> completion A * state.

Definition ret {A} (a : A) : M A := fun st => (Return a, st).

Definition throw {A} (t : thrown) : M A := fun st => (Throw t, st).

Definition bind {A B} (m : M A) (k : A -> M B) : M B :=
  fun st =>
    match m st with
    | (Return a, st') => k a st'
    | (Throw t, st') => (Throw t, st')
    end.

(** [try { body } catch (e) { handler e }]. *)
Definition tryCatch {A} (body : M A) (handler : thrown -> M A) : M A :=
  fun st =>
    match body st with
    | (Return a, st') => (Return a, st')
    | (Throw t, st') => handler t st'
    end.

Definition emit (e : event) : M unit :=
  fun st => (Return tt, MkState (world st) (trace st ++ [e])).

Definition logger (l : level) (msg : list piece) : M unit := emit (Logged l msg).

(** A driver call: it acts on the world only. *)
Definition call {A} (op : W -> outcome A * W) : M A :=
  fun st =>
    match op (world st) with
    | (Resolved a, w') => (Return a, MkState w' (trace st))
    | (Rejected msg, w') => (Throw (Error msg), MkState w' (trace st))
    end.

(** A labelled operation on the world, recorded in the trace as it
    settles. *)
Definition invoke {A} (label : string) (op : W -> outcome A * W) : M A :=
  fun st =>
    match op (world st) with
    | (Resolved a, w') =>
        (Return a, MkState w' (trace st ++ [Invoked label None]))
    | (Rejected msg, w') =>
        (Throw (Error msg), MkState w' (trace st ++ [Invoked label (Some msg)]))
    end.

(** [t.message] of a caught value. *)
Definition messageOf (t : thrown) : M jsstring :=
  match t with
  | Error msg => ret msg
  | Undefined =>
      throw (Error (JsStr.lit "Cannot read properties of undefined (reading 'message')"))
  end.

End World.

(** The outcomes of the invocations of [label] in a trace, in order. *)
Fixpoint attempts (label : string) (tr : list event) : list (option jsstring) :=
  match tr with
  | [] => []
  | Invoked l r :: tr' =>
      if String.eqb l label then r :: attempts label tr' else attempts label tr'
  | _ :: tr' => attempts label tr'
  end.

(** The pauses of a trace, in order. *)
Fixpoint pauses (tr : list event) : list Z :=
  match tr with
  | [] => []
  | Slept ms :: tr' => ms :: pauses tr'
  | _ :: tr' => pauses tr'
  end.

Arguments ret {W A} a.
Arguments throw {W A} t.
Arguments emit {W} e.
Arguments logger {W} l msg.
Arguments messageOf {W} t.

End Js.

Declare Scope js_scope.
Delimit Scope js_scope with js.
Notation "x <- m ;; k" := (Js.bind m (fun x => k))
  (at level 100, m at next level, right associativity) : js_scope.
Notation "m ;; k" := (Js.bind m (fun _ => k))
  (at level 100, right associativity) : js_scope.

(* ------------------------------------------------------------------ *)
(** ** The browser driver, as the modules consume it *)

Module Browser.

(** An element, by what the page scripts read of it. *)
Record element : Type := MkElement {
  textContent : jsstring;
  value : jsstring;               (* of an input *)
  hasOffsetParent : bool          (* el.offsetParent !== null *)
}.

(** The document a page script runs against: the text of the body and the
    selector engine, elements in document order. *)
Record document : Type := MkDocument {
  bodyInnerText : jsstring;
  querySelectorAll : jsstring -> list element
}.

Definition querySelector (d : document) (sel : jsstring) : option element :=
  hd_error (querySelectorAll d sel).

(** What the in-page [fetch] of the session endpoint comes to. *)
Inductive fetched : Type :=
| FetchThrew (message : jsstring)
| FetchResponse (ok : bool) (status : Z) (statusText : jsstring)
                (json : Js.outcome Js.value).

(** One page of the driver over a world [W]: each call settles and leaves
    a world. *)
Record page (W : Type) : Type := MkPage {
  (* page.evaluate(fn) for a script that reads the document: the page
     hands its document to the script, or the evaluation rejects *)
  evaluateDocument : W -> Js.outcome document * W;
  (* page.evaluate of the script that fetches the session endpoint *)
  evaluateFetch : jsstring -> W -> Js.outcome fetched * W;
  waitForFunction : Z -> W -> Js.outcome unit * W;
  url : W -> jsstring;
  screenshot : string -> W -> Js.outcome unit * W;
  setCookie : jsstring -> W -> Js.outcome unit * W;
  (* page.goto: the response ([None] for null) reduced to its ok() *)
  goto : jsstring -> W -> Js.outcome (option bool) * W;
  content : W -> Js.outcome jsstring * W;
  (* Date.now() and the world once a setTimeout of [ms] has fired *)
  dateNow : W -> Z;
  afterTimeout : Z -> W -> W
}.

Section Calls.

Variable W : Type.
Variable P : page W.

(** [await this.page.evaluate(fn)] for a document script [fn]; each
    evaluation is recorded in the trace as it settles. *)
Definition evaluate {A} (fn : document -> A) : Js.M W A :=
  Js.bind (Js.invoke "page.evaluate" (evaluateDocument P)) (fun d => Js.ret (fn d)).

(** [await this.sleep(ms)]. *)
Definition sleep (ms : Z) : Js.M W unit :=
  fun st =>
    (Js.Return tt,
     Js.MkState (afterTimeout P ms (Js.world st)) (Js.trace st ++ [Js.Slept ms])).

(** [Date.now()]. *)
Definition now : Js.M W Z :=
  fun st => (Js.Return (dateNow P (Js.world st)), st).

End Calls.

(** Element handles and the calls that find and act on elements, for the
    methods that work through them.  [H] is the type of handles. *)
Record elements (W H : Type) : Type := MkElements {
  (* page.waitForSelector(selector, { visible: true, timeout: n / d }) *)
  waitForSelector : jsstring -> Z -> nat -> W -> Js.outcome unit * W;
  (* page.$(selector): a handle, or null *)
  query : jsstring -> W -> Js.outcome (option H) * W;
  (* page.$$(selector) *)
  queryAll : jsstring -> W -> Js.outcome (list H) * W;
  (* handle.evaluate(el => el.textContent ...): the text the script reads *)
  textOf : H -> W -> Js.outcome jsstring * W;
  (* handle.click({ clickCount }) *)
  click : H -> nat -> W -> Js.outcome unit * W;
  (* handle.type(text, { delay }) *)
  typeInto : H -> jsstring -> Z -> W -> Js.outcome unit * W;
  (* Promise.race([page.waitForNavigation({ waitUntil: 'networkidle0', timeout }),
     this.sleep(timeout)]): it settles as the first of the two does *)
  navigationOrTimer : Z -> W -> Js.outcome unit * W
}.

End Browser.

(* ------------------------------------------------------------------ *)
(** ** modules/tempmail.js: [TempMailService] *)

Module TempMailService.

Import Regex.

(** [[:\s]] *)
Definition colonOrSpace (c : N) : bool := N.eqb c 58 || JsStr.isWhiteSpace c.

(** [(\d{6})] *)
Definition sixDigits : regex := [Open; exactly 6 JsStr.isDigit; Close].

(** The pattern list of [extractVerificationCode], in source order. *)
Definition codePatterns : list regex :=
  [ (* /verification code[:\s]+(\d{6})/i *)
    literalNoCase (JsStr.lit "verification code") ++ plus colonOrSpace :: sixDigits;
    (* /verify[:\s]+(\d{6})/i *)
    literalNoCase (JsStr.lit "verify") ++ plus colonOrSpace :: sixDigits;
    (* /code[:\s]+(\d{6})/i *)
    literalNoCase (JsStr.lit "code") ++ plus colonOrSpace :: sixDigits;
    (* /验证码[:\s]*(\d{6})/ *)
    literal [39564; 35777; 30721]%N ++ star colonOrSpace :: sixDigits;
    (* /Your code is[:\s]*(\d{6})/i *)
    literalNoCase (JsStr.lit "Your code is") ++ star colonOrSpace :: sixDigits;
    (* /Enter this code[:\s]*(\d{6})/i *)
    literalNoCase (JsStr.lit "Enter this code") ++ star colonOrSpace :: sixDigits;
    (* /\b(\d{6})\b/ *)
    WordB :: sixDigits ++ [WordB] ].

(** [match[1]]. *)
Definition firstGroup (m : result) : Js.value :=
  match group1 m with
  | Some g => Js.VStr g
  | None => Js.VUndefined
  end.

(** The [for (const pattern of codePatterns)] loop: the first pattern that
    matches returns its group. *)
Fixpoint firstCode (patterns : list regex) (bodyText : jsstring) : Js.value :=
  match patterns with
  | [] => Js.VNull
  | pattern :: rest =>
      match exec pattern bodyText with
      | Some m => firstGroup m
      | None => firstCode rest bodyText
      end
  end.

(** The page script of [extractVerificationCode]. *)
Definition extractVerificationCodeScript (d : Browser.document) : Js.value :=
  firstCode codePatterns (Browser.bodyInnerText d).

(** [[a-zA-Z0-9._%+-]] *)
Definition localChar (c : N) : bool :=
  JsStr.isAlpha c || JsStr.isDigit c ||
  N.eqb c 46 || N.eqb c 95 || N.eqb c 37 || N.eqb c 43 || N.eqb c 45.

(** [[a-zA-Z0-9.-]] *)
Definition domainChar (c : N) : bool :=
  JsStr.isAlpha c || JsStr.isDigit c || N.eqb c 46 || N.eqb c 45.

(** /[a-zA-Z0-9._%+-]+@[a-zA-Z0-9.-]+\.[a-zA-Z]{2,}/g *)
Definition emailRegex : regex :=
  [plus localChar; one (chr 64); plus domainChar; one (chr 46); atLeast 2 JsStr.isAlpha].

(** /^[a-zA-Z0-9._%+-]+@[a-zA-Z0-9.-]+\.[a-zA-Z]{2,}$/ *)
Definition wholeEmailRegex : regex := Bol :: emailRegex ++ [Eol].

(** The loop over the inputs: the first value that holds an [@] and a dot
    and, trimmed, is an address from end to end. *)
Fixpoint emailFromInputs (inputs : list Browser.element) : option jsstring :=
  match inputs with
  | [] => None
  | input :: rest =>
      let v := Browser.value input in
      if JsStr.truthy v && JsStr.includes v (JsStr.lit "@") && JsStr.includes v (JsStr.lit ".")
      then
        match exec wholeEmailRegex (JsStr.trim v) with
        | Some _ => Some (JsStr.trim v)
        | None => emailFromInputs rest
        end
      else emailFromInputs rest
  end.

(** [!email.includes('example') && !email.includes('test@')] *)
Definition notPlaceholder (email : jsstring) : bool :=
  negb (JsStr.includes email (JsStr.lit "example")) &&
  negb (JsStr.includes email (JsStr.lit "test@")).

(** The fallback over the page text: the first match that is no
    placeholder, else the first match, else [null]. *)
Definition emailFromText (bodyText : jsstring) : option jsstring :=
  match matchGlobal emailRegex bodyText with
  | Some matches =>
      match find notPlaceholder matches with
      | Some email => Some email
      | None => hd_error matches
      end
  | None => None
  end.

(** The page script of [getEmailAddress] that resolves the address;
    [None] is [null]. *)
Definition findEmailScript (d : Browser.document) : option jsstring :=
  match emailFromInputs (Browser.querySelectorAll d (JsStr.lit "input")) with
  | Some v => Some v
  | None => emailFromText (Browser.bodyInnerText d)
  end.

(** '无法获取临时邮箱地址，请检查截图' *)
Definition addressNotFound : jsstring :=
  [26080; 27861; 33719; 21462; 20020; 26102; 37038; 31665; 22320; 22336;
   65292; 35831; 26816; 26597; 25130; 22270]%N.

Section Methods.

Variable W : Type.
Variable P : Browser.page W.

Local Open Scope js_scope.

(** [async extractVerificationCode()]. *)
Definition extractVerificationCode : Js.M W Js.value :=
  Browser.evaluate P extractVerificationCodeScript.

(** [async getEmailAddress()]. *)
Definition getEmailAddress : Js.M W jsstring :=
  Js.tryCatch
    (Js.logger (Js.Step 2) [Js.Txt "正在获取临时邮箱地址..."] ;;
     Browser.sleep P 2000 ;;
     inputInfo <- Browser.evaluate P
                    (fun d => Browser.querySelectorAll d (JsStr.lit "input")) ;;
     Js.logger Js.Info [Js.Txt "页面上找到 "; Js.Num (Z.of_nat (List.length inputInfo));
                        Js.Txt " 个 input 元素"] ;;
     (if (0 <? Z.of_nat (List.length inputInfo))%Z
      then Js.logger Js.Info
             (Js.Txt "Input 信息: " ::
              map (fun i => Js.Str (Browser.value i)) (firstn 3 inputInfo))
      else Js.ret tt) ;;
     Js.tryCatch
       (Js.call (Browser.waitForFunction P 15000))
       (fun _ => Js.logger Js.Warn [Js.Txt "等待邮箱元素超时，尝试直接获取..."]) ;;
     email <- Browser.evaluate P findEmailScript ;;
     match email with
     | Some address =>
         if JsStr.truthy address
         then Js.logger Js.Success [Js.Txt "获取到临时邮箱: "; Js.Str address] ;;
              Js.ret address
         else Js.call (Browser.screenshot P "debug-no-email.png") ;;
              Js.logger Js.Err [Js.Txt "无法获取邮箱，已保存截图: debug-no-email.png"] ;;
              Js.throw (Js.Error addressNotFound)
     | None =>
         Js.call (Browser.screenshot P "debug-no-email.png") ;;
         Js.logger Js.Err [Js.Txt "无法获取邮箱，已保存截图: debug-no-email.png"] ;;
         Js.throw (Js.Error addressNotFound)
     end)
    (fun error =>
       message <- Js.messageOf error ;;
       Js.logger Js.Err [Js.Txt "获取邮箱失败: "; Js.Str message] ;;
       Js.call (Browser.screenshot P "debug-tempmail-error.png") ;;
       Js.logger Js.Info [Js.Txt "已保存调试截图: debug-tempmail-error.png"] ;;
       Js.throw error).

End Methods.

(** *** Waiting for the verification mail *)

(** /(\d+)\s*封/ *)
Definition mailCountRegex : regex :=
  [Open; plus JsStr.isDigit; Close; star JsStr.isWhiteSpace; one (chr 23553)].

(** [parseInt] of a string of decimal digits, as the integer it denotes
    (the engine rounds it to a double, which keeps its sign). *)
Definition parseInt (digits : jsstring) : Z :=
  fold_left (fun n c => (10 * n + (Z.of_N c - 48))%Z) digits 0%Z.

(** What the first page script of a round returns. *)
Record pageInfo : Type := MkPageInfo {
  hasOpenAI : bool;
  mailCount : Z;
  bodyText : jsstring
}.

(** '等待验证码超时' *)
Definition codeTimedOut : jsstring :=
  [31561; 24453; 39564; 35777; 30721; 36229; 26102]%N.

(** The calls of the inbox page beside those of [Browser.page]. *)
Record inbox (W : Type) : Type := MkInbox {
  bringToFront : W -> Js.outcome unit * W;
  (* page.evaluate of the script that clicks the first mail item or, failing
     that, the first visible element that names OpenAI: it returns nothing,
     and what the click does is the world's *)
  evaluateOpenMail : W -> Js.outcome unit * W
}.

Section Waiting.

Variable W : Type.
Variable P : Browser.page W.
Variable I : inbox W.

(** [String.prototype.toLowerCase], Unicode's mapping, which is the
    engine's. *)
Variable toLowerCase : jsstring -> jsstring.

Local Open Scope js_scope.
Local Open Scope Z_scope.

(** The page script that looks for a mail. *)
Definition pageInfoScript (d : Browser.document) : pageInfo :=
  let bodyText := Browser.bodyInnerText d in
  let hasOpenAI :=
    JsStr.includes (toLowerCase bodyText) (JsStr.lit "openai") ||
    JsStr.includes (toLowerCase bodyText) (JsStr.lit "verify") ||
    JsStr.includes (toLowerCase bodyText) (JsStr.lit "verification") in
  let countMatch := exec mailCountRegex bodyText in
  let mailCount :=
    match countMatch with
    | Some m => match group1 m with Some digits => parseInt digits | None => 0 end
    | None => 0
    end in
  MkPageInfo hasOpenAI mailCount (JsStr.slice 0 500 bodyText).

(** [verificationCode = await this.extractVerificationCode()] and the
    [if (verificationCode)] that returns it: [Some] is the [return]. *)
Definition tryExtract : Js.M W (option Js.value) :=
  verificationCode <- extractVerificationCode P ;;
  if Js.truthy verificationCode
  then
    Js.logger Js.Success [Js.Txt "获取到验证码: "; Js.Val verificationCode] ;;
    Js.ret (Some verificationCode)
  else Js.ret None.

(** One round of the [while] loop of [waitForVerificationCode], the
    [try] with its [catch]: [Some] is a [return] of the method, [None]
    goes on to the pause that ends the round. *)
Definition checkInbox (startTime : Z) : Js.M W (option Js.value) :=
  Js.tryCatch
    (Browser.sleep P 3000 ;;
     Js.call (Browser.screenshot P "debug-tempmail-check.png") ;;
     pageInfo <- Browser.evaluate P pageInfoScript ;;
     Js.logger Js.Info [Js.Txt "邮件数量: "; Js.Num (mailCount pageInfo);
                        Js.Txt ", 检测到OpenAI邮件: ";
                        Js.Val (Js.VBool (hasOpenAI pageInfo))] ;;
     opened <- (if (0 <? mailCount pageInfo) || hasOpenAI pageInfo
                then
                  Js.logger Js.Info [Js.Txt "检测到新邮件，尝试点击查看..."] ;;
                  Js.call (evaluateOpenMail I) ;;
                  Browser.sleep P 2000 ;;
                  tryExtract
                else Js.ret None) ;;
     match opened with
     | Some verificationCode => Js.ret (Some verificationCode)
     | None =>
         listed <- tryExtract ;;
         match listed with
         | Some verificationCode => Js.ret (Some verificationCode)
         | None =>
             t <- Browser.now P ;;
             (* Math.round((Date.now() - startTime) / 1000) *)
             let elapsed := (t - startTime + 500) / 1000 in
             Js.logger Js.Info [Js.Txt "暂未收到验证码，已等待 "; Js.Num elapsed;
                                Js.Txt " 秒，继续等待..."] ;;
             Js.ret None
         end
     end)
    (fun error =>
       message <- Js.messageOf error ;;
       Js.logger Js.Warn [Js.Txt "检查邮件时出错: "; Js.Str message] ;;
       Js.ret None).

(** The [while] loop of [waitForVerificationCode] and what follows it.
    [fuel] bounds the number of rounds the model runs; [None] is returned
    when it runs out before the loop has ended. *)
Fixpoint waitForVerificationCodeLoop (fuel : nat) (timeout startTime : Z)
         {struct fuel} : Js.M W (option Js.value) :=
  match fuel with
  | O => Js.ret None
  | S fuel' =>
      t <- Browser.now P ;;
      if t - startTime <? timeout
      then
        found <- checkInbox startTime ;;
        match found with
        | Some verificationCode => Js.ret (Some verificationCode)
        | None =>
            Browser.sleep P 5000 ;;
            waitForVerificationCodeLoop fuel' timeout startTime
        end
      else
        Js.call (Browser.screenshot P "debug-tempmail-timeout.png") ;;
        Js.throw (Js.Error codeTimedOut)
  end.

(** [async waitForVerificationCode(timeout = 120000)], run for at most
    [fuel] rounds. *)
Definition waitForVerificationCode (fuel : nat) (timeout : Z)
  : Js.M W (option Js.value) :=
  Js.logger (Js.Step 3) [Js.Txt "正在等待验证码邮件..."] ;;
  startTime <- Browser.now P ;;
  Js.call (bringToFront I) ;;
  waitForVerificationCodeLoop fuel timeout startTime.

End Waiting.

End TempMailService.

(* ------------------------------------------------------------------ *)
(** ** modules/register.js: [OpenAIRegister] *)

Module OpenAIRegister.

Local Open Scope Z_scope.

(** *** Birthdays *)

(** A double in [0, 1), the range of [Math.random()]: the value is
    [mant * 2^-(53 + scale)].  With [0 <= mant < 2^53] and
    [0 <= scale <= 1021] these are exactly the doubles of that range,
    subnormal ones included. *)
Record unitDouble : Type := MkUnit {
  mant : Z;
  scale : Z
}.

Definition isUnitDouble (u : unitDouble) : Prop :=
  0 <= mant u < 2 ^ 53 /\ 0 <= scale u <= 1021.

(** Rounding of a non-negative integer to 53 significant bits, to nearest,
    ties to even: how a product is rounded to a double.  The result is an
    integer again. *)
Definition round53 (p : Z) : Z :=
  if p <? 2 ^ 53 then p
  else
    let s := Z.log2 p - 52 in
    let q := p / 2 ^ s in
    let r := p mod 2 ^ s in
    let half := 2 ^ (s - 1) in
    let q' := if r <? half then q
              else if half <? r then q + 1
              else if Z.even q then q else q + 1 in
    q' * 2 ^ s.

(** [Math.floor(u * c)] for a double [u] of [0, 1) and a small positive
    integer [c]: the product is rounded to a double, then floored. *)
Definition floorTimes (u : unitDouble) (c : Z) : Z :=
  round53 (mant u * c) / 2 ^ (53 + scale u).

(** A calendar date; of [new Date()] the code reads the year only. *)
Record date : Type := MkDate {
  year : Z;
  month : Z;
  day : Z
}.

(** The three draws of a birthday, as both sites compute them:
    [currentYear - Math.floor(Math.random() * 22) - 18],
    [Math.floor(Math.random() * 12) + 1] and
    [Math.floor(Math.random() * 28) + 1]. *)
Definition randomBirthday (today : date) (r1 r2 r3 : unitDouble) : date :=
  let currentYear := year today in
  MkDate (currentYear - floorTimes r1 22 - 18)
         (floorTimes r2 12 + 1)
         (floorTimes r3 28 + 1).

(** [String(n)] of an integer. *)
Definition ofZ (n : Z) : jsstring :=
  JsStr.lit (DecimalString.NilZero.string_of_int (Z.to_int n)).

(** [s.padStart(2, '0')]. *)
Definition padStart2 (s : jsstring) : jsstring :=
  List.repeat 48%N (2 - List.length s) ++ s.

(** [generateBirthday(isChinesePage)]. *)
Definition generateBirthday (today : date) (r1 r2 r3 : unitDouble)
           (isChinesePage : bool) : jsstring :=
  let b := randomBirthday today r1 r2 r3 in
  let year := ofZ (year b) in
  let month := padStart2 (ofZ (month b)) in
  let day := padStart2 (ofZ (day b)) in
  if isChinesePage
  then year ++ JsStr.lit "/" ++ month ++ JsStr.lit "/" ++ day
  else month ++ JsStr.lit "/" ++ day ++ JsStr.lit "/" ++ year.

(** The age a person born on [birth] has on [today]: the number of
    birthdays passed. *)
Definition ageOn (today birth : date) : Z :=
  if (month today <? month birth) ||
     ((month today =? month birth) && (day today <? day birth))
  then year today - year birth - 1
  else year today - year birth.

(** *** The resilient-interaction layer *)

(** A literal written with apostrophes for the double quotes of the
    source. *)
Definition quoted (s : string) : jsstring :=
  map (fun c => if N.eqb c 39 then 34%N else c) (JsStr.lit s).

(** The error test of [safeEvaluate]. *)
Definition isNavigationError (message : jsstring) : bool :=
  JsStr.includes message (JsStr.lit "Execution context was destroyed") ||
  JsStr.includes message (JsStr.lit "navigation") ||
  JsStr.includes message (JsStr.lit "Target closed").

(** The error test of [waitForPageLoad]. *)
Definition isNavigatingError (message : jsstring) : bool :=
  JsStr.includes message (JsStr.lit "Execution context was destroyed") ||
  JsStr.includes message (JsStr.lit "navigation").

Definition loadingSelectors : list jsstring :=
  [ quoted "[class*='loading']";
    quoted "[class*='spinner']";
    quoted "[class*='Loading']";
    quoted "[class*='Spinner']";
    quoted "svg[class*='animate']";
    quoted "[role='progressbar']" ].

(** The page script of [waitForPageLoad]: some selector's first element is
    laid out. *)
Definition hasLoadingScript (d : Browser.document) : bool :=
  existsb (fun sel =>
             match Browser.querySelector d sel with
             | Some el => Browser.hasOffsetParent el
             | None => false
             end)
          loadingSelectors.

(** How one round of the [while] loop of [waitForPageLoad] ends. *)
Inductive round : Type :=
| Loaded            (* return true *)
| StillLoading      (* fall through to sleep(500) *)
| Navigating.       (* continue, after sleep(1000) *)

Section Layer.

Variable W : Type.
Variable P : Browser.page W.

Local Open Scope js_scope.

(** The [for] loop of [withRetry] from iteration [i] on, [left] being
    [retries - i]. *)
Fixpoint withRetryLoop {A} (fn : Js.M W A) (stepName : string) (retries : nat)
         (delay : Z) (left i : nat) (lastError : Js.thrown) {struct left}
  : Js.M W A :=
  match left with
  | O =>
      Js.logger Js.Err [Js.Txt stepName; Js.Txt " 重试"; Js.Num (Z.of_nat retries);
                        Js.Txt "次后仍然失败"] ;;
      Js.throw lastError
  | S left' =>
      Js.tryCatch fn
        (fun error =>
           (if Z.of_nat i <? Z.of_nat retries - 1
            then
              message <- Js.messageOf error ;;
              Js.logger Js.Warn
                [Js.Txt stepName; Js.Txt " 失败，"; Js.Quot delay 1000;
                 Js.Txt "秒后重试 ("; Js.Num (Z.of_nat i + 1); Js.Txt "/";
                 Js.Num (Z.of_nat retries); Js.Txt "): "; Js.Str message] ;;
              Browser.sleep P delay
            else Js.ret tt) ;;
           withRetryLoop fn stepName retries delay left' (S i) error)
  end.

(** [async withRetry(fn, stepName, retries = 3, delay = 2000)]. *)
Definition withRetry {A} (fn : Js.M W A) (stepName : string) (retries : nat)
           (delay : Z) : Js.M W A :=
  withRetryLoop fn stepName retries delay retries 0 Js.Undefined.

(** The [for] loop of [safeEvaluate] from iteration [i] on, [left] being
    [retries - i]. *)
Fixpoint safeEvaluateLoop {A} (fn : Browser.document -> A) (defaultValue : A)
         (retries left i : nat) {struct left} : Js.M W A :=
  match left with
  | O => Js.ret defaultValue
  | S left' =>
      Js.tryCatch (Browser.evaluate P fn)
        (fun e =>
           message <- Js.messageOf e ;;
           if isNavigationError message && (Z.of_nat i <? Z.of_nat retries - 1)
           then
             Js.logger Js.Info [Js.Txt "safeEvaluate 重试 "; Js.Num (Z.of_nat i + 2);
                                Js.Txt "/"; Js.Num (Z.of_nat retries); Js.Txt "..."] ;;
             Browser.sleep P 2000 ;;
             safeEvaluateLoop fn defaultValue retries left' (S i)
           else Js.throw e)
  end.

(** [async safeEvaluate(fn, defaultValue = null, retries = 3)]. *)
Definition safeEvaluate {A} (fn : Browser.document -> A) (defaultValue : A)
           (retries : nat) : Js.M W A :=
  safeEvaluateLoop fn defaultValue retries retries 0.

(** The [while] loop of [waitForPageLoad].  [fuel] bounds the number of
    rounds the model runs; [None] is returned when it runs out before the
    loop has ended. *)
Fixpoint waitForPageLoadLoop (fuel : nat) (timeout startTime : Z) {struct fuel}
  : Js.M W (option bool) :=
  match fuel with
  | O => Js.ret None
  | S fuel' =>
      t <- Browser.now P ;;
      if t - startTime <? timeout
      then
        r <- Js.tryCatch
               (hasLoading <- Browser.evaluate P hasLoadingScript ;;
                Js.ret (if hasLoading then StillLoading else Loaded))
               (fun e =>
                  message <- Js.messageOf e ;;
                  if isNavigatingError message
                  then Browser.sleep P 1000 ;; Js.ret Navigating
                  else Js.throw e) ;;
        match r with
        | Loaded => Js.ret (Some true)
        | StillLoading =>
            Browser.sleep P 500 ;;
            waitForPageLoadLoop fuel' timeout startTime
        | Navigating => waitForPageLoadLoop fuel' timeout startTime
        end
      else Js.ret (Some false)
  end.

(** [async waitForPageLoad(timeout = 30000)], run for at most [fuel]
    rounds. *)
Definition waitForPageLoad (fuel : nat) (timeout : Z) : Js.M W (option bool) :=
  startTime <- Browser.now P ;;
  waitForPageLoadLoop fuel timeout startTime.

End Layer.

(** *** The registration run *)

Definition errorSelector : jsstring :=
  quoted "[class*='error'], [class*='Error'], [role='alert']".

(** The page script of [checkForSignInIssue]. *)
Definition signInIssueScript (d : Browser.document) : bool :=
  let bodyText := Browser.bodyInnerText d in
  if JsStr.includes bodyText (JsStr.lit "We ran into an issue") ||
     JsStr.includes bodyText (JsStr.lit "please take a break") ||
     JsStr.includes bodyText (JsStr.lit "try again soon")
  then true
  else
    existsb (fun el =>
               let text := JsStr.trim (Browser.textContent el) in
               JsStr.includes text (JsStr.lit "We ran into an issue") ||
               JsStr.includes text (JsStr.lit "try again"))
            (Browser.querySelectorAll d errorSelector).

(** The page script of the completion check: the trimmed text of the
    first error element that has any, else [null]. *)
Definition errorTextScript (d : Browser.document) : option jsstring :=
  match find (fun el => 0 <? Z.of_nat (List.length (JsStr.trim (Browser.textContent el))))
             (Browser.querySelectorAll d errorSelector) with
  | Some el => Some (JsStr.trim (Browser.textContent el))
  | None => None
  end.

(** Truthiness of a string-or-null. *)
Definition truthyText (t : option jsstring) : bool :=
  match t with Some s => JsStr.truthy s | None => false end.

Definition signInIssueMessage : jsstring :=
  JsStr.lit "We ran into an issue while signing you in, please take a break and try again soon.".

(** The stage handlers of the class and the code provider handed to
    [register], each by its effect on the world. *)
Record stages (W : Type) : Type := MkStages {
  clickLogin : W -> Js.outcome unit * W;
  clickSignUp : W -> Js.outcome unit * W;
  enterEmail : jsstring -> W -> Js.outcome unit * W;
  enterPassword : jsstring -> W -> Js.outcome unit * W;
  getVerificationCode : W -> Js.outcome jsstring * W;
  enterVerificationCode : jsstring -> W -> Js.outcome unit * W;
  enterNameAndBirthday : W -> Js.outcome unit * W;
  enterUsername : W -> Js.outcome unit * W
}.

Section Run.

Variable W : Type.
Variable P : Browser.page W.
Variable S : stages W.

Local Open Scope js_scope.

(** [async checkForSignInIssue()]. *)
Definition checkForSignInIssue : Js.M W bool :=
  safeEvaluate P signInIssueScript false 3.

(** Steps 1 to 6 of [register] and the pause before the issue check. *)
Definition stagesThroughProfile (email password : jsstring) : Js.M W unit :=
  withRetry P (Js.invoke "clickLogin" (clickLogin S)) "点击 Log in 按钮" 3 2000 ;;
  withRetry P (Js.invoke "clickSignUp" (clickSignUp S)) "点击免费注册按钮" 3 2000 ;;
  withRetry P (Js.invoke "enterEmail" (enterEmail S email)) "输入邮箱" 3 2000 ;;
  withRetry P (Js.invoke "enterPassword" (enterPassword S password)) "输入密码" 3 2000 ;;
  Js.logger Js.Info [Js.Txt "等待邮箱验证码..."] ;;
  code <- Js.invoke "getVerificationCode" (getVerificationCode S) ;;
  withRetry P (Js.invoke "enterVerificationCode" (enterVerificationCode S code))
            "输入验证码" 3 2000 ;;
  withRetry P (Js.invoke "enterNameAndBirthday" (enterNameAndBirthday S))
            "输入全名和生日" 3 2000 ;;
  Browser.sleep P 2000.

(** The completion check that ends [register]: from [this.page.url()] to
    the returned boolean. *)
Definition checkCompletion : Js.M W bool :=
  let currentUrl := fun st => Browser.url P (Js.world st) in
  fun st =>
    (Js.logger Js.Info [Js.Txt "当前页面: "; Js.Str (currentUrl st)] ;;
     if JsStr.includes (currentUrl st) (JsStr.lit "auth.openai.com")
     then
       hasError <- safeEvaluate P errorTextScript None 3 ;;
       if truthyText hasError
       then
         Js.logger Js.Err [Js.Txt "注册失败，页面显示错误: ";
                           Js.Str (match hasError with Some t => t | None => [] end)] ;;
         Js.ret false
       else
         Js.logger Js.Warn [Js.Txt "注册可能未完成，当前仍在认证页面: ";
                            Js.Str (currentUrl st)] ;;
         Js.ret false
     else if JsStr.includes (currentUrl st) (JsStr.lit "sora.com") ||
             JsStr.includes (currentUrl st) (JsStr.lit "chat.openai.com") ||
             JsStr.includes (currentUrl st) (JsStr.lit "chatgpt.com")
     then
       Js.logger Js.Success [Js.Txt "注册成功！已跳转到主页面"] ;;
       Js.ret true
     else
       Js.logger Js.Warn [Js.Txt "注册状态不确定，当前页面: "; Js.Str (currentUrl st)] ;;
       Js.ret false) st.

(** The screenshot of the final state, taken for the record: its failure
    is logged and goes no further. *)
Definition saveFinalState : Js.M W unit :=
  Js.tryCatch
    (Js.call (Browser.screenshot P "debug-final-state.png") ;;
     Js.logger Js.Info [Js.Txt "已保存最终状态截图: debug-final-state.png"])
    (fun _ => Js.logger Js.Warn [Js.Txt "保存最终状态截图失败"]).

(** What follows the profile stage: the issue check, the username stage
    and the completion check. *)
Definition afterProfile : Js.M W bool :=
  hasSignInIssue <- checkForSignInIssue ;;
  if hasSignInIssue : bool
  then
    Js.logger Js.Err [Js.Txt "检测到 ";
                      Js.Str (quoted "'We ran into an issue while signing you in'");
                      Js.Txt " 错误"] ;;
    Js.call (Browser.screenshot P "debug-signin-issue.png") ;;
    Js.throw (Js.Error signInIssueMessage)
  else
    withRetry P (Js.invoke "enterUsername" (enterUsername S)) "输入用户名" 3 2000 ;;
    Browser.sleep P 5000 ;;
    saveFinalState ;;
    checkCompletion.

(** [async register(email, password, getVerificationCode)]. *)
Definition register (email password : jsstring) : Js.M W bool :=
  Js.tryCatch
    (stagesThroughProfile email password ;; afterProfile)
    (fun error =>
       message <- Js.messageOf error ;;
       Js.logger Js.Err [Js.Txt "注册过程出错: "; Js.Str message] ;;
       Js.tryCatch (Js.call (Browser.screenshot P "debug-register-error.png"))
                   (fun _ => Js.ret tt) ;;
       Js.throw error).

End Run.

(** *** Token harvest: the exchange *)

(** What [sessionToAccessToken] returns. *)
Record tokens : Type := MkTokens {
  accessToken : Js.value;
  user : Js.value;
  expires : Js.value
}.

Definition noTokens : tokens := MkTokens Js.VNull Js.VNull Js.VNull.

Definition sessionEndpoint : jsstring :=
  JsStr.lit "https://sora.chatgpt.com/api/auth/session".

(** The script [sessionToAccessToken] evaluates in the page, applied to
    what its [fetch] comes to: the parsed body, or an object with an
    [error] text. *)
Definition sessionFetchScript (f : Browser.fetched) : Js.value :=
  match f with
  | Browser.FetchThrew message =>
      Js.VObj [(JsStr.lit "error", Js.VStr message)]
  | Browser.FetchResponse ok status statusText json =>
      if negb ok
      then Js.VObj [(JsStr.lit "error",
                     Js.VStr (JsStr.lit "HTTP " ++ ofZ status ++ JsStr.lit ": " ++ statusText))]
      else
        match json with
        | Js.Resolved data => data
        | Js.Rejected message => Js.VObj [(JsStr.lit "error", Js.VStr message)]
        end
  end.

(** /<pre[^>]*>([\s\S]*?)<\/pre>/ *)
Definition preRegex : Regex.regex :=
  Regex.literal (JsStr.lit "<pre") ++
  [Regex.star (fun c => negb (N.eqb c 62)); Regex.one (Regex.chr 62);
   Regex.Open; Regex.Rep (fun _ => true) 0 None false; Regex.Close] ++
  Regex.literal (JsStr.lit "</pre>").

(** [data.user?.email || '未知'] for a [data] that is an object. *)
Definition emailOrUnknown (user : Js.value) : Js.value :=
  Js.orElse (match Js.getProp user (JsStr.lit "email") with
             | Some e => e
             | None => Js.VUndefined
             end)
            (Js.VStr [26410; 30693]%N).

Section Exchange.

Variable W : Type.
Variable P : Browser.page W.

(** [JSON.parse]: the parsed value, or the SyntaxError it throws. *)
Variable JSON_parse : jsstring -> Js.outcome Js.value.

Local Open Scope js_scope.

(** [v.key], with the TypeError of a [null] or [undefined] receiver. *)
Definition readProp (v : Js.value) (key : string) : Js.M W Js.value :=
  match Js.getProp v (JsStr.lit key) with
  | Some x => Js.ret x
  | None =>
      Js.throw (Js.Error (JsStr.lit "Cannot read properties of " ++
                          (match v with
                           | Js.VNull => JsStr.lit "null"
                           | _ => JsStr.lit "undefined"
                           end) ++
                          quoted " (reading '" ++ JsStr.lit key ++ quoted "')"))
  end.

Definition parseJson (text : jsstring) : Js.M W Js.value :=
  match JSON_parse text with
  | Js.Resolved v => Js.ret v
  | Js.Rejected message => Js.throw (Js.Error message)
  end.

(** The object built from session data that holds an access token. *)
Definition tokensOf (data token : Js.value) : Js.M W tokens :=
  u <- readProp data "user" ;;
  e <- readProp data "expires" ;;
  Js.ret (MkTokens token (Js.orElse u Js.VNull) (Js.orElse e Js.VNull)).

(** The navigation fallback, once the cookie is set: [Some t] when it
    returns [t] from inside, [None] when it falls through to the failure
    at its end. *)
Definition fromNavigation : Js.M W (option tokens) :=
  response <- Js.call (Browser.goto P sessionEndpoint) ;;
  match response with
  | Some true =>
      content <- Js.call (Browser.content P) ;;
      fromPre <-
        match Regex.exec preRegex content with
        | Some jsonMatch =>
            data <- parseJson (match Regex.group1 jsonMatch with
                               | Some g => g
                               | None => []
                               end) ;;
            token <- readProp data "accessToken" ;;
            if Js.truthy token
            then
              Js.logger Js.Success [Js.Txt "成功获取 Access Token"] ;;
              u <- readProp data "user" ;;
              Js.logger Js.Info [Js.Txt "用户邮箱: "; Js.Val (emailOrUnknown u)] ;;
              e <- readProp data "expires" ;;
              Js.logger Js.Info [Js.Txt "过期时间: ";
                                 Js.Val (Js.orElse e (Js.VStr [26410; 30693]%N))] ;;
              t <- tokensOf data token ;;
              Js.ret (Some t)
            else Js.ret None
        | None => Js.ret None
        end ;;
      match fromPre with
      | Some t => Js.ret (Some t)
      | None =>
          text <- Browser.evaluate P Browser.bodyInnerText ;;
          Js.tryCatch
            (data <- parseJson text ;;
             token <- readProp data "accessToken" ;;
             if Js.truthy token
             then
               Js.logger Js.Success [Js.Txt "成功获取 Access Token"] ;;
               t <- tokensOf data token ;;
               Js.ret (Some t)
             else Js.ret None)
            (fun _ => Js.ret None)
      end
  | _ => Js.ret None
  end.

(** [async sessionToAccessToken(sessionToken)]; [None] is a [null]
    token. *)
Definition sessionToAccessToken (sessionToken : option jsstring) : Js.M W tokens :=
  Js.logger Js.Info [Js.Txt "正在将 Session Token 转换为 Access Token..."] ;;
  match sessionToken with
  | None | Some [] =>
      Js.logger Js.Err [Js.Txt "Session Token 为空，无法转换"] ;;
      Js.ret noTokens
  | Some st =>
      Js.tryCatch
        (fetched <- Js.call (Browser.evaluateFetch P st) ;;
         let result := sessionFetchScript fetched in
         error <- readProp result "error" ;;
         if Js.truthy error
         then
           Js.logger Js.Warn [Js.Txt "页面内请求失败: "; Js.Val error;
                              Js.Txt "，尝试直接导航获取..."] ;;
           Js.call (Browser.setCookie P st) ;;
           found <- fromNavigation ;;
           match found with
           | Some t => Js.ret t
           | None =>
               Js.logger Js.Err [Js.Txt "无法获取 Access Token"] ;;
               Js.ret noTokens
           end
         else
           token <- readProp result "accessToken" ;;
           if Js.truthy token
           then
             Js.logger Js.Success [Js.Txt "成功获取 Access Token"] ;;
             u <- readProp result "user" ;;
             Js.logger Js.Info [Js.Txt "用户邮箱: "; Js.Val (emailOrUnknown u)] ;;
             e <- readProp result "expires" ;;
             Js.logger Js.Info [Js.Txt "过期时间: ";
                                Js.Val (Js.orElse e (Js.VStr [26410; 30693]%N))] ;;
             tokensOf result token
           else
             Js.logger Js.Warn [Js.Txt "返回数据中没有 accessToken"] ;;
             u <- readProp result "user" ;;
             Js.ret (MkTokens Js.VNull (Js.orElse u Js.VNull) Js.VNull))
        (fun error =>
           message <- Js.messageOf error ;;
           Js.logger Js.Err [Js.Txt "转换 Access Token 失败: "; Js.Str message] ;;
           Js.ret noTokens)
  end.

End Exchange.

(** *** Names, user names and delays *)

(** The names used when [name.txt] cannot be read. *)
Definition defaultNames : list jsstring :=
  map JsStr.lit ["John"; "Jane"; "Alex"; "Sam"; "Chris"]%string.

(** [content.split('\n')]. *)
Fixpoint splitLines (content : jsstring) : list jsstring :=
  match content with
  | [] => [[]]
  | c :: rest =>
      if N.eqb c 10 then [] :: splitLines rest
      else
        match splitLines rest with
        | line :: lines => (c :: line) :: lines
        | [] => [[c]]
        end
  end.

(** [content.split('\n').map(n => n.trim()).filter(n => n.length > 0)]. *)
Definition namesOf (content : jsstring) : list jsstring :=
  filter (fun n => 0 <? Z.of_nat (List.length n))
         (map JsStr.trim (splitLines content)).

(** [s.charAt(i)] for an index [i >= 0]. *)
Definition charAt (s : jsstring) (i : Z) : jsstring :=
  match nth_error s (Z.to_nat i) with
  | Some c => [c]
  | None => []
  end.

Definition letters : jsstring := JsStr.lit "abcdefghijklmnopqrstuvwxyz".

(** The TypeError of calling a method of [undefined]. *)
Definition undefinedHasNo (method : string) : Js.thrown :=
  Js.Error (JsStr.lit "Cannot read properties of undefined (reading '" ++
            JsStr.lit method ++ JsStr.lit "')").

(** [names[Math.floor(Math.random() * names.length)]]; [None] is
    [undefined]. *)
Definition randomName (names : list jsstring) (r : unitDouble) : option jsstring :=
  nth_error names (Z.to_nat (floorTimes r (Z.of_nat (List.length names)))).

(** The delay [randomDelay(min, max)] sleeps for:
    [Math.floor(Math.random() * (max - min + 1)) + min]. *)
Definition randomDelayMs (r : unitDouble) (min max : Z) : Z :=
  floorTimes r (max - min + 1) + min.

Section Names.

(** [String.prototype.toUpperCase] and [toLowerCase], Unicode's mappings,
    which are the engine's. *)
Variable toUpperCase : jsstring -> jsstring.
Variable toLowerCase : jsstring -> jsstring.

(** [capitalize] of [getRandomFullName]. *)
Definition capitalize (str : jsstring) : jsstring :=
  toUpperCase (charAt str 0) ++ toLowerCase (skipn 1 str).

(** [getRandomFullName()], by the list of names and the three draws. *)
Definition getRandomFullName (names : list jsstring) (r1 r2 r3 : unitDouble)
  : Js.completion jsstring :=
  let prefix := charAt letters (floorTimes r1 26) ++ charAt letters (floorTimes r2 26) in
  match randomName names r3 with
  | Some name => Js.Return (capitalize prefix ++ capitalize name)
  | None => Js.Throw (undefinedHasNo "charAt")
  end.

(** [generateUsername()], by the list of names and the two draws. *)
Definition generateUsername (names : list jsstring) (r1 r2 : unitDouble)
  : Js.completion jsstring :=
  match randomName names r1 with
  | Some chosen =>
      let name := toLowerCase chosen in
      let num := floorTimes r2 9999 in
      Js.Return (name ++ ofZ num)
  | None => Js.Throw (undefinedHasNo "toLowerCase")
  end.

End Names.

Section LoadNames.

Variable W : Type.

(** [readFileSync('name.txt', 'utf-8')]. *)
Variable readFileSync : W -> Js.outcome jsstring * W.

Local Open Scope js_scope.

(** [loadNames()]; what it returns is what it leaves in [this.names]. *)
Definition loadNames : Js.M W (list jsstring) :=
  Js.tryCatch
    (content <- Js.call readFileSync ;;
     let names := namesOf content in
     Js.logger Js.Info [Js.Txt "已加载 "; Js.Num (Z.of_nat (List.length names));
                        Js.Txt " 个名字"] ;;
     Js.ret names)
    (fun _ =>
       Js.logger Js.Warn [Js.Txt "无法加载 name.txt，将使用默认名字"] ;;
       Js.ret defaultNames).

End LoadNames.

(** *** The cookies of [getSessionToken] *)

(** [s.replace(c, '')] for a one-character pattern: the first occurrence
    goes. *)
Fixpoint removeFirst (c : N) (s : jsstring) : jsstring :=
  match s with
  | [] => []
  | x :: s' => if N.eqb x c then s' else x :: removeFirst c s'
  end.

Definition relevantDomains : list jsstring :=
  map JsStr.lit [".openai.com"; ".sora.com"; ".chatgpt.com"; "auth.openai.com"]%string.

(** The domain test of the cookie filter:
    [relevantDomains.some(domain =>
       cookie.domain.includes(domain.replace('.', '')) || cookie.domain === domain)]. *)
Definition isRelevantDomain (cookieDomain : jsstring) : bool :=
  existsb (fun domain =>
             JsStr.includes cookieDomain (removeFirst 46 domain) ||
             JsStr.eqb cookieDomain domain)
          relevantDomains.

(** *** Waiting for elements and the continue button *)

(** [text === '继续' || text === 'continue' || text === 'next' ||
     text === '下一步'] *)
Definition isContinueText (text : jsstring) : bool :=
  JsStr.eqb text [32487; 32493]%N ||
  JsStr.eqb text (JsStr.lit "continue") ||
  JsStr.eqb text (JsStr.lit "next") ||
  JsStr.eqb text [19979; 19968; 27493]%N.

(** The page script of [clickLogin]: whether some button or link reads
    'log in' or '登录', in any case of the letters.  The script clicks the first one
    it finds; what the click does is the page's, and shows in the world the
    evaluation leaves. *)
Definition loginScript (toLowerCase : jsstring -> jsstring) (d : Browser.document) : bool :=
  existsb (fun el =>
             let text := toLowerCase (JsStr.trim (Browser.textContent el)) in
             JsStr.eqb text (JsStr.lit "log in") || JsStr.eqb text [30331; 24405]%N)
          (Browser.querySelectorAll d (JsStr.lit "button, a")).

(** The page script of [clickSignUp]: whether the text of some button or
    link holds '免费注册', 'Sign up' or '注册'; it clicks the first one it finds. *)
Definition signUpScript (d : Browser.document) : bool :=
  existsb (fun el =>
             let text := JsStr.trim (Browser.textContent el) in
             JsStr.includes text [20813; 36153; 27880; 20876]%N ||
             JsStr.includes text (JsStr.lit "Sign up") ||
             JsStr.includes text [27880; 20876]%N)
          (Browser.querySelectorAll d (JsStr.lit "button, a")).

(** '找不到 Log in 按钮' *)
Definition loginButtonNotFound : jsstring :=
  [25214; 19981; 21040]%N ++ JsStr.lit " Log in " ++ [25353; 38062]%N.

(** '找不到密码输入框' *)
Definition passwordInputNotFound : jsstring :=
  [25214; 19981; 21040; 23494; 30721; 36755; 20837; 26694]%N.

Section Elements.

Variable W : Type.
Variable H : Type.
Variable P : Browser.page W.
Variable E : Browser.elements W H.
Variable toLowerCase : jsstring -> jsstring.

Local Open Scope js_scope.

(** The [for] loop of [waitForElement] from iteration [i] on, [left] being
    [retries - i].  A round ends the method with what [page.$] gave, or
    fails and leaves the next round to go on. *)
Fixpoint waitForElementLoop (selector : jsstring) (timeout : Z)
         (retries left i : nat) {struct left} : Js.M W (option H) :=
  match left with
  | O => Js.ret None
  | S left' =>
      found <- Js.tryCatch
                 (Js.invoke "page.waitForSelector"
                            (Browser.waitForSelector E selector timeout retries) ;;
                  handle <- Js.invoke "page.$" (Browser.query E selector) ;;
                  Js.ret (Some handle))
                 (fun _ =>
                    (if Z.of_nat i <? Z.of_nat retries - 1
                     then
                       Js.logger Js.Info
                         [Js.Txt "等待元素 "; Js.Str selector; Js.Txt " 重试 ";
                          Js.Num (Z.of_nat i + 2); Js.Txt "/";
                          Js.Num (Z.of_nat retries); Js.Txt "..."] ;;
                       Browser.sleep P 2000
                     else Js.ret tt) ;;
                    Js.ret None) ;;
      match found with
      | Some handle => Js.ret handle
      | None => waitForElementLoop selector timeout retries left' (S i)
      end
  end.

(** [async waitForElement(selector, timeout = 15000, retries = 3)]. *)
Definition waitForElement (selector : jsstring) (timeout : Z) (retries : nat)
  : Js.M W (option H) :=
  waitForElementLoop selector timeout retries retries 0.

(** The [for (const btn of buttons)] loop of [clickContinue]: whether a
    button has been clicked. *)
Fixpoint clickFirstContinue (buttons : list H) : Js.M W bool :=
  match buttons with
  | [] => Js.ret false
  | btn :: rest =>
      content <- Js.invoke "handle.evaluate" (Browser.textOf E btn) ;;
      let text := toLowerCase (JsStr.trim content) in
      if isContinueText text
      then
        Js.invoke "handle.click" (Browser.click E btn 1) ;;
        Js.logger Js.Success [Js.Txt "已点击继续按钮"] ;;
        Js.ret true
      else clickFirstContinue rest
  end.

(** [async clickContinue()]. *)
Definition clickContinue : Js.M W unit :=
  Js.logger Js.Info [Js.Txt "正在点击继续按钮..."] ;;
  Js.tryCatch
    (Js.invoke "page.waitForSelector"
               (Browser.waitForSelector E (JsStr.lit "button") 10000 1) ;;
     buttons <- Js.call (Browser.queryAll E (JsStr.lit "button")) ;;
     clicked <- clickFirstContinue buttons ;;
     clicked <- (if clicked : bool
                 then Js.ret true
                 else
                   submitBtn <- Js.invoke "page.$"
                                  (Browser.query E (quoted "button[type='submit']")) ;;
                   match submitBtn with
                   | Some handle =>
                       Js.invoke "handle.click" (Browser.click E handle 1) ;;
                       Js.logger Js.Success [Js.Txt "已点击提交按钮"] ;;
                       Js.ret true
                   | None => Js.ret false
                   end) ;;
     (if clicked : bool
      then Js.ret tt
      else Js.logger Js.Warn [Js.Txt "未找到继续按钮"]) ;;
     Browser.sleep P 2000)
    (fun error =>
       message <- Js.messageOf error ;;
       Js.logger Js.Warn [Js.Txt "点击继续按钮时出错: "; Js.Str message]).

(** [async waitForNavigation(timeout = 10000)]. *)
Definition waitForNavigation (timeout : Z) : Js.M W unit :=
  Js.tryCatch (Js.call (Browser.navigationOrTimer E timeout)) (fun _ => Js.ret tt).

End Elements.

(** The stage handlers of the class, as the class defines them. *)
Module Handlers.

Section Handlers.

Variable W : Type.
Variable H : Type.
Variable P : Browser.page W.
Variable E : Browser.elements W H.
Variable toLowerCase : jsstring -> jsstring.

Local Open Scope js_scope.

(** [async clickLogin()]. *)
Definition clickLogin : Js.M W unit :=
  Js.logger (Js.Step 2) [Js.Txt "正在点击 Log in 按钮..."] ;;
  Js.tryCatch
    (Js.invoke "page.waitForSelector"
               (Browser.waitForSelector E (JsStr.lit "button, a") 10000 1) ;;
     clicked <- safeEvaluate P (loginScript toLowerCase) false 3 ;;
     if clicked : bool
     then
       Js.logger Js.Success [Js.Txt "已点击 Log in 按钮"] ;;
       waitForNavigation E 10000
     else Js.throw (Js.Error loginButtonNotFound))
    (fun error =>
       Js.tryCatch (Js.call (Browser.screenshot P "debug-login-btn.png"))
                   (fun _ => Js.ret tt) ;;
       Js.throw error).

(** [async clickSignUp()]. *)
Definition clickSignUp : Js.M W unit :=
  Js.logger (Js.Step 3) [Js.Txt "正在点击免费注册按钮..."] ;;
  Js.tryCatch
    (Js.invoke "page.waitForSelector"
               (Browser.waitForSelector E (JsStr.lit "button, a") 10000 1) ;;
     clicked <- safeEvaluate P signUpScript false 3 ;;
     if clicked : bool
     then
       Js.logger Js.Success [Js.Txt "已点击免费注册按钮"] ;;
       waitForNavigation E 10000 ;;
       Browser.sleep P 3000
     else Js.logger Js.Info [Js.Txt "可能已经在登录页面"])
    (fun error =>
       Js.tryCatch (Js.call (Browser.screenshot P "debug-signup-btn.png"))
                   (fun _ => Js.ret tt) ;;
       message <- Js.messageOf error ;;
       Js.logger Js.Warn [Js.Txt "点击注册按钮时出错: "; Js.Str message]).

(** [async enterPassword(password)]. *)
Definition enterPassword (password : jsstring) : Js.M W unit :=
  Js.logger (Js.Step 5) [Js.Txt "正在输入密码..."] ;;
  Js.tryCatch
    (passwordInput <- waitForElement P E (quoted "input[type='password']") 15000 3 ;;
     match passwordInput with
     | Some handle =>
         Js.invoke "handle.click" (Browser.click E handle 1) ;;
         Js.invoke "handle.type" (Browser.typeInto E handle password 30) ;;
         Js.logger Js.Success [Js.Txt "密码已输入"] ;;
         clickContinue P E toLowerCase
     | None => Js.throw (Js.Error passwordInputNotFound)
     end)
    (fun error =>
       Js.call (Browser.screenshot P "debug-password-input.png") ;;
       Js.throw error).

End Handlers.

End Handlers.

End OpenAIRegister.

(* ------------------------------------------------------------------ *)
(** ** A simulated browser, for concrete runs *)

Module Simulated.

Import Js Browser.

(** The simulated world: a clock in milliseconds and the number of page
    evaluations made so far. *)
Record sim : Type := MkSim {
  clock : Z;
  evaluations : nat
}.

(** A page whose [k]-th evaluation settles as [script k] and takes a
    millisecond, whose address is [address], whose in-page fetch comes to
    [session], and whose other calls resolve at once. *)
Definition scripted (script : nat -> outcome document) (address : jsstring)
           (session : fetched) : page sim :=
  {| evaluateDocument w :=
       (script (evaluations w), MkSim (clock w + 1) (S (evaluations w)));
     evaluateFetch _ w := (Resolved session, w);
     waitForFunction _ w := (Resolved tt, w);
     url _ := address;
     screenshot _ w := (Resolved tt, w);
     setCookie _ w := (Resolved tt, w);
     goto _ w := (Resolved None, w);
     content w := (Resolved [], w);
     dateNow w := clock w;
     afterTimeout ms w := MkSim (clock w + Z.max 0 ms) (evaluations w) |}.

Definition start : state sim := MkState (MkSim 0 0) [].

(** A document with the given body text and no element at all. *)
Definition textOnly (text : jsstring) : document :=
  MkDocument text (fun _ => []).

(** A page that always shows [d]. *)
Definition showing (d : document) (address : jsstring) : page sim :=
  scripted (fun _ => Resolved d) address (FetchThrew (JsStr.lit "Failed to fetch")).

(** A page every evaluation of which rejects with [message]. *)
Definition rejecting (message : jsstring) : page sim :=
  scripted (fun _ => Rejected message) [] (FetchThrew (JsStr.lit "Failed to fetch")).

(** Stage handlers that resolve at once, with [code] as the verification
    code. *)
Definition obliging (code : jsstring) : OpenAIRegister.stages sim :=
  {| OpenAIRegister.clickLogin w := (Resolved tt, w);
     OpenAIRegister.clickSignUp w := (Resolved tt, w);
     OpenAIRegister.enterEmail _ w := (Resolved tt, w);
     OpenAIRegister.enterPassword _ w := (Resolved tt, w);
     OpenAIRegister.getVerificationCode w := (Resolved code, w);
     OpenAIRegister.enterVerificationCode _ w := (Resolved tt, w);
     OpenAIRegister.enterNameAndBirthday w := (Resolved tt, w);
     OpenAIRegister.enterUsername w := (Resolved tt, w) |}.

(** *** Sites and operations for concrete runs *)

Local Open Scope Z_scope.

(** An operation that rejects until it has been called [n] times. *)
Definition flaky (n : nat) (w : sim) : outcome unit * sim :=
  if (evaluations w <? n)%nat
  then (Rejected (JsStr.lit "boom"), MkSim (clock w) (S (evaluations w)))
  else (Resolved tt, w).

(** A blank page. *)
Definition anyPage : page sim := showing (textOnly []) [].

(** The message Puppeteer gives when a navigation cuts an evaluation
    short. *)
Definition contextDestroyed : jsstring :=
  JsStr.lit "Execution context was destroyed, most likely because of a navigation.".

(** An address on neither the auth domain nor the application's. *)
Definition elsewhere : jsstring := JsStr.lit "https://www.example.com/welcome".

(** A site that shows the failure banner. *)
Definition bannerPage : page sim :=
  showing (textOnly OpenAIRegister.signInIssueMessage)
          (JsStr.lit "https://auth.openai.com/about-you").

(** A site that has let the run through to the application. *)
Definition welcomePage : page sim :=
  showing (textOnly (JsStr.lit "Explore")) (JsStr.lit "https://sora.com/explore").

Definition someone : OpenAIRegister.stages sim := obliging (JsStr.lit "482913").

(** A webmail page without inputs whose only address is a placeholder. *)
Definition placeholderOnly : document :=
  textOnly (JsStr.lit "Contact: test@example.com").

(** A webmail page whose one input holds the address; with [shown] false
    the input is not laid out. *)
Definition mailbox (shown : bool) : document :=
  MkDocument (JsStr.lit "Your temporary address")
             (fun _ => [MkElement [] (JsStr.lit "  kx7q2@temporam.com ") shown]).

(** A page with one error element that is not laid out. *)
Definition hiddenError : document :=
  MkDocument [] (fun _ => [MkElement (JsStr.lit " Username is taken ") [] false]).


(** The answer of the session endpoint to a live session. *)
Definition liveSession : Js.value :=
  VObj [(JsStr.lit "user", VObj [(JsStr.lit "email", VStr (JsStr.lit "kx7q2@temporam.com"))]);
        (JsStr.lit "expires", VStr (JsStr.lit "2027-01-31T00:00:00.000Z"));
        (JsStr.lit "accessToken", VStr (JsStr.lit "eyJhbGciOi"))].

(** A page whose in-page fetch of the session endpoint answers [data]. *)
Definition answering (data : Js.value) : page sim :=
  scripted (fun _ => Resolved (textOnly [])) []
           (FetchResponse true 200 (JsStr.lit "OK") (Resolved data)).

(** A parser that takes nothing. *)
Definition noJson (text : jsstring) : outcome Js.value :=
  Rejected (JsStr.lit "Unexpected end of JSON input").

(** A page that shows a spinner for good. *)
Definition spinner : document :=
  MkDocument [] (fun sel => if JsStr.eqb sel (OpenAIRegister.quoted "[class*='spinner']")
                            then [MkElement [] [] true] else []).

(** *** Engines, inboxes and draws for concrete runs *)

(** The case mappings of an engine on ASCII text. *)
Definition asciiUpper (s : jsstring) : jsstring :=
  map (fun c => if JsStr.isLower c then (c - 32)%N else c) s.

Definition asciiLower (s : jsstring) : jsstring :=
  map (fun c => if JsStr.isUpper c then (c + 32)%N else c) s.

(** An inbox page whose own calls resolve at once. *)
Definition quietInbox : TempMailService.inbox sim :=
  {| TempMailService.bringToFront w := (Resolved tt, w);
     TempMailService.evaluateOpenMail w := (Resolved tt, w) |}.

(** A webmail page that shows the mail with the code. *)
Definition codeMail : document := textOnly (JsStr.lit "Your code is 482913").

(** The draw 0.5. *)
Definition half : OpenAIRegister.unitDouble := OpenAIRegister.MkUnit (2 ^ 52) 0.

(** A name file of blank lines. *)
Definition blankLines : jsstring := [32; 10; 13; 10; 9; 32; 10]%N.

(** A form whose field is [present] or never shows, with buttons of the
    given texts; handle 0 is the field, handle [k] the [k]-th button.  A
    wait for an absent element takes its timeout; the other calls resolve
    at once. *)
Definition form (present : bool) (buttons : list jsstring) : elements sim nat :=
  {| waitForSelector _ n d w :=
       if present then (Resolved tt, w)
       else (Rejected (JsStr.lit "Waiting for selector failed"),
             MkSim (clock w + n / Z.of_nat d) (evaluations w));
     query _ w := (Resolved (if present then Some 0%nat else None), w);
     queryAll _ w := (Resolved (seq 1 (List.length buttons)), w);
     textOf h w := (Resolved (nth (h - 1) buttons []), w);
     click _ _ w := (Resolved tt, w);
     typeInto _ _ _ w := (Resolved tt, w);
     navigationOrTimer _ w := (Resolved tt, w) |}.

(** A page with a link that reads Log in. *)
Definition loginPage : document :=
  MkDocument [] (fun _ => [MkElement (JsStr.lit " Log in ") [] true]).

End Simulated.

(* ------------------------------------------------------------------ *)
(** ** The vocabulary of the properties *)

Module Properties.

Import Regex Js Browser OpenAIRegister.

(** *** Patterns *)

(** The least number of characters a pattern consumes. *)
Fixpoint minLength (r : regex) : nat :=
  match r with
  | [] => 0
  | Rep _ mn _ _ :: r' => mn + minLength r'
  | _ :: r' => minLength r'
  end.



(** A pattern piece without the parentheses of the group. *)
Definition groupFree (r : regex) : bool :=
  forallb (fun a => match a with Open | Close => false | _ => true end) r.

(** A six-digit string. *)
Definition isSixDigitCode (code : jsstring) : Prop :=
  List.length code = 6%nat /\ forallb JsStr.isDigit code = true.

(** *** Runs *)

Section Outcomes.

Variable W : Type.
Variable P : page W.

Section Retry.

Variable A : Type.
Variable op : W -> outcome A * W.
Variable label : string.

(** What a run of the loop adds to the trace and how it ends: the failures
    of the invocations, in order, then either one success, whose value is
    returned, or nothing more, and then the last failure is thrown. *)
Definition retryOutcome (left : nat) (fallback : thrown) (st : state W)
           (res : completion A * state W) : Prop :=
  let (r, st') := res in
  exists failures : list jsstring,
    attempts label (trace st') =
      attempts label (trace st) ++ map Some failures ++
      (match r with Return _ => [None] | Throw _ => [] end) /\
    match r with
    | Return a =>
        (List.length failures < left)%nat /\
        exists w, op w = (Resolved a, world st')
    | Throw t =>
        List.length failures = left /\
        t = last (map Error failures) fallback
    end.

End Retry.

Section Evaluate.

Variable A : Type.
Variable fn : document -> A.

(** How a run of the loop of [safeEvaluate] relates to the state it
    started in.  [retried] are the rejections it answered by a retry, in
    order: each is of the navigation class and each was followed by a pause
    of two seconds.  The evaluation after them is the last one: when it
    resolved, the script's result is returned; when it rejected, its error
    is thrown as it came, and a navigation-class one only when every
    iteration has been used.  With no iteration to run the default comes
    back. *)
Definition evaluateOutcome (defaultValue : A) (left : nat) (st : state W)
           (res : completion A * state W) : Prop :=
  let (r, st') := res in
  exists retried : list jsstring,
    Forall (fun m => isNavigationError m = true) retried /\
    pauses (trace st') = pauses (trace st) ++ List.repeat 2000%Z (List.length retried) /\
    match r with
    | Return v =>
        (left = 0%nat /\ v = defaultValue /\ st' = st) \/
        ((List.length retried < left)%nat /\
         attempts "page.evaluate" (trace st') =
           attempts "page.evaluate" (trace st) ++ map Some retried ++ [None] /\
         exists w doc, evaluateDocument P w = (Resolved doc, world st') /\ v = fn doc)
    | Throw t =>
        exists msg,
          t = Error msg /\
          (List.length retried < left)%nat /\
          attempts "page.evaluate" (trace st') =
            attempts "page.evaluate" (trace st) ++ map Some retried ++ [Some msg] /\
          (exists w, evaluateDocument P w = (Rejected msg, world st')) /\
          (isNavigationError msg = true -> S (List.length retried) = left)
    end.

End Evaluate.

Section PageLoad.

Variable timeout : Z.
Variable startTime : Z.

Local Open Scope Z_scope.



End PageLoad.

(** What the completion check has logged once it has read the URL. *)
Definition urlLogged (st : state W) : state W :=
  MkState (world st)
          (trace st ++ [Logged Info [Txt "当前页面: "; Str (url P (world st))]]).

End Outcomes.


(** A method that invokes no operation labelled [label]. *)
Definition keeps {W A} (label : string) (m : M W A) : Prop :=
  forall st, attempts label (trace (snd (m st))) = attempts label (trace st).

(** *** Dates *)

(** A number below 100 as two decimal digits, and one below 10000 as
    four. *)
Definition twoDigits (n : Z) : jsstring :=
  [Z.to_N (48 + n / 10); Z.to_N (48 + n mod 10)]%Z.

Definition fourDigits (n : Z) : jsstring :=
  [Z.to_N (48 + n / 1000); Z.to_N (48 + n / 100 mod 10);
   Z.to_N (48 + n / 10 mod 10); Z.to_N (48 + n mod 10)]%Z.

(** *** Element waits *)

Section ElementWaits.

Variable W : Type.
Variable H : Type.
Variable P : page W.
Variable E : elements W H.
Variable selector : jsstring.
Variable timeout : Z.
Variable retries : nat.

(** What a failed round of [waitForElement] leaves to the next one: the
    retry message and the pause when a round is left, nothing
    otherwise. *)
Definition afterFailedWait (left i : nat) (st1 : state W)
  : completion (option H) * state W :=
  if (Z.of_nat i <? Z.of_nat retries - 1)%Z
  then
    waitForElementLoop P E selector timeout retries left (S i)
      (MkState (afterTimeout P 2000 (world st1))
               ((trace st1 ++
                 [Logged Info [Txt "等待元素 "; Str selector; Txt " 重试 ";
                               Num (Z.of_nat i + 2); Txt "/";
                               Num (Z.of_nat retries); Txt "..."]]) ++
                [Slept 2000]))
  else waitForElementLoop P E selector timeout retries left (S i) st1.

End ElementWaits.

(** *** The inbox *)

Section Inbox.

Variable W : Type.
Variable P : page W.
Variable I : TempMailService.inbox W.

Local Open Scope Z_scope.

(** The clock of the world never runs backwards over a driver call of
    the inbox, and a timeout of [ms] fires no earlier than [ms] later. *)
Definition steadyClock : Prop :=
  (forall w, dateNow P w <= dateNow P (snd (evaluateDocument P w))) /\
  (forall name w, dateNow P w <= dateNow P (snd (screenshot P name w))) /\
  (forall w, dateNow P w <= dateNow P (snd (TempMailService.evaluateOpenMail I w))) /\
  (forall w, dateNow P w <= dateNow P (snd (TempMailService.bringToFront I w))) /\
  (forall ms w, 0 <= ms -> dateNow P w + ms <= dateNow P (afterTimeout P ms w)).

(** How a step ends when the clock is watched: no earlier than [t0], and
    with a value that is [good] in the state it leaves or with an
    [Error]. *)
Definition endsLater {A} (good : A -> state W -> Prop) (t0 : Z)
           (res : completion A * state W) : Prop :=
  let (r, st') := res in
  t0 <= dateNow P (world st') /\
  match r with
  | Return a => good a st'
  | Throw t => exists message, t = Error message
  end.

(** A code handed back by a round: a string of six digits, which the
    extraction script read off the document of the evaluation that left the
    world as it is. *)
Definition codeReadAt (found : option Js.value) (st' : state W) : Prop :=
  match found with
  | Some v =>
      exists code,
        v = VStr code /\ isSixDigitCode code /\
        exists w d,
          evaluateDocument P w = (Resolved d, world st') /\
          TempMailService.extractVerificationCodeScript d = VStr code
  | None => True
  end.

(** Enough rounds are left for the time that remains. *)
Definition enoughRounds (timeout startTime : Z) (fuel : nat) (st : state W) : Prop :=
  (1 <= fuel)%nat /\
  timeout - (dateNow P (world st) - startTime) <= 5000 * (Z.of_nat fuel - 1).

(** How the loop of [waitForVerificationCode] ends. *)
Definition codeWaitOutcome (timeout startTime : Z)
           (res : completion (option Js.value) * state W) : Prop :=
  match res with
  | (Return (Some v), st') => codeReadAt (Some v) st'
  | (Return None, _) => False
  | (Throw t, st') =>
      timeout <= dateNow P (world st') - startTime /\
      (t = Error TempMailService.codeTimedOut \/
       exists message w,
         screenshot P "debug-tempmail-timeout.png" w = (Rejected message, world st') /\
         t = Error message)
  end.

End Inbox.

(** The number of rounds that is enough for the code wait. *)
Definition inboxRounds (timeout : Z) : nat := Z.to_nat (timeout / 5000) + 2.

(** A method that throws nothing but [Error] objects. *)
Definition raisesErrors {W A} (m : M W A) : Prop :=
  forall st t st', m st = (Throw t, st') -> exists message, t = Error message.

(** A method that always returns. *)
Definition neverThrows {W A} (m : M W A) : Prop :=
  forall st, exists a st', m st = (Return a, st').



(** The URL tests of the completion check. *)
Definition onAuthDomain (u : jsstring) : bool :=
  JsStr.includes u (JsStr.lit "auth.openai.com").

Definition onTargetDomain (u : jsstring) : bool :=
  JsStr.includes u (JsStr.lit "sora.com") ||
  JsStr.includes u (JsStr.lit "chat.openai.com") ||
  JsStr.includes u (JsStr.lit "chatgpt.com").


End Properties.

(* ------------------------------------------------------------------ *)
(** * Strings *)

Module JsStrFacts.
Import JsStr.

(** [eqb] decides equality of strings. *)
Lemma eqb_refl (a : t) : eqb a a = true.
Proof.
  induction a as [|x a IH]; simpl; [reflexivity|].
  now rewrite N.eqb_refl, IH.
Qed.

Lemma eqb_eq (a b : t) : eqb a b = true <-> a = b.
Proof.
  split; [|intros ->; apply eqb_refl].
  revert b; induction a as [|x a IH]; intros [|y b]; simpl; try discriminate.
  - reflexivity.
  - intros H. apply andb_true_iff in H as [Hx Hab].
    apply N.eqb_eq in Hx. f_equal; auto.
Qed.

(** [startsWith] and [includes], by the shape of the string. *)
Lemma startsWith_app (s needle : t) :
  startsWith s needle = true <-> exists rest, s = needle ++ rest.
Proof.
  revert s; induction needle as [|x needle IH]; intros s; simpl.
  - split; [intros _; now exists s | reflexivity].
  - destruct s as [|y s].
    + split; [discriminate | intros [rest H]; discriminate].
    + rewrite andb_true_iff, N.eqb_eq, IH. split.
      * intros [-> [rest ->]]. now exists rest.
      * intros [rest H]. injection H as -> ->. split; [reflexivity|now exists rest].
Qed.

Lemma includes_app (s needle : t) :
  includes s needle = true <-> exists pre post, s = pre ++ needle ++ post.
Proof.
  induction s as [|c s IH]; cbn [includes].
  - rewrite orb_false_r, startsWith_app. split.
    + intros [rest H]. exists [], rest. exact H.
    + intros [pre [post H]]. destruct pre; simpl in H.
      * now exists post.
      * discriminate.
  - rewrite orb_true_iff, startsWith_app, IH. split.
    + intros [[rest H] | [pre [post H]]].
      * exists [], rest. exact H.
      * exists (c :: pre), post. simpl. now rewrite H.
    + intros [[|d pre] [post H]]; simpl in H.
      * left. now exists post.
      * right. injection H as _ H. now exists pre, post.
Qed.

End JsStrFacts.

(* ------------------------------------------------------------------ *)
(** * Methods *)

Module JsFacts.

Import Js.

Section Laws.

Variable W : Type.

(** Sequencing is associative and has [ret] as its unit; a [throw] cuts
    what follows it, and a [try] hands it to the handler. *)
Lemma bind_ret_l A B (a : A) (k : A -> M W B) (st : state W) :
  bind (ret a) k st = k a st.
Proof. reflexivity. Qed.

Lemma bind_ret_r A (m : M W A) (st : state W) :
  bind m ret st = m st.
Proof. unfold bind. destruct (m st) as [[a|t] st']; reflexivity. Qed.

Lemma bind_assoc A B C (m : M W A) (k : A -> M W B) (h : B -> M W C) (st : state W) :
  bind (bind m k) h st = bind m (fun a => bind (k a) h) st.
Proof. unfold bind. destruct (m st) as [[a|t] st']; reflexivity. Qed.

Lemma bind_throw A B (t : thrown) (k : A -> M W B) (st : state W) :
  bind (throw t) k st = (Throw t, st).
Proof. reflexivity. Qed.

Lemma tryCatch_throw A (t : thrown) (handler : thrown -> M W A) (st : state W) :
  tryCatch (throw t) handler st = handler t st.
Proof. reflexivity. Qed.

Lemma tryCatch_ret A (a : A) (handler : thrown -> M W A) (st : state W) :
  tryCatch (ret a) handler st = (Return a, st).
Proof. reflexivity. Qed.

(** A driver call throws nothing but an [Error]. *)
Lemma call_throws_error A (op : W -> outcome A * W) (st st' : state W) (t : thrown) :
  call op st = (Throw t, st') -> exists message, t = Error message.
Proof.
  unfold call. destruct (op (world st)) as [[a|m] w']; intros H; inversion H.
  now exists m.
Qed.

End Laws.

End JsFacts.

(** Runs the plumbing of a method (sequencing, try and catch, logging,
    driver calls) until a driver call or a test decides how it goes on. *)
Ltac js_run :=
  cbv beta iota zeta delta
      [Js.bind Js.ret Js.throw Js.tryCatch Js.emit Js.logger Js.call Js.invoke
       Js.messageOf Browser.sleep Browser.now Browser.evaluate];
  cbn [fst snd Js.world Js.trace].

(* ------------------------------------------------------------------ *)
(** * The retry wrapper *)

Module RetryFacts.

Import Js Browser OpenAIRegister Properties.

Lemma attempts_app (label : string) (tr1 tr2 : list event) :
  attempts label (tr1 ++ tr2) = attempts label tr1 ++ attempts label tr2.
Proof.
  induction tr1 as [|e tr1 IH]; simpl; [reflexivity|].
  destruct e as [l msg|ms|l r]; auto.
  destruct (String.eqb l label); simpl; now rewrite IH.
Qed.

Lemma pauses_app (tr1 tr2 : list event) :
  pauses (tr1 ++ tr2) = pauses tr1 ++ pauses tr2.
Proof.
  induction tr1 as [|e tr1 IH]; simpl; [reflexivity|].
  destruct e; simpl; now rewrite IH.
Qed.

Lemma last_cons {A} (a d : A) (l : list A) : last (a :: l) d = last l a.
Proof.
  revert a d; induction l as [|b l IH]; intros a d; [reflexivity|].
  change (last (a :: b :: l) d) with (last (b :: l) d).
  now rewrite (IH b d), (IH b a).
Qed.

Section Retry.

Variable W : Type.
Variable P : page W.
Variable A : Type.
Variable op : W -> outcome A * W.
Variable label : string.
Variable stepName : string.
Variable retries : nat.
Variable delay : Z.

Lemma withRetryLoop_outcome (left i : nat) (lastError : thrown) (st : state W) :
  retryOutcome op label left lastError st
    (withRetryLoop P (invoke label op) stepName retries delay left i lastError st).
Proof.
  revert i lastError st.
  induction left as [|left IH]; intros i lastError st.
  - exists []. cbn. rewrite attempts_app, app_nil_r. cbn. auto using app_nil_r.
  - cbn [withRetryLoop]. unfold tryCatch at 1. unfold invoke at 1.
    destruct (op (world st)) as [[a|msg] w'] eqn:Hop.
    + exists []. cbn. rewrite attempts_app. cbn. rewrite String.eqb_refl.
      repeat split; [lia|]. exists (world st). exact Hop.
    + set (st1 := MkState w' (trace st ++ [Invoked label (Some msg)])).
      assert (Hnext : forall st2,
                 attempts label (trace st2) = attempts label (trace st) ++ [Some msg] ->
                 retryOutcome op label (S left) lastError st
                   (withRetryLoop P (invoke label op) stepName retries delay
                                  left (S i) (Error msg) st2)).
      { intros st2 Hst2. specialize (IH (S i) (Error msg) st2).
        destruct (withRetryLoop _ _ _ _ _ _ _ _ st2) as [r st'].
        destruct IH as [failures [Htr Hr]].
        exists (msg :: failures). split.
        - rewrite Htr, Hst2, <- app_assoc. reflexivity.
        - destruct r as [a|t].
          + destruct Hr as [Hlen Hw]. split; [simpl; lia | exact Hw].
          + destruct Hr as [Hlen Ht]. split; [simpl; lia|].
            cbn [map]. rewrite last_cons. exact Ht. }
      assert (H1 : attempts label (trace st1) = attempts label (trace st) ++ [Some msg]).
      { unfold st1. cbn. rewrite attempts_app. cbn. now rewrite String.eqb_refl. }
      unfold bind at 1.
      destruct (Z.of_nat i <? Z.of_nat retries - 1)%Z.
      * cbn. apply Hnext. cbn. rewrite !attempts_app. cbn.
        rewrite String.eqb_refl, !app_nil_r. reflexivity.
      * cbn. apply Hnext. exact H1.
Qed.

(** C2.  Every run of [withRetry] on an operation, with [retries = N].
    The invocations of the operation the run adds to the trace are some
    failures followed by at most one success, which is then the last.
    Either the run returns: then the failures number [k - 1] for some
    [k <= N], the [k]-th invocation is the success, and what the wrapper
    returns is the value the operation resolved with.  Or the run throws:
    then the invocations are exactly [N], all failures, and what is thrown
    is the error of the last one ([undefined] when [N] is 0).  So an
    operation that fails on every attempt is invoked exactly [N] times
    before the last error surfaces, and one that first succeeds on attempt
    [k <= N] is invoked exactly [k] times. *)
Theorem withRetry_invocations (st : state W) :
  let (r, st') := withRetry P (invoke label op) stepName retries delay st in
  exists failures : list jsstring,
    attempts label (trace st') =
      attempts label (trace st) ++ map Some failures ++
      (match r with Return _ => [None] | Throw _ => [] end) /\
    match r with
    | Return a =>
        (List.length failures < retries)%nat /\
        exists w, op w = (Resolved a, world st')
    | Throw t =>
        List.length failures = retries /\
        t = last (map Error failures) Undefined
    end.
Proof.
  exact (withRetryLoop_outcome retries 0 Undefined st).
Qed.

End Retry.

End RetryFacts.

(* ------------------------------------------------------------------ *)
(** * Navigation-safe evaluation *)

Module EvaluateFacts.

Import Js Browser OpenAIRegister Properties.

Section Evaluate.

Variable W : Type.
Variable P : page W.
Variable A : Type.
Variable fn : document -> A.

(** One iteration of the loop, by what the evaluation comes to. *)
Lemma safeEvaluateLoop_step (d : A) (retries left i : nat) (st : state W) :
  safeEvaluateLoop P fn d retries (S left) i st =
  match evaluateDocument P (world st) with
  | (Resolved doc, w') =>
      (Return (fn doc), MkState w' (trace st ++ [Invoked "page.evaluate" None]))
  | (Rejected msg, w') =>
      if isNavigationError msg && (Z.of_nat i <? Z.of_nat retries - 1)%Z
      then
        safeEvaluateLoop P fn d retries left (S i)
          (MkState (afterTimeout P 2000 w')
             (((trace st ++ [Invoked "page.evaluate" (Some msg)]) ++
               [Logged Info [Txt "safeEvaluate 重试 "; Num (Z.of_nat i + 2);
                             Txt "/"; Num (Z.of_nat retries); Txt "..."]]) ++
              [Slept 2000]))
      else (Throw (Error msg),
            MkState w' (trace st ++ [Invoked "page.evaluate" (Some msg)]))
  end.
Proof.
  cbn [safeEvaluateLoop]. unfold tryCatch, evaluate, bind at 1, invoke.
  destruct (evaluateDocument P (world st)) as [[doc|msg] w']; [reflexivity|].
  cbn. unfold bind at 1. cbn.
  destruct (isNavigationError msg && (Z.of_nat i <? Z.of_nat retries - 1)%Z);
    reflexivity.
Qed.

Lemma safeEvaluateLoop_outcome (d : A) (retries : nat) :
  forall left i st,
    (left + i = retries)%nat ->
    evaluateOutcome P fn d left st (safeEvaluateLoop P fn d retries left i st).
Proof.
  induction left as [|left IH]; intros i st Hinv.
  - exists []. cbn. rewrite app_nil_r.
    split; [constructor|]. split; [reflexivity|]. left. auto.
  - rewrite safeEvaluateLoop_step.
    destruct (evaluateDocument P (world st)) as [[doc|msg] w'] eqn:Hev.
    + exists []. cbn. rewrite app_nil_r, RetryFacts.pauses_app, app_nil_r.
      split; [constructor|]. split; [reflexivity|].
      right. split; [lia|]. split.
      * now rewrite RetryFacts.attempts_app.
      * exists (world st), doc. auto.
    + assert (Hthrow :
                (isNavigationError msg = true -> left = 0%nat) ->
                evaluateOutcome P fn d (S left) st
                  (Throw (Error msg),
                   MkState w' (trace st ++ [Invoked "page.evaluate" (Some msg)]))).
      { intros Hlast. exists []. cbn. rewrite RetryFacts.pauses_app, !app_nil_r.
        split; [constructor|]. split; [reflexivity|].
        exists msg. split; [reflexivity|]. split; [lia|]. split.
        - now rewrite RetryFacts.attempts_app.
        - split; [now exists (world st)|]. intros Hm. now rewrite (Hlast Hm). }
      destruct (isNavigationError msg) eqn:Hnav; cbn [andb].
      * destruct (Z.of_nat i <? Z.of_nat retries - 1)%Z eqn:Hlast.
        -- apply Z.ltb_lt in Hlast.
           match goal with |- context [safeEvaluateLoop _ _ _ _ _ _ ?s] => set (st2 := s) end.
           assert (Hp2 : pauses (trace st2) = pauses (trace st) ++ [2000%Z]).
           { unfold st2. cbn [trace]. rewrite !RetryFacts.pauses_app. cbn.
             now rewrite !app_nil_r. }
           assert (Ha2 : attempts "page.evaluate" (trace st2) =
                         attempts "page.evaluate" (trace st) ++ [Some msg]).
           { unfold st2. cbn [trace]. rewrite !RetryFacts.attempts_app. cbn.
             now rewrite !app_nil_r. }
           specialize (IH (S i) st2 ltac:(lia)).
           destruct (safeEvaluateLoop P fn d retries left (S i) st2) as [r st'].
           destruct IH as [retried [Hall [Hp Hr]]]. exists (msg :: retried).
           split; [constructor; assumption|]. split.
           ++ rewrite Hp, Hp2, <- app_assoc. reflexivity.
           ++ destruct r as [v|t].
              ** destruct Hr as [[H0 _] | [Hn [Ha Hw]]]; [lia|].
                 right. split; [simpl; lia|]. split; [|exact Hw].
                 rewrite Ha, Ha2, <- app_assoc. reflexivity.
              ** destruct Hr as [m [Ht [Hn [Ha [Hw Hfull]]]]].
                 exists m. split; [exact Ht|]. split; [simpl; lia|]. split.
                 --- rewrite Ha, Ha2, <- app_assoc. reflexivity.
                 --- split; [exact Hw|]. intros Hm. specialize (Hfull Hm).
                     simpl. lia.
        -- apply Z.ltb_ge in Hlast. apply Hthrow. intros _. lia.
      * apply Hthrow. discriminate.
Qed.

Lemma safeEvaluateLoop_default (d d' : A) (retries : nat) :
  forall left i st,
    (left + i = retries)%nat -> (1 <= left)%nat ->
    safeEvaluateLoop P fn d retries left i st =
    safeEvaluateLoop P fn d' retries left i st.
Proof.
  induction left as [|left IH]; intros i st Hinv Hpos; [lia|].
  rewrite !safeEvaluateLoop_step.
  destruct (evaluateDocument P (world st)) as [[doc|msg] w']; [reflexivity|].
  destruct (isNavigationError msg); cbn [andb]; [|reflexivity].
  destruct (Z.of_nat i <? Z.of_nat retries - 1)%Z eqn:Hlast; [|reflexivity].
  apply Z.ltb_lt in Hlast. apply IH; lia.
Qed.

(** C3, as amended.  Every run of [safeEvaluate]: the rejections it
    retries are all of the navigation class, each retry comes after a pause
    of two seconds, and there are at most [retries - 1] of them; the error
    it throws is the rejection of the evaluation it made last, thrown as it
    came; and when that error is of the navigation class, every one of the
    [retries] attempts has been made.  So a navigation-class error is
    retried, not surfaced, on every attempt but the last, it is surfaced on
    the last, and an error of any other kind ends the run at once, without
    retry. *)
Theorem safeEvaluate_surfaces (defaultValue : A) (retries : nat) (st : state W) :
  let (r, st') := safeEvaluate P fn defaultValue retries st in
  exists retried : list jsstring,
    Forall (fun m => isNavigationError m = true) retried /\
    pauses (trace st') = pauses (trace st) ++ List.repeat 2000%Z (List.length retried) /\
    match r with
    | Return v =>
        (retries = 0%nat /\ v = defaultValue /\ st' = st) \/
        ((List.length retried < retries)%nat /\
         attempts "page.evaluate" (trace st') =
           attempts "page.evaluate" (trace st) ++ map Some retried ++ [None] /\
         exists w doc, evaluateDocument P w = (Resolved doc, world st') /\ v = fn doc)
    | Throw t =>
        exists msg,
          t = Error msg /\
          (List.length retried < retries)%nat /\
          attempts "page.evaluate" (trace st') =
            attempts "page.evaluate" (trace st) ++ map Some retried ++ [Some msg] /\
          (exists w, evaluateDocument P w = (Rejected msg, world st')) /\
          (isNavigationError msg = true -> S (List.length retried) = retries)
    end.
Proof.
  exact (@safeEvaluateLoop_outcome defaultValue retries retries 0%nat st
           (Nat.add_0_r retries)).
Qed.

(** C4.  With [retries >= 1], [safeEvaluate] does the same whatever
    default it is given, and each call either throws or returns the
    script's result on a document the page handed over: the final
    [return defaultValue] is not reached. *)
Theorem safeEvaluate_never_default (d d' : A) (retries : nat) (st : state W) :
  (1 <= retries)%nat ->
  safeEvaluate P fn d retries st = safeEvaluate P fn d' retries st /\
  match safeEvaluate P fn d retries st with
  | (Return v, st') =>
      exists w doc, evaluateDocument P w = (Resolved doc, world st') /\ v = fn doc
  | (Throw t, st') =>
      exists msg w, evaluateDocument P w = (Rejected msg, world st') /\ t = Error msg
  end.
Proof.
  intros Hpos. split.
  - unfold safeEvaluate. apply safeEvaluateLoop_default; lia.
  - pose proof (@safeEvaluateLoop_outcome d retries retries 0%nat st ltac:(lia)) as H.
    unfold safeEvaluate.
    destruct (safeEvaluateLoop P fn d retries retries 0 st) as [[v|t] st'].
    + destruct H as [retried [_ [_ [[H0 _] | [_ [_ Hw]]]]]]; [lia | exact Hw].
    + destruct H as [retried [_ [_ [msg [Ht [_ [_ [[w He] _]]]]]]]].
      exists msg, w. auto.
Qed.

(** With no iteration to run, the default is what comes back. *)
Lemma safeEvaluate_zero (d : A) (st : state W) :
  safeEvaluate P fn d 0 st = (Return d, st).
Proof. reflexivity. Qed.

End Evaluate.

End EvaluateFacts.

(* ------------------------------------------------------------------ *)
(** * The load-quiescence wait *)

Module PageLoadFacts.

Import Js Browser OpenAIRegister Properties.

Local Open Scope Z_scope.

Section PageLoad.

Variable W : Type.
Variable P : page W.

(** The clock of the world never runs backwards over an evaluation, and a
    timeout of [ms] fires no earlier than [ms] later. *)
Hypothesis evaluate_keeps_time :
  forall w, dateNow P w <= dateNow P (snd (evaluateDocument P w)).
Hypothesis timeout_advances :
  forall ms w, 0 <= ms -> dateNow P w + ms <= dateNow P (afterTimeout P ms w).

Variable timeout : Z.
Variable startTime : Z.






End PageLoad.


End PageLoadFacts.

(* ------------------------------------------------------------------ *)
(** * The matcher *)

Module RegexFacts.

Import Regex Properties.

(** A successful quantifier took some [n >= min] leading characters, all
    of its class, and the continuation succeeded on the rest. *)
Lemma repeat_sound (cls : N -> bool) (g : bool) :
  forall s mn mx k prev pos res,
    repeat cls g mn mx k prev s pos = Some res ->
    exists n prev',
      (mn <= n <= List.length s)%nat /\
      (forall bound, mx = Some bound -> n <= bound)%nat /\
      forallb cls (firstn n s) = true /\
      k prev' (skipn n s) (pos + n)%nat = Some res.
Proof.
  induction s as [|c s IH]; intros mn mx k prev pos res H.
  - cbn in H. destruct mn; [|discriminate].
    exists 0%nat, prev. rewrite Nat.add_0_r. cbn.
    split; [lia|]. split; [intros; lia|]. auto.
  - assert (Hstop : match mn with O => k prev (c :: s) pos | S _ => None end = Some res ->
                    exists n prev',
                      (mn <= n <= List.length (c :: s))%nat /\
                      (forall bound, mx = Some bound -> n <= bound)%nat /\
                      forallb cls (firstn n (c :: s)) = true /\
                      k prev' (skipn n (c :: s)) (pos + n)%nat = Some res).
    { destruct mn; [|discriminate]. intros Hk.
      exists 0%nat, prev. rewrite Nat.add_0_r. cbn.
      split; [lia|]. split; [intros; lia|]. auto. }
    assert (Hmore : cls c = true -> canTakeMore mx = true ->
                    repeat cls g (pred mn) (option_map pred mx) k (Some c) s (S pos) = Some res ->
                    exists n prev',
                      (mn <= n <= List.length (c :: s))%nat /\
                      (forall bound, mx = Some bound -> n <= bound)%nat /\
                      forallb cls (firstn n (c :: s)) = true /\
                      k prev' (skipn n (c :: s)) (pos + n)%nat = Some res).
    { intros Hc Hmx Hrec. apply IH in Hrec as [n [prev' [Hn [Hb [Hall Hk]]]]].
      exists (S n), prev'. cbn [firstn skipn forallb List.length].
      rewrite Hc, Hall. replace (pos + S n)%nat with (S pos + n)%nat by lia.
      split; [lia|]. split; [|auto].
      intros bound ->. destruct bound as [|bound]; [discriminate|].
      specialize (Hb bound eq_refl). lia. }
    cbn [repeat] in H.
    destruct (cls c) eqn:Hc; cbn [andb] in H; [|now apply Hstop].
    destruct (canTakeMore mx) eqn:Hmx; [|now apply Hstop].
    destruct g.
    + destruct (repeat cls true (pred mn) (option_map pred mx) k (Some c) s (S pos))
        as [r1|] eqn:Hrec.
      * injection H as <-. now apply Hmore.
      * now apply Hstop.
    + destruct (match mn with O => k prev (c :: s) pos | S _ => None end)
        as [r1|] eqn:Hk.
      * injection H as <-. now apply Hstop.
      * now apply Hmore.
Qed.

(** A match ends within the subject and no earlier than the pattern's
    least length allows. *)
Lemma matchAtoms_bounds :
  forall r opened cap prev s pos e c,
    matchAtoms r opened cap prev s pos = Some (e, c) ->
    (pos + minLength r <= e <= pos + List.length s)%nat.
Proof.
  induction r as [|a r IH]; intros opened cap prev s pos e c H.
  - cbn in H. injection H as <- _. cbn. lia.
  - destruct a as [cls mn mx g| | | | |]; cbn [matchAtoms minLength] in *.
    + apply repeat_sound in H as [n [prev' [Hn [_ [_ Hk]]]]].
      apply IH in Hk. rewrite length_skipn in Hk. lia.
    + now apply IH in H.
    + now apply IH in H.
    + destruct prev; [discriminate|]. now apply IH in H.
    + destruct s; [|discriminate]. now apply IH in H.
    + destruct (xorb _ _); [|discriminate]. now apply IH in H.
Qed.








(** A piece without parentheses leaves the group as it found it. *)
Lemma matchAtoms_group_kept :
  forall r opened cap prev s pos e c,
    groupFree r = true ->
    matchAtoms r opened cap prev s pos = Some (e, c) ->
    c = cap.
Proof.
  induction r as [|a r IH]; intros opened cap prev s pos e c Hfree H.
  - cbn in H. now injection H as _ <-.
  - cbn [groupFree forallb] in Hfree. apply andb_true_iff in Hfree as [Ha Hfree].
    destruct a as [cls mn mx g| | | | |]; try discriminate; cbn [matchAtoms] in H.
    + apply repeat_sound in H as [n [prev' [_ [_ [_ Hk]]]]]. eapply IH; eauto.
    + destruct prev; [discriminate|]. eapply IH; eauto.
    + destruct s; [|discriminate]. eapply IH; eauto.
    + destruct (xorb _ _); [|discriminate]. eapply IH; eauto.
Qed.

(** A piece without parentheses consumes some characters and hands the
    rest to what follows it. *)
Lemma matchAtoms_prefix :
  forall r1 rest opened cap prev s pos res,
    groupFree r1 = true ->
    matchAtoms (r1 ++ rest) opened cap prev s pos = Some res ->
    exists n prev',
      (n <= List.length s)%nat /\
      matchAtoms rest opened cap prev' (skipn n s) (pos + n)%nat = Some res.
Proof.
  induction r1 as [|a r1 IH]; intros rest opened cap prev s pos res Hfree H.
  - exists 0%nat, prev. rewrite Nat.add_0_r. cbn. split; [lia | exact H].
  - cbn [groupFree forallb] in Hfree. apply andb_true_iff in Hfree as [Ha Hfree].
    assert (Hsame : matchAtoms (r1 ++ rest) opened cap prev s pos = Some res ->
                    exists n prev',
                      (n <= List.length s)%nat /\
                      matchAtoms rest opened cap prev' (skipn n s) (pos + n)%nat = Some res)
      by (intros H'; eapply IH; eauto).
    destruct a as [cls mn mx g| | | | |]; try discriminate; cbn [app matchAtoms] in H.
    + apply repeat_sound in H as [n [prev' [Hn [_ [_ Hk]]]]].
      apply IH in Hk as [n' [prev'' [Hn' Hk]]]; [|exact Hfree].
      exists (n + n')%nat, prev''. rewrite length_skipn in Hn'.
      split; [lia|].
      replace (skipn (n + n') s) with (skipn n' (skipn n s))
        by (rewrite skipn_skipn; f_equal; lia).
      replace (pos + (n + n'))%nat with (pos + n + n')%nat by lia.
      exact Hk.
    + destruct prev; [discriminate|]. now apply Hsame.
    + destruct s; [|discriminate]. now apply Hsame.
    + destruct (xorb _ _); [|discriminate]. now apply Hsame.
Qed.

End RegexFacts.

(* ------------------------------------------------------------------ *)
(** * The inbox bridge *)

Module TempMailFacts.

Import Regex RegexFacts Js Browser TempMailService Properties.

(** Where a search finds its match. *)
Lemma searchFrom_bounds (r : regex) :
  forall s prev pos b e c,
    searchFrom r prev s pos = Some (b, (e, c)) ->
    (pos <= b /\ b + minLength r <= e <= pos + List.length s)%nat.
Proof.
  induction s as [|x s IH]; intros prev pos b e c H; cbn [searchFrom] in H.
  - destruct (matchAtoms r None None prev [] pos) as [[e' c']|] eqn:Hm; [|discriminate].
    injection H as <- <- <-. apply matchAtoms_bounds in Hm. lia.
  - destruct (matchAtoms r None None prev (x :: s) pos) as [[e' c']|] eqn:Hm.
    + injection H as <- <- <-. apply matchAtoms_bounds in Hm. lia.
    + apply IH in H. cbn [List.length]. lia.
Qed.

Lemma exec_min_length (r : regex) (subject : jsstring) (m : result) :
  exec r subject = Some m -> (minLength r <= List.length subject)%nat.
Proof.
  unfold exec. destruct (searchFrom r None subject 0) as [[b [e c]]|] eqn:Hs; [|discriminate].
  intros _. apply searchFrom_bounds in Hs. lia.
Qed.

(** Where a global scan finds its matches. *)
Lemma scan_bounds (r : regex) :
  forall s prev pos skip,
    Forall (fun be => (pos <= fst be /\ fst be + minLength r <= snd be
                       /\ snd be <= pos + List.length s)%nat)
           (scan r prev s pos skip).
Proof.
  induction s as [|x s IH]; intros prev pos skip.
  - destruct skip; cbn [scan]; [|constructor].
    destruct (matchAtoms r None None prev [] pos) as [[e c]|] eqn:Hm; constructor.
    + apply matchAtoms_bounds in Hm. cbn in *. lia.
    + constructor.
  - assert (Hrest : forall prev' skip',
               Forall (fun be => (pos <= fst be /\ fst be + minLength r <= snd be
                                  /\ snd be <= pos + List.length (x :: s))%nat)
                      (scan r prev' s (S pos) skip')).
    { intros prev' skip'. eapply Forall_impl; [|apply IH].
      cbn [List.length]. intros be H. lia. }
    destruct skip; cbn [scan]; [|apply Hrest].
    destruct (matchAtoms r None None prev (x :: s) pos) as [[e c]|] eqn:Hm.
    + constructor; [|apply Hrest]. apply matchAtoms_bounds in Hm. cbn [fst snd]. lia.
    + apply Hrest.
Qed.

Lemma slice_length (b e : nat) (s : jsstring) :
  (e <= List.length s)%nat -> List.length (JsStr.slice b e s) = (e - b)%nat.
Proof.
  intros H. unfold JsStr.slice. rewrite length_firstn, length_skipn. lia.
Qed.

(** Every text a global match returns is as long as the pattern at
    least. *)
Lemma matchGlobal_min_length (r : regex) (subject : jsstring) (matches : list jsstring) :
  matchGlobal r subject = Some matches ->
  Forall (fun m => (minLength r <= List.length m)%nat) matches.
Proof.
  unfold matchGlobal. pose proof (scan_bounds r subject None 0 0) as Hb.
  destruct (scan r None subject 0 0) as [|be spans]; [discriminate|].
  intros H. injection H as <-. rewrite Forall_forall in *. intros m Hin.
  change (In m (map (fun be => JsStr.slice (fst be) (snd be) subject) (be :: spans))) in Hin.
  apply in_map_iff in Hin as [[b e] [<- Hin]]. specialize (Hb _ Hin).
  cbn [fst snd] in *. rewrite slice_length; lia.
Qed.

Lemma email_min_length : minLength emailRegex = 6%nat /\ minLength wholeEmailRegex = 6%nat.
Proof. split; reflexivity. Qed.

Lemma emailFromInputs_nonempty (inputs : list element) (a : jsstring) :
  emailFromInputs inputs = Some a -> JsStr.truthy a = true.
Proof.
  induction inputs as [|i inputs IH]; cbn [emailFromInputs]; [discriminate|].
  destruct (JsStr.truthy (value i) && _ && _); [|exact IH].
  destruct (exec wholeEmailRegex (JsStr.trim (value i))) as [m|] eqn:Hm; [|exact IH].
  intros H. injection H as <-. apply exec_min_length in Hm.
  destruct (JsStr.trim (value i)); [cbn in Hm; lia | reflexivity].
Qed.

Lemma emailFromText_nonempty (bodyText a : jsstring) :
  emailFromText bodyText = Some a -> JsStr.truthy a = true.
Proof.
  unfold emailFromText.
  destruct (matchGlobal emailRegex bodyText) as [matches|] eqn:Hm; [|discriminate].
  apply matchGlobal_min_length in Hm. rewrite Forall_forall in Hm.
  assert (Hin : In a matches -> JsStr.truthy a = true).
  { intros Hi. apply Hm in Hi. destruct a; [cbn in Hi; lia | reflexivity]. }
  destruct (find notPlaceholder matches) as [email|] eqn:Hf.
  - intros H. injection H as <-. apply find_some in Hf. tauto.
  - destruct matches as [|m matches]; [discriminate|].
    intros H. injection H as <-. apply Hin. now left.
Qed.

(** An address the page script resolves is never the empty string. *)
Lemma findEmailScript_nonempty (d : document) (a : jsstring) :
  findEmailScript d = Some a -> JsStr.truthy a = true.
Proof.
  unfold findEmailScript.
  destruct (emailFromInputs _) as [v|] eqn:Hi.
  - intros H. injection H as <-. eapply emailFromInputs_nonempty; eauto.
  - apply emailFromText_nonempty.
Qed.

(** The script comes back empty-handed exactly when no input value is an
    address and the page text holds no address-shaped token at all. *)
Lemma findEmailScript_none (d : document) :
  findEmailScript d = None <->
  emailFromInputs (querySelectorAll d (JsStr.lit "input")) = None /\
  matchGlobal emailRegex (bodyInnerText d) = None.
Proof.
  unfold findEmailScript, emailFromText.
  destruct (emailFromInputs _) as [v|]; [split; [discriminate | intros [H _]; discriminate]|].
  destruct (matchGlobal emailRegex (bodyInnerText d)) as [matches|] eqn:Hm.
  - split; [|intros [_ H]; discriminate].
    destruct (find notPlaceholder matches); [discriminate|].
    destruct matches; [|discriminate].
    unfold matchGlobal in Hm. destruct (scan _ _ _ _ _); discriminate.
  - split; auto.
Qed.

(** When every token of the text is a placeholder, the first one is what
    the fallback returns. *)
Lemma emailFromText_placeholders (bodyText : jsstring) (matches : list jsstring) :
  matchGlobal emailRegex bodyText = Some matches ->
  forallb (fun m => negb (notPlaceholder m)) matches = true ->
  emailFromText bodyText = hd_error matches.
Proof.
  intros Hm Hall. unfold emailFromText. rewrite Hm.
  destruct (find notPlaceholder matches) as [email|] eqn:Hf; [|reflexivity].
  apply find_some in Hf as [Hin Hnp].
  rewrite forallb_forall in Hall. specialize (Hall _ Hin).
  rewrite Hnp in Hall. discriminate.
Qed.







(** A pattern made of a piece, the six-digit group and another piece
    captures six digits of the text it is matched against. *)
Lemma matchAtoms_six_group (r1 r2 : regex) :
  groupFree r1 = true -> groupFree r2 = true ->
  forall opened cap0 prev s pos e cap,
    matchAtoms (r1 ++ sixDigits ++ r2) opened cap0 prev s pos = Some (e, cap) ->
    exists k,
      cap = Some (pos + k, pos + k + 6)%nat /\
      (k + 6 <= List.length s)%nat /\
      forallb JsStr.isDigit (firstn 6 (skipn k s)) = true.
Proof.
  intros H1 H2 opened cap0 prev s pos e cap H.
  apply matchAtoms_prefix in H as [k [prev' [Hk H]]]; [|exact H1].
  cbn [sixDigits app matchAtoms exactly] in H.
  apply repeat_sound in H as [n [prev'' [Hn [Hb [Hall H]]]]].
  specialize (Hb 6%nat eq_refl). assert (n = 6%nat) by lia. subst n.
  cbn [matchAtoms] in H. apply matchAtoms_group_kept in H; [|exact H2].
  rewrite length_skipn in Hn. exists k. repeat split; [exact H | lia | exact Hall].
Qed.

Lemma searchFrom_six_group (r1 r2 : regex) :
  groupFree r1 = true -> groupFree r2 = true ->
  forall s prev pos b e cap,
    searchFrom (r1 ++ sixDigits ++ r2) prev s pos = Some (b, (e, cap)) ->
    exists k,
      cap = Some (pos + k, pos + k + 6)%nat /\
      (k + 6 <= List.length s)%nat /\
      forallb JsStr.isDigit (firstn 6 (skipn k s)) = true.
Proof.
  intros H1 H2. induction s as [|x s IH]; intros prev pos b e cap H;
    cbn [searchFrom] in H.
  - destruct (matchAtoms _ None None prev [] pos) as [[e' c']|] eqn:Hm; [|discriminate].
    injection H as _ <- <-. exact (matchAtoms_six_group r1 r2 H1 H2 _ _ _ _ _ Hm).
  - destruct (matchAtoms _ None None prev (x :: s) pos) as [[e' c']|] eqn:Hm.
    + injection H as _ <- <-. exact (matchAtoms_six_group r1 r2 H1 H2 _ _ _ _ _ Hm).
    + apply IH in H as [k [Hcap [Hk Hall]]]. exists (S k).
      replace (pos + S k)%nat with (S pos + k)%nat by lia.
      cbn [List.length skipn]. split; [exact Hcap|]. split; [lia | exact Hall].
Qed.

Lemma exec_six_group (r1 r2 : regex) (subject : jsstring) (m : result) :
  groupFree r1 = true -> groupFree r2 = true ->
  exec (r1 ++ sixDigits ++ r2) subject = Some m ->
  exists code, firstGroup m = VStr code /\ isSixDigitCode code.
Proof.
  intros H1 H2. unfold exec.
  destruct (searchFrom _ None subject 0) as [[b [e cap]]|] eqn:Hs; [|discriminate].
  intros H. injection H as <-.
  apply (searchFrom_six_group r1 r2 H1 H2) in Hs as [k [-> [Hk Hall]]].
  cbn [firstGroup group1 option_map fst snd Nat.add].
  exists (JsStr.slice k (k + 6) subject). split; [reflexivity|].
  unfold isSixDigitCode, JsStr.slice.
  replace (k + 6 - k)%nat with 6%nat by lia. split; [|exact Hall].
  rewrite length_firstn, length_skipn. lia.
Qed.

(** Every pattern of the list has that shape. *)
Lemma codePatterns_shape :
  Forall (fun p => exists r1 r2,
              p = r1 ++ sixDigits ++ r2 /\ groupFree r1 = true /\ groupFree r2 = true)
         codePatterns.
Proof.
  unfold codePatterns.
  repeat (apply Forall_cons;
          [first [ eexists (_ ++ [_]), []; rewrite app_nil_r, <- app_assoc;
                   split; [reflexivity | split; reflexivity]
                 | exists [WordB], [WordB]; split; [reflexivity | split; reflexivity] ]|]).
  constructor.
Qed.

Lemma firstCode_six_digits (patterns : list regex) (bodyText : jsstring) :
  Forall (fun p => exists r1 r2,
              p = r1 ++ sixDigits ++ r2 /\ groupFree r1 = true /\ groupFree r2 = true)
         patterns ->
  firstCode patterns bodyText = VNull \/
  exists code, firstCode patterns bodyText = VStr code /\ isSixDigitCode code.
Proof.
  induction 1 as [|p ps [r1 [r2 [-> [H1 H2]]]] _ IH]; cbn [firstCode]; [now left|].
  destruct (exec (r1 ++ sixDigits ++ r2) bodyText) as [m|] eqn:Hm; [|exact IH].
  right. exact (exec_six_group r1 r2 _ H1 H2 Hm).
Qed.






(** The order decides: a body that two patterns match yields the group of
    the earlier one. *)
Example extractVerificationCode_earlier_pattern_wins :
  firstCode codePatterns (JsStr.lit "code: 123456. Your code is 482913")
  = VStr (JsStr.lit "123456").
Proof. vm_compute. reflexivity. Qed.

(** The bare pattern wants the six digits to stand alone. *)
Example extractVerificationCode_seven_digits :
  firstCode codePatterns (JsStr.lit "ref 1234567") = VNull.
Proof. vm_compute. reflexivity. Qed.

Section Address.

Variable W : Type.
Variable P : page W.

(** C7, as amended.  In a run of [getEmailAddress] whose two evaluations
    resolve, the second one on the document [d]: an address the page
    script resolves on [d] is returned, and the script resolves one from
    the first input value that is an address, else from the first token of
    the page text that is no placeholder, else from the first token, be it
    a placeholder.  The run fails exactly when no input value is an address
    and the page text holds no address-shaped token at all; the error is
    then the address-not-found one, provided the screenshots it takes on
    the way out succeed. *)
Theorem getEmailAddress_outcome (st : state W) (inputInfo d : document) (w1 w3 : W) :
  evaluateDocument P (afterTimeout P 2000 (world st)) = (Resolved inputInfo, w1) ->
  evaluateDocument P (snd (waitForFunction P 15000 w1)) = (Resolved d, w3) ->
  match findEmailScript d with
  | Some address => fst (getEmailAddress P st) = Return address
  | None =>
      exists t,
        fst (getEmailAddress P st) = Throw t /\
        ((forall name w, fst (screenshot P name w) = Resolved tt) ->
         t = Error addressNotFound)
  end /\
  (findEmailScript d = None <->
   emailFromInputs (querySelectorAll d (JsStr.lit "input")) = None /\
   matchGlobal emailRegex (bodyInnerText d) = None) /\
  (forall v,
     emailFromInputs (querySelectorAll d (JsStr.lit "input")) = Some v ->
     findEmailScript d = Some v) /\
  (forall matches email,
     emailFromInputs (querySelectorAll d (JsStr.lit "input")) = None ->
     matchGlobal emailRegex (bodyInnerText d) = Some matches ->
     find notPlaceholder matches = Some email ->
     findEmailScript d = Some email) /\
  (forall matches,
     emailFromInputs (querySelectorAll d (JsStr.lit "input")) = None ->
     matchGlobal emailRegex (bodyInnerText d) = Some matches ->
     forallb (fun m => negb (notPlaceholder m)) matches = true ->
     findEmailScript d = hd_error matches).
Proof.
  intros Hev1 Hev2.
  destruct (waitForFunction P 15000 w1) as [waited w2] eqn:Hw. cbn [snd] in Hev2.
  split; [|split; [|split; [|split]]].
  - assert (Hfound : forall address,
               findEmailScript d = Some address -> JsStr.truthy address = true)
      by apply findEmailScript_nonempty.
    unfold getEmailAddress. js_run. rewrite Hev1. js_run.
    destruct (0 <? Z.of_nat (List.length (querySelectorAll inputInfo (JsStr.lit "input"))))%Z;
      js_run; rewrite Hw; destruct waited as [[]|m]; js_run; rewrite Hev2; js_run;
      destruct (findEmailScript d) as [address|];
      try (rewrite (Hfound address eq_refl); js_run; reflexivity);
      js_run;
      pose proof (fun (H : forall name w, fst (screenshot P name w) = Resolved tt) =>
                    H "debug-no-email.png"%string w3) as H1;
      destruct (screenshot P "debug-no-email.png" w3) as [[[]|m1] w4]; js_run;
      pose proof (fun (H : forall name w, fst (screenshot P name w) = Resolved tt) =>
                    H "debug-tempmail-error.png"%string w4) as H2;
      destruct (screenshot P "debug-tempmail-error.png" w4) as [[[]|m2] w5]; js_run;
      eexists; (split; [reflexivity|]); intros Hall;
      first [ reflexivity
            | specialize (H1 Hall); discriminate
            | specialize (H2 Hall); discriminate ].
  - apply findEmailScript_none.
  - intros v Hi. unfold findEmailScript. now rewrite Hi.
  - intros matches email Hi Hm Hf. unfold findEmailScript, emailFromText.
    now rewrite Hi, Hm, Hf.
  - intros matches Hi Hm Hall. unfold findEmailScript. rewrite Hi.
    now apply emailFromText_placeholders.
Qed.

End Address.

End TempMailFacts.

(* ------------------------------------------------------------------ *)
(** * The registration run *)

Module RegisterFacts.

Import Js Browser OpenAIRegister Properties.

Section Keeps.

Variable W : Type.
Variable P : page W.
Variable label : string.

Lemma keeps_ret A (a : A) : keeps label (ret (W := W) a).
Proof. intros st. reflexivity. Qed.

Lemma keeps_throw A (t : thrown) : keeps label (throw (W := W) (A := A) t).
Proof. intros st. reflexivity. Qed.

Lemma keeps_logger (l : level) (msg : list piece) : keeps label (logger (W := W) l msg).
Proof.
  intros st. cbn. rewrite RetryFacts.attempts_app. cbn. apply app_nil_r.
Qed.

Lemma keeps_sleep (ms : Z) : keeps label (sleep P ms).
Proof.
  intros st. cbn. rewrite RetryFacts.attempts_app. cbn. apply app_nil_r.
Qed.

Lemma keeps_call A (op : W -> outcome A * W) : keeps label (call op).
Proof.
  intros st. unfold call. destruct (op (world st)) as [[a|m] w']; reflexivity.
Qed.

Lemma keeps_messageOf (t : thrown) : keeps label (messageOf (W := W) t).
Proof. destruct t; intros st; reflexivity. Qed.

Lemma keeps_invoke A (other : string) (op : W -> outcome A * W) :
  String.eqb other label = false -> keeps label (invoke other op).
Proof.
  intros Hne st. unfold invoke.
  destruct (op (world st)) as [[a|m] w']; cbn;
    rewrite RetryFacts.attempts_app; cbn; rewrite Hne; apply app_nil_r.
Qed.

Lemma keeps_bind A B (m : M W A) (k : A -> M W B) :
  keeps label m -> (forall a, keeps label (k a)) -> keeps label (bind m k).
Proof.
  intros Hm Hk st. unfold bind. specialize (Hm st).
  destruct (m st) as [[a|t] st1]; cbn [snd] in *; [|exact Hm].
  now rewrite Hk.
Qed.

Lemma keeps_tryCatch A (body : M W A) (handler : thrown -> M W A) :
  keeps label body -> (forall t, keeps label (handler t)) ->
  keeps label (tryCatch body handler).
Proof.
  intros Hm Hk st. unfold tryCatch. specialize (Hm st).
  destruct (body st) as [[a|t] st1]; cbn [snd] in *; [exact Hm|].
  now rewrite Hk.
Qed.

Lemma keeps_if A (c : bool) (m1 m2 : M W A) :
  keeps label m1 -> keeps label m2 -> keeps label (if c then m1 else m2).
Proof. destruct c; auto. Qed.

Lemma keeps_evaluate A (fn : document -> A) :
  String.eqb "page.evaluate" label = false -> keeps label (evaluate P fn).
Proof.
  intros Hne. apply keeps_bind; [now apply keeps_invoke | intros; apply keeps_ret].
Qed.

Lemma keeps_withRetryLoop A (fn : M W A) (stepName : string) (retries : nat) (delay : Z) :
  keeps label fn ->
  forall left i lastError,
    keeps label (withRetryLoop P fn stepName retries delay left i lastError).
Proof.
  intros Hfn. induction left as [|left IH]; intros i lastError; cbn [withRetryLoop].
  - apply keeps_bind; [apply keeps_logger | intros; apply keeps_throw].
  - apply keeps_tryCatch; [exact Hfn|]. intros t.
    apply keeps_bind; [|intros; apply IH].
    apply keeps_if; [|apply keeps_ret].
    apply keeps_bind; [apply keeps_messageOf|]. intros m.
    apply keeps_bind; [apply keeps_logger | intros; apply keeps_sleep].
Qed.

Lemma keeps_withRetry A (fn : M W A) (stepName : string) (retries : nat) (delay : Z) :
  keeps label fn -> keeps label (withRetry P fn stepName retries delay).
Proof. intros Hfn. now apply keeps_withRetryLoop. Qed.

Lemma keeps_safeEvaluate A (fn : document -> A) (d : A) (retries : nat) :
  String.eqb "page.evaluate" label = false ->
  keeps label (safeEvaluate P fn d retries).
Proof.
  intros Hne. unfold safeEvaluate.
  enough (H : forall left i, keeps label (safeEvaluateLoop P fn d retries left i))
    by apply H.
  induction left as [|left IH]; intros i; cbn [safeEvaluateLoop].
  - apply keeps_ret.
  - apply keeps_tryCatch; [now apply keeps_evaluate|]. intros t.
    apply keeps_bind; [apply keeps_messageOf|]. intros m.
    apply keeps_if; [|apply keeps_throw].
    apply keeps_bind; [apply keeps_logger|]. intros _.
    apply keeps_bind; [apply keeps_sleep | intros; apply IH].
Qed.

End Keeps.

(** The banner, in either wording, makes the issue script answer
    [true]. *)
Lemma signInIssueScript_banner (d : document) :
  JsStr.includes (bodyInnerText d) (JsStr.lit "We ran into an issue") = true \/
  JsStr.includes (bodyInnerText d) (JsStr.lit "please take a break") = true ->
  signInIssueScript d = true.
Proof.
  unfold signInIssueScript. intros [H|H]; rewrite H.
  - reflexivity.
  - now rewrite orb_true_r.
Qed.

(** The error text the page script returns is never empty. *)
Lemma errorTextScript_nonempty (d : document) (text : jsstring) :
  errorTextScript d = Some text -> JsStr.truthy text = true.
Proof.
  unfold errorTextScript.
  destruct (find _ (querySelectorAll d errorSelector)) as [el|] eqn:Hf; [|discriminate].
  intros H. injection H as <-. apply find_some in Hf as [_ Hlen].
  destruct (JsStr.trim (textContent el)); [discriminate | reflexivity].
Qed.

Section Run.

Variable W : Type.
Variable P : page W.
Variable S : stages W.

Lemma stagesThroughProfile_keeps (email password : jsstring) :
  keeps "enterUsername" (stagesThroughProfile P S email password).
Proof.
  unfold stagesThroughProfile.
  repeat (apply keeps_bind; [|intros]);
    first [ apply keeps_withRetry; apply keeps_invoke; reflexivity
          | apply keeps_invoke; reflexivity
          | apply keeps_logger
          | apply keeps_sleep ].
Qed.

Lemma checkForSignInIssue_keeps : keeps "enterUsername" (checkForSignInIssue P).
Proof. apply keeps_safeEvaluate. reflexivity. Qed.

(** The issue check returns what the page script finds on the document
    of an evaluation that resolves. *)
Lemma checkForSignInIssue_detects (st : state W) (d : document) (w' : W) :
  evaluateDocument P (world st) = (Resolved d, w') ->
  fst (checkForSignInIssue P st) = Return (signInIssueScript d).
Proof.
  intros Hev. unfold checkForSignInIssue, safeEvaluate.
  rewrite EvaluateFacts.safeEvaluateLoop_step, Hev. reflexivity.
Qed.

(** C6.  In every run of [register] in which the six stages up to the
    profile succeed and the issue check that follows detects the banner,
    the run ends by throwing: the error of the banner when the screenshot
    taken first succeeds, else that screenshot's.  The username stage is
    never executed: the run leaves no invocation of [enterUsername]. *)
Theorem issue_aborts_before_username (email password : jsstring) (st st1 st2 : state W) :
  stagesThroughProfile P S email password st = (Return tt, st1) ->
  checkForSignInIssue P st1 = (Return true, st2) ->
  exists t st',
    register P S email password st = (Throw t, st') /\
    attempts "enterUsername" (trace st') = attempts "enterUsername" (trace st) /\
    (fst (screenshot P "debug-signin-issue.png" (world st2)) = Resolved tt ->
     t = Error signInIssueMessage).
Proof.
  intros Hstages Hcheck.
  pose proof (stagesThroughProfile_keeps email password st) as K1.
  pose proof (checkForSignInIssue_keeps st1) as K2.
  rewrite Hstages in K1. rewrite Hcheck in K2. cbn [snd] in K1, K2.
  unfold register, tryCatch, bind at 1. rewrite Hstages.
  unfold afterProfile, bind at 1. rewrite Hcheck.
  js_run.
  destruct (screenshot P "debug-signin-issue.png" (world st2)) as [[[]|m] w3]; js_run;
    match goal with
    | |- context [screenshot P "debug-register-error.png" ?w] =>
        destruct (screenshot P "debug-register-error.png" w) as [[[]|m'] w4]
    end; js_run;
    eexists; eexists; (split; [reflexivity|]); cbn [trace];
    (split; [rewrite !RetryFacts.attempts_app; cbn; rewrite !app_nil_r; congruence|]);
    intros H; first [reflexivity | discriminate].
Qed.

(** A value [safeEvaluate] returns from the error-text script is a text
    with something in it, or [null]. *)
Lemma errorText_truthy (st st1 : state W) (text : jsstring) :
  safeEvaluate P errorTextScript None 3 st = (Return (Some text), st1) ->
  JsStr.truthy text = true.
Proof.
  intros H.
  pose proof (@EvaluateFacts.safeEvaluateLoop_outcome W P _ errorTextScript None 3 3 0 st eq_refl) as Ho.
  unfold safeEvaluate in H. rewrite H in Ho.
  destruct Ho as [retried [_ [_ [[H0 _] | [_ [_ [w [doc [_ Hv]]]]]]]]]; [discriminate|].
  symmetry in Hv. now apply errorTextScript_nonempty in Hv.
Qed.

(** The run comes back with what the completion check returns. *)
Lemma register_returns_completion (email password : jsstring)
      (st st1 st2 st3 st4 st5 : state W) (b : bool) :
  stagesThroughProfile P S email password st = (Return tt, st1) ->
  checkForSignInIssue P st1 = (Return false, st2) ->
  withRetry P (invoke "enterUsername" (enterUsername S)) "输入用户名" 3 2000 st2
    = (Return tt, st3) ->
  bind (sleep P 5000) (fun _ => saveFinalState P) st3 = (Return tt, st4) ->
  checkCompletion P st4 = (Return b, st5) ->
  register P S email password st = (Return b, st5).
Proof.
  intros H1 H2 H3 H4 H5.
  unfold register, tryCatch, bind at 1. rewrite H1.
  unfold afterProfile, bind at 1. rewrite H2.
  unfold bind at 1. rewrite H3.
  unfold bind at 1 in H4. unfold bind at 1.
  destruct (sleep P 5000 st3) as [[[]|t] st3']; [|discriminate].
  unfold bind at 1. rewrite H4. now rewrite H5.
Qed.

(** C5, as amended.  The completion check sorts the URL read after the
    username stage in this order.  (1) The URL holds the auth domain: the
    page is asked for the text of an error element; with a text the check
    returns failure and logs the text as the error; without one it returns
    failure with a warning that the run is still on the auth page; and when
    the evaluation throws, so does the check.  (2) Else the URL holds one of
    the application's domains ([sora.com], [chat.openai.com],
    [chatgpt.com]): the check returns success.  (3) Any other URL: the
    check returns failure with a warning that the state is uncertain.  A
    run of [register] that reaches the check returns what it returns. *)
Theorem checkCompletion_classes (st : state W) :
  let u := url P (world st) in
  (onAuthDomain u = true ->
   match safeEvaluate P errorTextScript None 3 (urlLogged P st) with
   | (Return (Some text), st1) =>
       checkCompletion P st =
       (Return false,
        MkState (world st1)
                (trace st1 ++ [Logged Err [Txt "注册失败，页面显示错误: "; Str text]]))
   | (Return None, st1) =>
       checkCompletion P st =
       (Return false,
        MkState (world st1)
                (trace st1 ++
                 [Logged Warn [Txt "注册可能未完成，当前仍在认证页面: "; Str u]]))
   | (Throw t, st1) => checkCompletion P st = (Throw t, st1)
   end) /\
  (onAuthDomain u = false -> onTargetDomain u = true ->
   checkCompletion P st =
   (Return true,
    MkState (world st)
            (trace (urlLogged P st) ++ [Logged Success [Txt "注册成功！已跳转到主页面"]]))) /\
  (onAuthDomain u = false -> onTargetDomain u = false ->
   checkCompletion P st =
   (Return false,
    MkState (world st)
            (trace (urlLogged P st) ++
             [Logged Warn [Txt "注册状态不确定，当前页面: "; Str u]]))) /\
  (forall email password st0 st1 st2 st3 b st',
     stagesThroughProfile P S email password st0 = (Return tt, st1) ->
     checkForSignInIssue P st1 = (Return false, st2) ->
     withRetry P (invoke "enterUsername" (enterUsername S)) "输入用户名" 3 2000 st2
       = (Return tt, st3) ->
     bind (sleep P 5000) (fun _ => saveFinalState P) st3 = (Return tt, st) ->
     checkCompletion P st = (Return b, st') ->
     register P S email password st0 = (Return b, st')).
Proof.
  intros u. subst u. unfold onAuthDomain, onTargetDomain.
  split; [|split; [|split]].
  - intros Hauth.
    pose proof (@errorText_truthy (urlLogged P st)) as Htruthy.
    destruct (safeEvaluate P errorTextScript None 3 (urlLogged P st))
      as [[[text|]|t] st1] eqn:Hev;
      unfold urlLogged in Hev; unfold checkCompletion; js_run;
      rewrite Hauth; js_run; rewrite Hev; js_run; try reflexivity.
    cbn [truthyText]. rewrite (Htruthy st1 text eq_refl). reflexivity.
  - intros Hauth Htarget. unfold checkCompletion, urlLogged. js_run.
    rewrite Hauth, Htarget. reflexivity.
  - intros Hauth Htarget. unfold checkCompletion, urlLogged. js_run.
    rewrite Hauth, Htarget. reflexivity.
  - intros. eapply register_returns_completion; eauto.
Qed.

End Run.

End RegisterFacts.

(* ------------------------------------------------------------------ *)
(** * Token harvest: the exchange *)

Module ExchangeFacts.

Import Js Browser OpenAIRegister Properties.

Section Exchange.

Variable W : Type.
Variable P : page W.
Variable JSON_parse : jsstring -> outcome Js.value.

Ltac session_case :=
  match goal with
  | |- context [match evaluateFetch ?p0 ?s0 ?w0 with _ => _ end] =>
      destruct (evaluateFetch p0 s0 w0) as [[?f|?m] ?w] eqn:?
  | |- context [match setCookie ?p0 ?s0 ?w0 with _ => _ end] =>
      destruct (setCookie p0 s0 w0) as [[[]|?m] ?w] eqn:?
  | |- context [match goto ?p0 ?s0 ?w0 with _ => _ end] =>
      destruct (goto p0 s0 w0) as [[[[|]|]|?m] ?w] eqn:?
  | |- context [match content ?p0 ?w0 with _ => _ end] =>
      destruct (content p0 w0) as [[?c|?m] ?w] eqn:?
  | |- context [match evaluateDocument ?p0 ?w0 with _ => _ end] =>
      destruct (evaluateDocument p0 w0) as [[?d|?m] ?w] eqn:?
  | |- context [match Regex.exec ?r0 ?s0 with _ => _ end] =>
      destruct (Regex.exec r0 s0) as [?jsonMatch|] eqn:?
  | |- context [match JSON_parse ?s0 with _ => _ end] =>
      destruct (JSON_parse s0) as [?data|?m] eqn:?
  | |- context [match getProp ?v0 ?k0 with _ => _ end] =>
      destruct (getProp v0 k0) as [?x|] eqn:?
  | |- context [if truthy ?v0 then _ else _] =>
      destruct (truthy v0) eqn:?
  end.

Ltac session_step :=
  cbv beta iota zeta delta
      [bind ret throw tryCatch emit logger call invoke messageOf evaluate
       readProp parseJson tokensOf fromNavigation];
  cbn [fst snd world trace].

Ltac session_run := repeat (session_step; try session_case).

(** The navigation fallback never throws anything but an [Error], and a
    token object it returns holds an access token. *)
Lemma fromNavigation_outcome (st : state W) :
  match fromNavigation P JSON_parse st with
  | (Return (Some t), _) => truthy (accessToken t) = true
  | (Return None, _) => True
  | (Throw (Error _), _) => True
  | (Throw Undefined, _) => False
  end.
Proof.
  unfold fromNavigation. session_run; auto.
Qed.


End Exchange.

End ExchangeFacts.

(* ------------------------------------------------------------------ *)
(** * Birthdays *)

Module BirthdayFacts.

Import OpenAIRegister.

Local Open Scope Z_scope.

(** Rounding to 53 bits never reaches [c * 2^53] from a product below it,
    for a factor [c] that lies strictly between two powers of two. *)
Lemma round53_below (p c L : Z) :
  1 <= L -> 2 ^ (L - 1) < c -> c <= 2 ^ L ->
  0 <= p <= (2 ^ 53 - 1) * c ->
  0 <= round53 p < c * 2 ^ 53.
Proof.
  intros HL Hlo Hhi Hp. unfold round53.
  destruct (p <? 2 ^ 53) eqn:Hsmall.
  - apply Z.ltb_lt in Hsmall. nia.
  - apply Z.ltb_ge in Hsmall.
    assert (Hpos : 0 < p) by lia.
    assert (Hlog : 53 <= Z.log2 p) by (apply Z.log2_le_pow2; lia).
    assert (Hlog' : Z.log2 p < 53 + L).
    { apply Z.log2_lt_pow2; [lia|]. rewrite Z.pow_add_r by lia. nia. }
    set (s := Z.log2 p - 52).
    assert (Hs : 1 <= s <= L) by (unfold s; lia).
    assert (H2s : 0 < 2 ^ s) by (apply Z.pow_pos_nonneg; lia).
    assert (Hhalf : 2 * 2 ^ (s - 1) = 2 ^ s).
    { replace s with (1 + (s - 1)) at 2 by lia. rewrite Z.pow_add_r by lia. reflexivity. }
    assert (HhalfL : 2 ^ (s - 1) <= 2 ^ (L - 1)) by (apply Z.pow_le_mono_r; lia).
    pose proof (Z.div_mod p (2 ^ s) ltac:(lia)) as Hdm.
    pose proof (Z.mod_pos_bound p (2 ^ s) H2s) as Hr.
    pose proof (Z.div_pos p (2 ^ s) ltac:(lia) H2s) as Hq.
    cbv zeta.
    destruct (p mod 2 ^ s <? 2 ^ (s - 1)) eqn:Hlt; [nia|].
    apply Z.ltb_ge in Hlt.
    destruct (2 ^ (s - 1) <? p mod 2 ^ s); [nia|].
    destruct (Z.even (p / 2 ^ s)); nia.
Qed.

(** [Math.floor(Math.random() * c)] lies in [0, c - 1]. *)
Lemma floorTimes_range (u : unitDouble) (c L : Z) :
  1 <= L -> 2 ^ (L - 1) < c -> c <= 2 ^ L ->
  isUnitDouble u ->
  0 <= floorTimes u c <= c - 1.
Proof.
  intros HL Hlo Hhi [Hm Hs]. unfold floorTimes.
  assert (Hc : 0 < c) by (pose proof (Z.pow_pos_nonneg 2 (L - 1)); lia).
  assert (Hround : 0 <= round53 (mant u * c) < c * 2 ^ 53)
    by (apply round53_below with (L := L); auto; nia).
  assert (Hpow : 2 ^ 53 <= 2 ^ (53 + scale u)) by (apply Z.pow_le_mono_r; lia).
  assert (Hpos : 0 < 2 ^ (53 + scale u)) by lia.
  split.
  - apply Z.div_pos; lia.
  - enough (round53 (mant u * c) / 2 ^ (53 + scale u) < c) by lia.
    apply Z.div_lt_upper_bound; nia.
Qed.

(** The draws of a birthday: the year lies 18 to 39 years before the
    current one, the month in 1..12, the day in 1..28. *)
Lemma randomBirthday_ranges (today : date) (r1 r2 r3 : unitDouble) :
  isUnitDouble r1 -> isUnitDouble r2 -> isUnitDouble r3 ->
  let b := randomBirthday today r1 r2 r3 in
  18 <= year today - year b <= 39 /\
  1 <= month b <= 12 /\
  1 <= day b <= 28.
Proof.
  intros H1 H2 H3. cbn.
  pose proof (@floorTimes_range r1 22 5 ltac:(lia) ltac:(lia) ltac:(lia) H1).
  pose proof (@floorTimes_range r2 12 4 ltac:(lia) ltac:(lia) ltac:(lia) H2).
  pose proof (@floorTimes_range r3 28 5 ltac:(lia) ltac:(lia) ltac:(lia) H3).
  lia.
Qed.

(** X16.  The age of the person a birthday stands for, on the day the
    birthday is generated and with birthdays counted by the full date, for
    every value [Math.random()] can return: at least 17 and at most 39.
    Nobody generated is 40, and nobody is younger than 17. *)
Theorem randomBirthday_age (today : date) (r1 r2 r3 : unitDouble) :
  isUnitDouble r1 -> isUnitDouble r2 -> isUnitDouble r3 ->
  17 <= ageOn today (randomBirthday today r1 r2 r3) <= 39.
Proof.
  intros H1 H2 H3.
  pose proof (@floorTimes_range r1 22 5 ltac:(lia) ltac:(lia) ltac:(lia) H1) as Hy.
  unfold ageOn, randomBirthday. cbn [year month day]. destruct (_ || _); lia.
Qed.

(** C1.  A run of [generateBirthday] on 2 November 2026 whose three draws
    are 0.03125, 0.9375 and 0.875: the birthday is 25 December 2008, that
    of a person who is 17 on the day of generation. *)
Theorem generateBirthday_underage :
  let today := MkDate 2026 11 2 in
  let r1 := MkUnit (2 ^ 48) 0 in
  let r2 := MkUnit (15 * 2 ^ 49) 0 in
  let r3 := MkUnit (7 * 2 ^ 50) 0 in
  generateBirthday today r1 r2 r3 false = JsStr.lit "12/25/2008" /\
  randomBirthday today r1 r2 r3 = MkDate 2008 12 25 /\
  ageOn today (randomBirthday today r1 r2 r3) = 17.
Proof. vm_compute. repeat split; reflexivity. Qed.

End BirthdayFacts.
(* ------------------------------------------------------------------ *)
(** * What a method can throw *)

Module ThrowFacts.

Import Js Browser Properties.

Section Throws.

Variable W : Type.
Variable P : page W.

Lemma raisesErrors_ret A (a : A) : raisesErrors (ret (W := W) a).
Proof. intros st t st' H. discriminate. Qed.

Lemma raisesErrors_throw A (message : jsstring) :
  raisesErrors (throw (W := W) (A := A) (Error message)).
Proof. intros st t st' H. injection H as <- _. now exists message. Qed.

Lemma raisesErrors_logger (l : level) (msg : list piece) :
  raisesErrors (logger (W := W) l msg).
Proof. intros st t st' H. discriminate. Qed.

Lemma raisesErrors_sleep (ms : Z) : raisesErrors (sleep P ms).
Proof. intros st t st' H. discriminate. Qed.

Lemma raisesErrors_now : raisesErrors (now P).
Proof. intros st t st' H. discriminate. Qed.

Lemma raisesErrors_call A (op : W -> outcome A * W) : raisesErrors (call op).
Proof.
  intros st t st'. unfold call.
  destruct (op (world st)) as [[a|m] w']; intros H; inversion H. now exists m.
Qed.

Lemma raisesErrors_invoke A (label : string) (op : W -> outcome A * W) :
  raisesErrors (invoke label op).
Proof.
  intros st t st'. unfold invoke.
  destruct (op (world st)) as [[a|m] w']; intros H; inversion H. now exists m.
Qed.

Lemma raisesErrors_bind A B (m : M W A) (k : A -> M W B) :
  raisesErrors m -> (forall a, raisesErrors (k a)) -> raisesErrors (bind m k).
Proof.
  intros Hm Hk st t st'. unfold bind.
  destruct (m st) as [[a|t0] st0] eqn:E.
  - apply Hk.
  - intros H. injection H as <- <-. eapply Hm; eauto.
Qed.

Lemma raisesErrors_tryCatch A (body : M W A) (handler : thrown -> M W A) :
  (forall t, raisesErrors (handler t)) -> raisesErrors (tryCatch body handler).
Proof.
  intros Hh st t st'. unfold tryCatch.
  destruct (body st) as [[a|t0] st0]; [discriminate|]. apply Hh.
Qed.

Lemma raisesErrors_if A (c : bool) (m1 m2 : M W A) :
  raisesErrors m1 -> raisesErrors m2 -> raisesErrors (if c then m1 else m2).
Proof. now destruct c. Qed.

Lemma raisesErrors_evaluate A (fn : document -> A) : raisesErrors (evaluate P fn).
Proof.
  apply raisesErrors_bind; [apply raisesErrors_invoke | intros; apply raisesErrors_ret].
Qed.

End Throws.

End ThrowFacts.

Create HintDb throws.

#[export] Hint Resolve ThrowFacts.raisesErrors_ret ThrowFacts.raisesErrors_throw
  ThrowFacts.raisesErrors_logger ThrowFacts.raisesErrors_sleep
  ThrowFacts.raisesErrors_now ThrowFacts.raisesErrors_call
  ThrowFacts.raisesErrors_invoke ThrowFacts.raisesErrors_evaluate : throws.

(** Settles [raisesErrors] for a method put together from the
    combinators. *)
Ltac throws :=
  repeat first
    [ apply ThrowFacts.raisesErrors_bind; [|intros ?]
    | apply ThrowFacts.raisesErrors_tryCatch; intros ?
    | apply ThrowFacts.raisesErrors_if
    | match goal with |- Properties.raisesErrors (match ?x with _ => _ end) => destruct x end
    | solve [auto with throws] ].

(* ------------------------------------------------------------------ *)
(** * The pauses of the retry wrapper *)

Module RetryPauseFacts.

Import Js Browser OpenAIRegister Properties.

Section Pauses.

Variable W : Type.
Variable P : page W.
Variable A : Type.
Variable op : W -> outcome A * W.
Variable label : string.
Variable stepName : string.
Variable retries : nat.
Variable delay : Z.

Lemma withRetryLoop_pauses :
  forall left i lastError st,
    (left + i = retries)%nat ->
    let (r, st') :=
      withRetryLoop P (invoke label op) stepName retries delay left i lastError st in
    exists made : nat,
      List.length (attempts label (trace st')) =
        (List.length (attempts label (trace st)) + made)%nat /\
      (made <= left)%nat /\
      ((1 <= left)%nat -> (1 <= made)%nat) /\
      (isThrow r = true -> made = left) /\
      pauses (trace st') = pauses (trace st) ++ List.repeat delay (pred made).
Proof.
  induction left as [|left IH]; intros i lastError st Hinv.
  - cbn. exists 0%nat. rewrite RetryFacts.attempts_app, RetryFacts.pauses_app. cbn.
    rewrite !app_nil_r. repeat split; auto; lia.
  - cbn [withRetryLoop]. unfold tryCatch at 1. unfold invoke at 1.
    destruct (op (world st)) as [[a|msg] w'] eqn:Hop.
    + exists 1%nat. cbn. rewrite RetryFacts.attempts_app, RetryFacts.pauses_app. cbn.
      rewrite String.eqb_refl, length_app, !app_nil_r. cbn.
      repeat split; auto; try lia; try discriminate.
    + unfold bind at 1.
      destruct (Z.of_nat i <? Z.of_nat retries - 1)%Z eqn:Hlast.
      * apply Z.ltb_lt in Hlast. cbn.
        match goal with
        | |- context [withRetryLoop P _ _ _ _ left (S i) ?e ?s] =>
            specialize (IH (S i) e s ltac:(lia));
            destruct (withRetryLoop P (invoke label op) stepName retries delay left (S i) e s)
              as [r st'];
            cbn [trace] in IH
        end.
        destruct IH as [made [Hat [Hle [Hpos [Hthrow Hp]]]]].
        exists (S made).
        rewrite !RetryFacts.attempts_app, !RetryFacts.pauses_app in *. cbn in Hat, Hp.
        rewrite String.eqb_refl in Hat. rewrite !app_nil_r in *.
        rewrite !length_app in Hat. cbn in Hat.
        specialize (Hpos ltac:(lia)).
        repeat split; try lia.
        -- intros Ht. specialize (Hthrow Ht). lia.
        -- rewrite Hp, <- app_assoc. f_equal.
           destruct made as [|made]; [lia|]. reflexivity.
      * apply Z.ltb_ge in Hlast. assert (left = 0%nat) by lia. subst left. cbn.
        exists 1%nat.
        rewrite !RetryFacts.attempts_app, !RetryFacts.pauses_app. cbn.
        rewrite String.eqb_refl, !app_nil_r, !length_app. cbn.
        repeat split; auto; lia.
Qed.

(** X2.  Every run of [withRetry] on an operation: the wrapper sleeps
    [delay] between two attempts and at no other time, so the pauses it
    adds number one less than the invocations it makes (none when it makes
    none), each of [delay] milliseconds; it makes at most [retries]
    invocations, and exactly [retries] when it gives up. *)
Theorem withRetry_pauses (st : state W) :
  let (r, st') := withRetry P (invoke label op) stepName retries delay st in
  exists made : nat,
    List.length (attempts label (trace st')) =
      (List.length (attempts label (trace st)) + made)%nat /\
    (made <= retries)%nat /\
    (isThrow r = true -> made = retries) /\
    pauses (trace st') = pauses (trace st) ++ List.repeat delay (pred made).
Proof.
  pose proof (@withRetryLoop_pauses retries 0%nat Undefined st ltac:(lia)) as H.
  unfold withRetry.
  destruct (withRetryLoop P (invoke label op) stepName retries delay retries 0 Undefined st)
    as [r st'].
  destruct H as [made [H1 [H2 [_ [H3 H4]]]]]. exists made. auto.
Qed.

End Pauses.

End RetryPauseFacts.
(* ------------------------------------------------------------------ *)
(** * Waiting for elements, the continue button, the password stage *)

Module ElementFacts.

Import Js Browser OpenAIRegister Properties.

(** Settles [keeps] for a method put together from the combinators. *)
Ltac keeps :=
  repeat first
    [ apply RegisterFacts.keeps_bind; [|intros ?]
    | apply RegisterFacts.keeps_tryCatch; [|intros ?]
    | apply RegisterFacts.keeps_if
    | apply RegisterFacts.keeps_ret
    | apply RegisterFacts.keeps_throw
    | apply RegisterFacts.keeps_logger
    | apply RegisterFacts.keeps_sleep
    | apply RegisterFacts.keeps_call
    | apply RegisterFacts.keeps_messageOf
    | apply RegisterFacts.keeps_invoke; reflexivity
    | match goal with |- Properties.keeps _ (match ?x with _ => _ end) => destruct x end ].

Section Elements.

Variable W : Type.
Variable H : Type.
Variable P : page W.
Variable E : elements W H.
Variable toLowerCase : jsstring -> jsstring.

(** *** [waitForElement] *)

Section Wait.

Variable selector : jsstring.
Variable timeout : Z.
Variable retries : nat.

(** One round of the loop, by what the two driver calls come to. *)
Lemma waitForElementLoop_step (left i : nat) (st : state W) :
  waitForElementLoop P E selector timeout retries (S left) i st =
  match waitForSelector E selector timeout retries (world st) with
  | (Resolved _, w1) =>
      match query E selector w1 with
      | (Resolved handle, w2) =>
          (Return handle,
           MkState w2 ((trace st ++ [Invoked "page.waitForSelector" None]) ++
                       [Invoked "page.$" None]))
      | (Rejected msg, w2) =>
          afterFailedWait P E selector timeout retries left i
            (MkState w2 ((trace st ++ [Invoked "page.waitForSelector" None]) ++
                         [Invoked "page.$" (Some msg)]))
      end
  | (Rejected msg, w1) =>
      afterFailedWait P E selector timeout retries left i
        (MkState w1 (trace st ++ [Invoked "page.waitForSelector" (Some msg)]))
  end.
Proof.
  cbn [waitForElementLoop]. unfold afterFailedWait.
  unfold bind at 1, tryCatch at 1, bind at 1, invoke at 1.
  destruct (waitForSelector E selector timeout retries (world st)) as [[[]|msg] w1].
  - unfold bind at 1, invoke at 1. cbn [world trace].
    destruct (query E selector w1) as [[handle|msg] w2]; [reflexivity|].
    unfold bind at 1. destruct (Z.of_nat i <? Z.of_nat retries - 1)%Z; reflexivity.
  - unfold bind at 1. destruct (Z.of_nat i <? Z.of_nat retries - 1)%Z; reflexivity.
Qed.

Lemma waitForElementLoop_outcome :
  forall left i st,
    (left + i = retries)%nat ->
    exists found st' waits,
      waitForElementLoop P E selector timeout retries left i st = (Return found, st') /\
      List.length (attempts "page.waitForSelector" (trace st')) =
        (List.length (attempts "page.waitForSelector" (trace st)) + waits)%nat /\
      (waits <= left)%nat /\
      ((1 <= left)%nat -> (1 <= waits)%nat) /\
      pauses (trace st') = pauses (trace st) ++ List.repeat 2000%Z (pred waits) /\
      ((exists w, query E selector w = (Resolved found, world st')) \/
       (found = None /\ waits = left)).
Proof.
  induction left as [|left IH]; intros i st Hinv.
  - exists None, st, 0%nat. cbn. rewrite app_nil_r. repeat split; auto; lia.
  - rewrite waitForElementLoop_step.
    assert (Hnext : forall st1,
               List.length (attempts "page.waitForSelector" (trace st1)) =
                 S (List.length (attempts "page.waitForSelector" (trace st))) ->
               pauses (trace st1) = pauses (trace st) ->
               exists found st' waits,
                 afterFailedWait P E selector timeout retries left i st1 = (Return found, st') /\
                 List.length (attempts "page.waitForSelector" (trace st')) =
                   (List.length (attempts "page.waitForSelector" (trace st)) + waits)%nat /\
                 (waits <= S left)%nat /\
                 ((1 <= S left)%nat -> (1 <= waits)%nat) /\
                 pauses (trace st') = pauses (trace st) ++ List.repeat 2000%Z (pred waits) /\
                 ((exists w, query E selector w = (Resolved found, world st')) \/
                  (found = None /\ waits = S left))).
    { intros st1 Hat Hp. unfold afterFailedWait.
      destruct (Z.of_nat i <? Z.of_nat retries - 1)%Z eqn:Hlast.
      - apply Z.ltb_lt in Hlast.
        match goal with
        | |- context [waitForElementLoop P E selector timeout retries left (S i) ?s] =>
            destruct (IH (S i) s ltac:(lia))
              as [found [st' [waits [Hrun [Hw [Hle [Hpos [Hpa Hfrom]]]]]]]]
        end.
        exists found, st', (S waits). specialize (Hpos ltac:(lia)).
        cbn [trace] in Hw, Hpa.
        rewrite !RetryFacts.attempts_app, !RetryFacts.pauses_app in *.
        cbn in Hw, Hpa. rewrite !app_nil_r in *.
        split; [exact Hrun|]. split; [lia|]. split; [lia|]. split; [lia|].
        split.
        + rewrite Hpa, Hp, <- app_assoc. f_equal.
          destruct waits; [lia|]. reflexivity.
        + destruct Hfrom as [Hq|[Hn Hall]]; [now left | right; split; [exact Hn | lia]].
      - apply Z.ltb_ge in Hlast. assert (left = 0%nat) by lia. subst left. cbn.
        exists None, st1, 1%nat. rewrite app_nil_r.
        repeat split; auto; try lia. }
    destruct (waitForSelector E selector timeout retries (world st)) as [[[]|msg] w1] eqn:Hwait.
    + destruct (query E selector w1) as [[handle|msg] w2] eqn:Hq.
      * exists handle, (MkState w2 ((trace st ++ [Invoked "page.waitForSelector" None]) ++
                                    [Invoked "page.$" None])), 1%nat.
        cbn. rewrite !RetryFacts.attempts_app, !RetryFacts.pauses_app. cbn.
        rewrite !app_nil_r, length_app. cbn.
        repeat split; auto; try lia. left. now exists w1.
      * apply Hnext; cbn [trace];
          rewrite ?RetryFacts.attempts_app, ?RetryFacts.pauses_app; cbn;
          rewrite ?app_nil_r, ?length_app; cbn; lia || reflexivity.
    + apply Hnext; cbn [trace];
        rewrite ?RetryFacts.attempts_app, ?RetryFacts.pauses_app; cbn;
        rewrite ?app_nil_r, ?length_app; cbn; lia || reflexivity.
Qed.

(** X3.  [waitForElement] never throws, whatever the driver does.  It
    returns what [page.$] answered after a wait that succeeded, which may
    be [null], or [null] once [retries] rounds have failed.  It waits for
    the selector at most [retries] times, and it sleeps two seconds between
    two waits and at no other time: a run that uses up its three tries has
    slept twice. *)
Theorem waitForElement_outcome (st : state W) :
  exists found st' waits,
    waitForElement P E selector timeout retries st = (Return found, st') /\
    List.length (attempts "page.waitForSelector" (trace st')) =
      (List.length (attempts "page.waitForSelector" (trace st)) + waits)%nat /\
    (waits <= retries)%nat /\
    pauses (trace st') = pauses (trace st) ++ List.repeat 2000%Z (pred waits) /\
    ((exists w, query E selector w = (Resolved found, world st')) \/
     (found = None /\ waits = retries)).
Proof.
  destruct (@waitForElementLoop_outcome retries 0%nat st ltac:(lia))
    as [found [st' [waits [Hrun [Hw [Hle [_ [Hp Hfrom]]]]]]]].
  exists found, st', waits. auto.
Qed.

Lemma waitForElement_returns : neverThrows (waitForElement P E selector timeout retries).
Proof.
  intros st.
  destruct (@waitForElementLoop_outcome retries 0%nat st ltac:(lia))
    as [found [st' [waits [Hrun _]]]].
  now exists found, st'.
Qed.

Lemma waitForElement_keeps (label : string) :
  String.eqb "page.waitForSelector" label = false ->
  String.eqb "page.$" label = false ->
  keeps label (waitForElement P E selector timeout retries).
Proof.
  intros H1 H2. unfold waitForElement.
  enough (Hloop : forall left i,
             keeps label (waitForElementLoop P E selector timeout retries left i))
    by apply Hloop.
  induction left as [|left IH]; intros i; cbn [waitForElementLoop].
  - apply RegisterFacts.keeps_ret.
  - apply RegisterFacts.keeps_bind.
    + apply RegisterFacts.keeps_tryCatch.
      * apply RegisterFacts.keeps_bind; [now apply RegisterFacts.keeps_invoke|]. intros _.
        apply RegisterFacts.keeps_bind; [now apply RegisterFacts.keeps_invoke|]. intros h.
        apply RegisterFacts.keeps_ret.
      * intros t. keeps.
    + intros [h|]; [apply RegisterFacts.keeps_ret | apply IH].
Qed.

End Wait.

(** *** [clickContinue] *)

(** Counts the invocations of a label over the events a method appends. *)
Ltac count_attempts :=
  cbn [trace world fst snd] in *;
  rewrite ?RetryFacts.attempts_app, ?length_app in *;
  cbn [attempts String.eqb Ascii.eqb Bool.eqb List.length app] in *;
  rewrite ?app_nil_r in *; cbn [List.length] in *.

Lemma clickFirstContinue_outcome (buttons : list H) :
  forall st,
    let (r, st') := clickFirstContinue E toLowerCase buttons st in
    exists made : nat,
      List.length (attempts "handle.click" (trace st')) =
        (List.length (attempts "handle.click" (trace st)) + made)%nat /\
      match r with
      | Return clicked => made = if clicked then 1%nat else 0%nat
      | Throw t => (made <= 1)%nat /\ exists message, t = Error message
      end.
Proof.
  induction buttons as [|btn rest IH]; intros st.
  - cbn. exists 0%nat. split; [lia | reflexivity].
  - cbn [clickFirstContinue]. unfold bind at 1, invoke at 1.
    destruct (textOf E btn (world st)) as [[content|msg] w1].
    + destruct (isContinueText (toLowerCase (JsStr.trim content))).
      * unfold bind at 1, invoke at 1. cbn [world trace].
        destruct (click E btn 1 w1) as [[[]|msg] w2].
        -- cbn. exists 1%nat. count_attempts. split; [lia | reflexivity].
        -- exists 1%nat. count_attempts. split; [lia|]. split; [lia | now exists msg].
      * specialize (IH (MkState w1 (trace st ++ [Invoked "handle.evaluate" None]))).
        destruct (clickFirstContinue E toLowerCase rest _) as [r st'].
        destruct IH as [made [Hat Hr]]. exists made. count_attempts. split; [lia | exact Hr].
    + exists 0%nat. count_attempts. split; [lia|]. split; [lia | now exists msg].
Qed.

Lemma clickContinue_outcome (st : state W) :
  exists st' clicks,
    clickContinue P E toLowerCase st = (Return tt, st') /\
    List.length (attempts "handle.click" (trace st')) =
      (List.length (attempts "handle.click" (trace st)) + clicks)%nat /\
    (clicks <= 1)%nat.
Proof.
  unfold clickContinue. unfold bind at 1, logger at 1, emit at 1. cbn [world trace].
  unfold tryCatch at 1, bind at 1, invoke at 1. cbn [world trace].
  destruct (waitForSelector E (JsStr.lit "button") 10000 1 (world st)) as [[[]|msg] w1];
    [|cbn; eexists; exists 0%nat; split; [reflexivity|]; count_attempts; lia].
  unfold bind at 1, call at 1. cbn [world trace].
  destruct (queryAll E (JsStr.lit "button") w1) as [[buttons|msg] w2];
    [|cbn; eexists; exists 0%nat; split; [reflexivity|]; count_attempts; lia].
  unfold bind at 1.
  match goal with
  | |- context [clickFirstContinue E toLowerCase buttons ?s] =>
      pose proof (clickFirstContinue_outcome buttons s) as Hloop;
      destruct (clickFirstContinue E toLowerCase buttons s) as [[[|]|t] st1]
  end; destruct Hloop as [made [Hat Hr]].
  - cbn. eexists; exists 1%nat; split; [reflexivity|]. count_attempts. lia.
  - unfold bind at 1, bind at 1, invoke at 1.
    destruct (query E (quoted "button[type='submit']") (world st1)) as [[[handle|]|msg] w3].
    + unfold bind at 1, invoke at 1. cbn [world trace].
      destruct (click E handle 1 w3) as [[[]|msg] w4]; cbn;
        (eexists; exists 1%nat; split; [reflexivity|]; count_attempts; lia).
    + cbn. eexists; exists 0%nat; split; [reflexivity|]. count_attempts. lia.
    + cbn. eexists; exists 0%nat; split; [reflexivity|]. count_attempts. lia.
  - destruct Hr as [Hle [message ->]]. cbn.
    eexists; exists made; split; [reflexivity|]. count_attempts. lia.
Qed.

(** X4.  [clickContinue] never throws, whatever the driver does: a
    failure to find or to click a button is logged as a warning and goes
    no further, so a caller cannot tell it from a click.  In one run it
    clicks at most one element. *)
Theorem clickContinue_never_throws (st : state W) :
  exists st' clicks,
    clickContinue P E toLowerCase st = (Return tt, st') /\
    List.length (attempts "handle.click" (trace st')) =
      (List.length (attempts "handle.click" (trace st)) + clicks)%nat /\
    (clicks <= 1)%nat.
Proof. exact (clickContinue_outcome st). Qed.

Lemma clickContinue_returns : neverThrows (clickContinue P E toLowerCase).
Proof.
  intros st. destruct (clickContinue_outcome st) as [st' [clicks [Hrun _]]].
  now exists tt, st'.
Qed.

Lemma clickFirstContinue_keeps (label : string) (buttons : list H) :
  String.eqb "handle.evaluate" label = false ->
  String.eqb "handle.click" label = false ->
  keeps label (clickFirstContinue E toLowerCase buttons).
Proof.
  intros H1 H2. induction buttons as [|btn rest IH]; cbn [clickFirstContinue].
  - apply RegisterFacts.keeps_ret.
  - apply RegisterFacts.keeps_bind; [now apply RegisterFacts.keeps_invoke|]. intros content.
    apply RegisterFacts.keeps_if; [|exact IH].
    apply RegisterFacts.keeps_bind; [now apply RegisterFacts.keeps_invoke|]. intros _.
    keeps.
Qed.

Lemma clickContinue_keeps (label : string) :
  String.eqb "page.waitForSelector" label = false ->
  String.eqb "page.$" label = false ->
  String.eqb "handle.evaluate" label = false ->
  String.eqb "handle.click" label = false ->
  keeps label (clickContinue P E toLowerCase).
Proof.
  intros H1 H2 H3 H4. unfold clickContinue.
  apply RegisterFacts.keeps_bind; [apply RegisterFacts.keeps_logger|]. intros _.
  apply RegisterFacts.keeps_tryCatch; [|intros t; keeps].
  apply RegisterFacts.keeps_bind; [now apply RegisterFacts.keeps_invoke|]. intros _.
  apply RegisterFacts.keeps_bind; [apply RegisterFacts.keeps_call|]. intros buttons.
  apply RegisterFacts.keeps_bind; [now apply clickFirstContinue_keeps|]. intros clicked.
  apply RegisterFacts.keeps_bind.
  - destruct clicked; [apply RegisterFacts.keeps_ret|].
    apply RegisterFacts.keeps_bind; [now apply RegisterFacts.keeps_invoke|].
    intros [handle|]; [|apply RegisterFacts.keeps_ret].
    apply RegisterFacts.keeps_bind; [now apply RegisterFacts.keeps_invoke|]. intros _. keeps.
  - intros clicked'. keeps.
Qed.

(** *** [enterPassword] *)

(** X5.  [enterPassword] returns normally exactly when it has typed the
    password: a run that returns has made one [type] call, which resolved,
    and a run that throws has made none or one that was rejected, and what
    it throws is an [Error].  The continue button has no say in this: the
    stage returns once the password is typed, clicked or not. *)
Theorem enterPassword_returns_iff_typed (password : jsstring) (st : state W) :
  let (r, st') := Handlers.enterPassword P E toLowerCase password st in
  exists added : list (option jsstring),
    attempts "handle.type" (trace st') = attempts "handle.type" (trace st) ++ added /\
    match r with
    | Return _ => added = [None]
    | Throw t =>
        (exists message, t = Error message) /\
        (added = [] \/ exists message, added = [Some message])
    end.
Proof.
  unfold Handlers.enterPassword. unfold bind at 1, logger at 1, emit at 1. cbn [world trace].
  set (st0 := MkState (world st) (trace st ++ [Logged (Step 5) [Txt "正在输入密码..."]])).
  assert (H0 : attempts "handle.type" (trace st0) = attempts "handle.type" (trace st)).
  { unfold st0. cbn. rewrite RetryFacts.attempts_app. cbn. apply app_nil_r. }
  assert (Hfail : forall (message : jsstring) (st2 : state W) (added : list (option jsstring)),
             attempts "handle.type" (trace st2) = attempts "handle.type" (trace st) ++ added ->
             (added = [] \/ exists m, added = [Some m]) ->
             let (r, st') :=
               bind (call (screenshot P "debug-password-input.png"))
                    (fun _ => throw (A := unit) (Error message)) st2 in
             exists added : list (option jsstring),
               attempts "handle.type" (trace st') =
                 attempts "handle.type" (trace st) ++ added /\
               match r with
               | Return _ => added = [None]
               | Throw t =>
                   (exists message, t = Error message) /\
                   (added = [] \/ exists message, added = [Some message])
               end).
  { intros message st2 added Hat Hadded. unfold bind, call.
    destruct (screenshot P "debug-password-input.png" (world st2)) as [[[]|m] w'];
      cbn; exists added; (split; [exact Hat|]); (split; [eauto | exact Hadded]). }
  unfold tryCatch at 1, bind at 1.
  destruct (waitForElement_returns (quoted "input[type='password']") 15000 3 st0)
    as [found [st1 Hwait]].
  pose proof (@waitForElement_keeps (quoted "input[type='password']") 15000 3
                "handle.type" eq_refl eq_refl st0) as Hk1.
  rewrite Hwait in *. cbn [snd] in Hk1.
  destruct found as [handle|].
  - unfold bind at 1, invoke at 1.
    destruct (click E handle 1 (world st1)) as [[[]|msg] w2].
    + unfold bind at 1, invoke at 1. cbn [world trace].
      destruct (typeInto E handle password 30 w2) as [[[]|msg] w3].
      * unfold bind at 1, logger at 1, emit at 1. cbn [world trace].
        match goal with
        | |- context [clickContinue P E toLowerCase ?s] =>
            destruct (clickContinue_returns s) as [[] [st' Hrun]];
            pose proof (@clickContinue_keeps "handle.type" eq_refl eq_refl eq_refl eq_refl s)
              as Hk2;
            rewrite Hrun in *; cbn [snd] in Hk2
        end.
        exists [None]. split; [|reflexivity].
        rewrite Hk2. count_attempts. now rewrite Hk1, H0.
      * apply Hfail with (added := [Some msg]); [|right; now exists msg].
        count_attempts. now rewrite Hk1, H0.
    + apply Hfail with (added := []); [|now left].
      count_attempts. now rewrite Hk1, H0.
  - apply Hfail with (added := []); [|now left].
    count_attempts. now rewrite Hk1, H0.
Qed.

End Elements.

End ElementFacts.
(* ------------------------------------------------------------------ *)
(** * Waiting for the verification mail *)

Module InboxFacts.

Import Js Browser TempMailService Properties.

Local Open Scope Z_scope.

Section Inbox.

Variable W : Type.
Variable P : page W.
Variable I : inbox W.
Variable toLowerCase : jsstring -> jsstring.

Hypothesis clock : steadyClock P I.

Section Steps.

Variable t0 : Z.

Lemma endsLater_bind A B (g1 : A -> state W -> Prop) (g2 : B -> state W -> Prop)
      (m : M W A) (k : A -> M W B) (st : state W) :
  endsLater P g1 t0 (m st) ->
  (forall a st1, g1 a st1 -> t0 <= dateNow P (world st1) -> endsLater P g2 t0 (k a st1)) ->
  endsLater P g2 t0 (bind m k st).
Proof.
  unfold bind. destruct (m st) as [[a|t] st1]; intros [Ht Hr] Hk.
  - now apply Hk.
  - split; assumption.
Qed.

Lemma endsLater_sleep (ms : Z) (st : state W) :
  0 <= ms -> t0 <= dateNow P (world st) ->
  endsLater P (fun _ st' => dateNow P (world st) + ms <= dateNow P (world st')) t0
            (sleep P ms st).
Proof.
  intros Hms Ht. destruct clock as [_ [_ [_ [_ Hadv]]]].
  pose proof (Hadv ms (world st) Hms). cbn. split; lia.
Qed.

Lemma endsLater_logger (l : level) (msg : list piece) (st : state W) :
  t0 <= dateNow P (world st) ->
  endsLater P (fun _ st' => world st' = world st) t0 (logger l msg st).
Proof. intros Ht. cbn. auto. Qed.

Lemma endsLater_screenshot (name : string) (st : state W) :
  t0 <= dateNow P (world st) ->
  endsLater P (fun _ _ => True) t0 (call (screenshot P name) st).
Proof.
  intros Ht. destruct clock as [_ [Hshot _]].
  pose proof (Hshot name (world st)) as H. unfold call.
  destruct (screenshot P name (world st)) as [[[]|m] w']; cbn in *;
    (split; [lia|]); eauto.
Qed.

Lemma endsLater_openMail (st : state W) :
  t0 <= dateNow P (world st) ->
  endsLater P (fun _ _ => True) t0 (call (evaluateOpenMail I) st).
Proof.
  intros Ht. destruct clock as [_ [_ [Hopen _]]].
  pose proof (Hopen (world st)) as H. unfold call.
  destruct (evaluateOpenMail I (world st)) as [[[]|m] w']; cbn in *;
    (split; [lia|]); eauto.
Qed.

Lemma endsLater_evaluate A (fn : document -> A) (st : state W) :
  t0 <= dateNow P (world st) ->
  endsLater P (fun a st' =>
                 exists w d, evaluateDocument P w = (Resolved d, world st') /\ a = fn d)
            t0 (evaluate P fn st).
Proof.
  intros Ht. destruct clock as [Hev _].
  pose proof (Hev (world st)) as H. unfold evaluate, bind, invoke.
  destruct (evaluateDocument P (world st)) as [[d|m] w'] eqn:E; cbn in *;
    (split; [lia|]); eauto.
Qed.

(** The extraction hands back six digits or nothing. *)
Lemma tryExtract_ends (st : state W) :
  t0 <= dateNow P (world st) ->
  endsLater P (codeReadAt P) t0 (tryExtract P st).
Proof.
  intros Ht. unfold tryExtract, extractVerificationCode.
  eapply endsLater_bind; [now apply endsLater_evaluate|].
  intros v st1 [w [d [Hev ->]]] Ht1.
  destruct (TempMailFacts.firstCode_six_digits (bodyInnerText d)
              TempMailFacts.codePatterns_shape) as [Hnull|[code [Hcode Hsix]]];
    unfold extractVerificationCodeScript; [rewrite Hnull | rewrite Hcode].
  - cbn. auto.
  - destruct (truthy (VStr code)); cbn; [|auto].
    split; [exact Ht1|]. exists code. split; [reflexivity|]. split; [exact Hsix|].
    exists w, d. split; [exact Hev | exact Hcode].
Qed.

(** A round never throws; what it hands back is six digits read off the
    page, and it takes three seconds at least. *)
Lemma checkInbox_ends (startTime : Z) (st : state W) :
  t0 <= dateNow P (world st) ->
  exists found st',
    checkInbox P I toLowerCase startTime st = (Return found, st') /\
    t0 <= dateNow P (world st') /\
    codeReadAt P found st'.
Proof.
  intros Ht. unfold checkInbox.
  match goal with
  | |- context [tryCatch ?b _ st] =>
      assert (Hbody : endsLater P (codeReadAt P) t0 (b st)); [|destruct (b st) as [[found|t] st1] eqn:Hb]
  end.
  - eapply endsLater_bind; [apply endsLater_sleep; [lia | exact Ht]|].
    intros _ st1 _ Ht1.
    eapply endsLater_bind; [now apply endsLater_screenshot|].
    intros _ st2 _ Ht2.
    eapply endsLater_bind; [now apply endsLater_evaluate|].
    intros info st3 _ Ht3.
    eapply endsLater_bind; [now apply endsLater_logger|].
    intros _ st4 _ Ht4.
    eapply endsLater_bind with (g1 := codeReadAt P).
    + destruct ((0 <? mailCount info) || hasOpenAI info); [|cbn; auto].
      eapply endsLater_bind; [now apply endsLater_logger|].
      intros _ st5 _ Ht5.
      eapply endsLater_bind; [now apply endsLater_openMail|].
      intros _ st6 _ Ht6.
      eapply endsLater_bind; [apply endsLater_sleep; [lia | exact Ht6]|].
      intros _ st7 _ Ht7.
      now apply tryExtract_ends.
    + intros [v|] st5 Hgood Ht5; [cbn; auto|].
      eapply endsLater_bind; [now apply tryExtract_ends|].
      intros [v|] st6 Hgood6 Ht6; cbn; auto.
  - unfold tryCatch. rewrite Hb. destruct Hbody as [Ht1 Hgood].
    exists found, st1. auto.
  - unfold tryCatch. rewrite Hb. destruct Hbody as [Ht1 [message ->]].
    cbn. eexists None, _. split; [reflexivity|]. cbn. auto.
Qed.

End Steps.

(** *** The loop *)

Variable timeout : Z.
Variable startTime : Z.

(** One round of the loop. *)
Lemma waitForVerificationCodeLoop_step (fuel : nat) (st : state W) :
  waitForVerificationCodeLoop P I toLowerCase (S fuel) timeout startTime st =
  if dateNow P (world st) - startTime <? timeout
  then
    match checkInbox P I toLowerCase startTime st with
    | (Return (Some verificationCode), st1) => (Return (Some verificationCode), st1)
    | (Return None, st1) =>
        waitForVerificationCodeLoop P I toLowerCase fuel timeout startTime
          (MkState (afterTimeout P 5000 (world st1)) (trace st1 ++ [Slept 5000]))
    | (Throw t, st1) => (Throw t, st1)
    end
  else
    bind (call (screenshot P "debug-tempmail-timeout.png"))
         (fun _ => throw (Error codeTimedOut)) st.
Proof.
  cbn [waitForVerificationCodeLoop]. unfold bind at 1, now at 1. cbn [world].
  destruct (dateNow P (world st) - startTime <? timeout); [|reflexivity].
  unfold bind at 1.
  destruct (checkInbox P I toLowerCase startTime st) as [[[v|]|t] st1]; reflexivity.
Qed.

Lemma waitForVerificationCodeLoop_outcome :
  forall fuel st,
    enoughRounds P timeout startTime fuel st ->
    codeWaitOutcome P timeout startTime
      (waitForVerificationCodeLoop P I toLowerCase fuel timeout startTime st) /\
    waitForVerificationCodeLoop P I toLowerCase (S fuel) timeout startTime st =
    waitForVerificationCodeLoop P I toLowerCase fuel timeout startTime st.
Proof.
  induction fuel as [|fuel IH]; intros st [Hpos Hfuel]; [lia|].
  rewrite (waitForVerificationCodeLoop_step (S fuel)), (waitForVerificationCodeLoop_step fuel).
  destruct (dateNow P (world st) - startTime <? timeout) eqn:Hlt.
  - apply Z.ltb_lt in Hlt.
    destruct (@checkInbox_ends (dateNow P (world st)) startTime st ltac:(lia))
      as [found [st1 [Hrun [Ht1 Hgood]]]].
    rewrite Hrun.
    destruct found as [v|]; [split; [exact Hgood | reflexivity]|].
    apply IH.
    destruct clock as [_ [_ [_ [_ Hadv]]]].
    pose proof (Hadv 5000 (world st1) ltac:(lia)).
    unfold enoughRounds. cbn [world]. split; lia.
  - apply Z.ltb_ge in Hlt. split; [|reflexivity].
    destruct clock as [_ [Hshot _]].
    pose proof (Hshot "debug-tempmail-timeout.png"%string (world st)) as Hs.
    unfold bind, call.
    destruct (screenshot P "debug-tempmail-timeout.png" (world st)) as [[[]|m] w'] eqn:E;
      cbn in *.
    + split; [lia | now left].
    + split; [lia|]. right. exists m, (world st). auto.
Qed.

(** The method up to its loop. *)
Lemma waitForVerificationCode_start (fuel : nat) (st : state W) :
  waitForVerificationCode P I toLowerCase fuel timeout st =
  match bringToFront I (world st) with
  | (Resolved _, w1) =>
      waitForVerificationCodeLoop P I toLowerCase fuel timeout (dateNow P (world st))
        (MkState w1 (trace st ++ [Logged (Step 3) [Txt "正在等待验证码邮件..."]]))
  | (Rejected message, w1) =>
      (Throw (Error message),
       MkState w1 (trace st ++ [Logged (Step 3) [Txt "正在等待验证码邮件..."]]))
  end.
Proof.
  unfold waitForVerificationCode.
  unfold bind at 1, logger at 1, emit at 1. cbn [world trace].
  unfold bind at 1, now at 1. cbn [world].
  unfold bind at 1, call at 1. cbn [world trace].
  destruct (bringToFront I (world st)) as [[[]|m] w1]; reflexivity.
Qed.

End Inbox.

(** X6.  On a world whose clock does not run backwards,
    [waitForVerificationCode] ends, for every timeout and every inbox:
    either it returns a string of exactly six digits, which the extraction
    script read off the page in the last evaluation, or it throws.  What
    goes wrong inside a round (a screenshot, an evaluation, the click on
    the mail) is logged and never thrown; the method throws only the
    rejection of [bringToFront], before the first round, or, once the
    timeout has elapsed, the time-out error (or the rejection of the
    screenshot taken just before it).  [inboxRounds timeout] rounds are
    enough, and more change nothing. *)
Theorem waitForVerificationCode_outcome (W : Type) (P : page W) (I : inbox W)
        (toLowerCase : jsstring -> jsstring) (timeout : Z) (fuel : nat) (st : state W) :
  steadyClock P I ->
  (inboxRounds timeout <= fuel)%nat ->
  match waitForVerificationCode P I toLowerCase fuel timeout st with
  | (Return (Some v), st') =>
      exists code,
        v = VStr code /\ isSixDigitCode code /\
        exists w d,
          evaluateDocument P w = (Resolved d, world st') /\
          extractVerificationCodeScript d = VStr code
  | (Return None, _) => False
  | (Throw t, st') =>
      (exists message w,
         bringToFront I w = (Rejected message, world st') /\ t = Error message) \/
      (timeout <= dateNow P (world st') - dateNow P (world st) /\
       (t = Error codeTimedOut \/
        exists message w,
          screenshot P "debug-tempmail-timeout.png" w = (Rejected message, world st') /\
          t = Error message))
  end /\
  waitForVerificationCode P I toLowerCase fuel timeout st =
  waitForVerificationCode P I toLowerCase (inboxRounds timeout) timeout st.
Proof.
  intros Hclock Hfuel.
  rewrite !(waitForVerificationCode_start P I toLowerCase timeout).
  destruct (bringToFront I (world st)) as [[[]|m] w1] eqn:Hfront.
  - assert (Hw1 : dateNow P (world st) <= dateNow P w1).
    { destruct Hclock as [_ [_ [_ [Hf _]]]]. specialize (Hf (world st)).
      now rewrite Hfront in Hf. }
    set (st1 := MkState w1 (trace st ++ [Logged (Step 3) [Txt "正在等待验证码邮件..."]])).
    assert (Henough : forall extra,
               enoughRounds P timeout (dateNow P (world st))
                            (extra + inboxRounds timeout) st1).
    { intros extra. unfold enoughRounds, inboxRounds, st1. cbn [world]. split; [lia|].
      destruct (Z.le_gt_cases 0 timeout) as [Hpos|Hneg].
      - pose proof (Z.div_pos timeout 5000 Hpos ltac:(lia)) as Hq.
        pose proof (Z.mod_pos_bound timeout 5000 ltac:(lia)) as Hm.
        pose proof (Z.div_mod timeout 5000 ltac:(lia)) as Hdm.
        rewrite !Nat2Z.inj_add, Z2Nat.id by lia. lia.
      - lia. }
    assert (Hsame : waitForVerificationCodeLoop P I toLowerCase fuel timeout
                      (dateNow P (world st)) st1 =
                    waitForVerificationCodeLoop P I toLowerCase (inboxRounds timeout) timeout
                      (dateNow P (world st)) st1).
    { replace fuel with ((fuel - inboxRounds timeout) + inboxRounds timeout)%nat by lia.
      induction (fuel - inboxRounds timeout)%nat as [|extra IHe]; [reflexivity|].
      cbn [Nat.add]. rewrite <- IHe.
      apply (waitForVerificationCodeLoop_outcome toLowerCase Hclock (Henough extra)). }
    split; [|exact Hsame].
    rewrite Hsame.
    pose proof (proj1 (waitForVerificationCodeLoop_outcome toLowerCase Hclock (Henough 0%nat)))
      as Hout.
    cbn [Nat.add] in Hout. unfold codeWaitOutcome in Hout.
    destruct (waitForVerificationCodeLoop P I toLowerCase (inboxRounds timeout) timeout
                (dateNow P (world st)) st1) as [[[v|]|t] st'].
    + exact Hout.
    + exact Hout.
    + right. exact Hout.
  - split; [|reflexivity]. left. exists m, (world st). auto.
Qed.

End InboxFacts.
(* ------------------------------------------------------------------ *)
(** * Names, user names, delays and cookie domains *)

Module NameFacts.

Import Js Browser OpenAIRegister Properties.

Local Open Scope Z_scope.

(** [Math.floor(Math.random() * c)] lies in [0, c - 1], for every count
    [c >= 1]. *)
Lemma floorTimes_below (u : unitDouble) (c : Z) :
  1 <= c -> isUnitDouble u -> 0 <= floorTimes u c <= c - 1.
Proof.
  intros Hc Hu. destruct (Z.eq_dec c 1) as [->|Hne].
  - destruct Hu as [Hm Hs]. unfold floorTimes, round53. rewrite Z.mul_1_r.
    destruct (mant u <? 2 ^ 53) eqn:Hlt; [|apply Z.ltb_ge in Hlt; lia].
    assert (Hpow : 2 ^ 53 <= 2 ^ (53 + scale u)) by (apply Z.pow_le_mono_r; lia).
    rewrite Z.div_small; lia.
  - pose proof (Z.log2_up_spec c ltac:(lia)) as [Hlo Hhi].
    pose proof (Z.log2_up_pos c ltac:(lia)) as Hpos.
    rewrite <- Z.sub_1_r in Hlo.
    apply (@BirthdayFacts.floorTimes_range u c (Z.log2_up c)); auto; lia.
Qed.

(** Over an empty list the index drawn is 0. *)
Lemma floorTimes_zero (u : unitDouble) : floorTimes u 0 = 0.
Proof. unfold floorTimes. rewrite Z.mul_0_r. reflexivity. Qed.

(** The name drawn is one of the list; only an empty list gives none. *)
Lemma randomName_in (names : list jsstring) (r : unitDouble) :
  isUnitDouble r ->
  match names with
  | [] => randomName names r = None
  | _ :: _ => exists name, randomName names r = Some name /\ In name names
  end.
Proof.
  intros Hr. unfold randomName. destruct names as [|n names].
  - cbn [List.length Z.of_nat]. now rewrite floorTimes_zero.
  - set (all := n :: names).
    assert (Hlen : 1 <= Z.of_nat (List.length all)) by (unfold all; cbn [List.length]; lia).
    pose proof (floorTimes_below Hlen Hr) as Hb.
    destruct (nth_error all (Z.to_nat (floorTimes r (Z.of_nat (List.length all)))))
      as [name|] eqn:Hn.
    + exists name. split; [reflexivity|]. eapply nth_error_In; eauto.
    + apply nth_error_None in Hn. lia.
Qed.

(** X7.  The delay of [randomDelay(min, max)], for integer bounds
    [0 <= min <= max] below [2^53] and every value [Math.random()] can
    return: it lies between [min] and [max], both included. *)
Theorem randomDelayMs_range (r : unitDouble) (min max : Z) :
  isUnitDouble r -> 0 <= min -> min <= max -> max < 2 ^ 53 ->
  min <= randomDelayMs r min max <= max.
Proof.
  intros Hr Hmin Hle Hmax. unfold randomDelayMs.
  pose proof (@floorTimes_below r (max - min + 1) ltac:(lia) Hr). lia.
Qed.

Section Cases.

Variable toUpperCase : jsstring -> jsstring.
Variable toLowerCase : jsstring -> jsstring.

(** X8.  [generateUsername()], for every value [Math.random()] can
    return: with a list of names that is not empty it returns one of the
    names, in lower case, followed by the digits of a number between 0 and
    9998; with an empty list it throws the TypeError of calling
    [toLowerCase] on [undefined]. *)
Theorem generateUsername_outcome (names : list jsstring) (r1 r2 : unitDouble) :
  isUnitDouble r1 -> isUnitDouble r2 ->
  match names with
  | [] => generateUsername toLowerCase names r1 r2 = Throw (undefinedHasNo "toLowerCase")
  | _ :: _ =>
      exists name num,
        In name names /\ 0 <= num <= 9998 /\
        generateUsername toLowerCase names r1 r2 = Return (toLowerCase name ++ ofZ num)
  end.
Proof.
  intros H1 H2. pose proof (randomName_in names H1) as Hn.
  unfold generateUsername. destruct names as [|n names].
  - now rewrite Hn.
  - destruct Hn as [name [-> Hin]]. exists name, (floorTimes r2 9999).
    split; [exact Hin|]. split; [|reflexivity].
    apply (@floorTimes_below r2 9999); [lia | exact H2].
Qed.

(** The letter at an index of the alphabet. *)
Lemma charAt_letters (k : Z) :
  0 <= k <= 25 -> charAt letters k = [Z.to_N (97 + k)].
Proof.
  intros Hk. replace k with (Z.of_nat (Z.to_nat k)) by lia.
  assert (Hn : (Z.to_nat k < 26)%nat) by lia.
  clear Hk. revert Hn. generalize (Z.to_nat k). intros n Hn.
  do 26 (destruct n as [|n]; [reflexivity|]). lia.
Qed.

(** X9.  [getRandomFullName()], for every value [Math.random()] can
    return, on an engine whose case mappings take a lower-case ASCII
    letter to its capital and to itself: with a list of names that is not
    empty it returns a capital ASCII letter, a lower-case ASCII letter and
    then one of the names, capitalised; with an empty list it throws the
    TypeError of calling [charAt] on [undefined]. *)
Theorem getRandomFullName_outcome (names : list jsstring) (r1 r2 r3 : unitDouble) :
  (forall c, JsStr.isLower c = true -> toUpperCase [c] = [(c - 32)%N]) ->
  (forall c, JsStr.isLower c = true -> toLowerCase [c] = [c]) ->
  isUnitDouble r1 -> isUnitDouble r2 -> isUnitDouble r3 ->
  match names with
  | [] =>
      getRandomFullName toUpperCase toLowerCase names r1 r2 r3
      = Throw (undefinedHasNo "charAt")
  | _ :: _ =>
      exists a b name,
        JsStr.isUpper a = true /\ JsStr.isLower b = true /\ In name names /\
        getRandomFullName toUpperCase toLowerCase names r1 r2 r3
        = Return ([a; b] ++ capitalize toUpperCase toLowerCase name)
  end.
Proof.
  intros Hup Hlow H1 H2 H3. pose proof (randomName_in names H3) as Hn.
  unfold getRandomFullName. destruct names as [|n names].
  - now rewrite Hn.
  - destruct Hn as [name [-> Hin]].
    pose proof (@floorTimes_below r1 26 ltac:(lia) H1) as Hk1.
    pose proof (@floorTimes_below r2 26 ltac:(lia) H2) as Hk2.
    rewrite (charAt_letters Hk1), (charAt_letters Hk2).
    set (p1 := Z.to_N (97 + floorTimes r1 26)).
    set (p2 := Z.to_N (97 + floorTimes r2 26)).
    assert (Hp1 : JsStr.isLower p1 = true).
    { unfold JsStr.isLower, JsStr.inRange, p1.
      apply andb_true_iff. split; apply N.leb_le; lia. }
    assert (Hp2 : JsStr.isLower p2 = true).
    { unfold JsStr.isLower, JsStr.inRange, p2.
      apply andb_true_iff. split; apply N.leb_le; lia. }
    exists (p1 - 32)%N, p2, name.
    split.
    { unfold JsStr.isUpper, JsStr.inRange, p1.
      apply andb_true_iff. split; apply N.leb_le; lia. }
    split; [exact Hp2|]. split; [exact Hin|].
    unfold capitalize at 1. cbn [app charAt nth_error Z.to_nat skipn].
    now rewrite (Hup p1 Hp1), (Hlow p2 Hp2).
Qed.

End Cases.

(** *** The name file *)

Lemma trimStart_blank (s : jsstring) :
  forallb JsStr.isWhiteSpace s = true -> JsStr.trimStart s = [].
Proof.
  induction s as [|c s IH]; [reflexivity|]. cbn [forallb JsStr.trimStart].
  intros H. apply andb_true_iff in H as [Hc Hs]. rewrite Hc. auto.
Qed.

Lemma trim_blank (s : jsstring) :
  forallb JsStr.isWhiteSpace s = true -> JsStr.trim s = [].
Proof.
  intros H. unfold JsStr.trim, JsStr.trimEnd. now rewrite (trimStart_blank s H).
Qed.

(** What [trimStart] leaves starts with no white space, and is the
    string without a prefix. *)
Lemma trimStart_spec (s : jsstring) :
  exists pre,
    s = pre ++ JsStr.trimStart s /\
    match JsStr.trimStart s with
    | c :: _ => JsStr.isWhiteSpace c = false
    | [] => True
    end.
Proof.
  induction s as [|c s [pre [Hs Hhead]]]; [now exists []|].
  cbn [JsStr.trimStart]. destruct (JsStr.isWhiteSpace c) eqn:Hc.
  - exists (c :: pre). split; [cbn; now rewrite <- Hs | exact Hhead].
  - exists []. split; [reflexivity | exact Hc].
Qed.

Lemma trimStart_fixed (s : jsstring) :
  match s with c :: _ => JsStr.isWhiteSpace c = false | [] => True end ->
  JsStr.trimStart s = s.
Proof. destruct s as [|c s]; [reflexivity|]. cbn. now intros ->. Qed.

(** A trimmed string is trimmed, and holds no character the string did
    not hold. *)
Lemma trim_spec (s : jsstring) :
  JsStr.trim (JsStr.trim s) = JsStr.trim s /\
  forall c, In c (JsStr.trim s) -> In c s.
Proof.
  unfold JsStr.trim, JsStr.trimEnd.
  destruct (trimStart_spec s) as [pre [Hs Hhead]].
  set (x := JsStr.trimStart s) in *.
  destruct (trimStart_spec (rev x)) as [post [Hx Htail]].
  set (y := JsStr.trimStart (rev x)) in *.
  assert (Hxy : x = rev y ++ rev post).
  { rewrite <- (rev_involutive x), Hx, rev_app_distr. reflexivity. }
  split.
  - assert (Hfix : JsStr.trimStart (rev y) = rev y).
    { apply trimStart_fixed. destruct (rev y) as [|c r] eqn:Hr; [exact I|].
      rewrite Hxy in Hhead. cbn in Hhead. exact Hhead. }
    rewrite Hfix, rev_involutive.
    rewrite (trimStart_fixed y Htail). reflexivity.
  - intros c Hc. rewrite Hs. apply in_or_app. right.
    rewrite Hxy. apply in_or_app. now left.
Qed.

Lemma splitLines_lines (content : jsstring) :
  splitLines content <> [] /\
  Forall (fun line => forall c, In c line -> In c content /\ c <> 10%N) (splitLines content).
Proof.
  induction content as [|c rest [Hne IH]].
  - split; [discriminate|]. constructor; [intros d []|constructor].
  - cbn [splitLines]. destruct (N.eqb c 10) eqn:Hc.
    + split; [discriminate|]. constructor; [intros d []|].
      eapply Forall_impl; [|exact IH]. cbn. intros line Hl d Hd.
      destruct (Hl d Hd). auto.
    + apply N.eqb_neq in Hc.
      destruct (splitLines rest) as [|line lines]; [contradiction|].
      split; [discriminate|]. inversion IH as [|? ? Hline Hlines]; subst.
      constructor.
      * intros d [<-|Hd]; [split; [now left | exact Hc]|].
        destruct (Hline d Hd). split; [now right | assumption].
      * eapply Forall_impl; [|exact Hlines]. cbn. intros l Hl d Hd.
        destruct (Hl d Hd). auto.
Qed.

Lemma namesOf_names (content : jsstring) :
  Forall (fun n => n <> [] /\ JsStr.trim n = n /\ ~ In 10%N n) (namesOf content).
Proof.
  unfold namesOf. apply Forall_forall. intros n Hn.
  apply filter_In in Hn as [Hin Hlen]. apply in_map_iff in Hin as [line [<- Hline]].
  destruct (trim_spec line) as [Hidem Hsub].
  split; [|split].
  - intros Heq. rewrite Heq in Hlen. discriminate.
  - exact Hidem.
  - intros H10. apply Hsub in H10.
    destruct (splitLines_lines content) as [_ Hall].
    rewrite Forall_forall in Hall. destruct (Hall line Hline _ H10) as [_ Hne]. now apply Hne.
Qed.

Lemma namesOf_blank (content : jsstring) :
  forallb JsStr.isWhiteSpace content = true -> namesOf content = [].
Proof.
  intros Hblank. unfold namesOf.
  destruct (splitLines_lines content) as [_ Hall].
  rewrite forallb_forall in Hblank.
  induction (splitLines content) as [|line lines IH]; [reflexivity|].
  inversion Hall as [|? ? Hline Hlines]; subst. cbn [map filter].
  rewrite trim_blank; [cbn; auto|].
  apply forallb_forall. intros c Hc. apply Hblank. now apply Hline.
Qed.

Section Load.

Variable W : Type.
Variable readFileSync : W -> outcome jsstring * W.

(** X10.  [loadNames] never throws.  When [name.txt] can be read, the
    names are those of its lines that are not blank, trimmed; when it cannot,
    they are the five default names.  Either way no name is empty, none
    begins or ends with white space, and none holds a line feed. *)
Theorem loadNames_names (st : state W) :
  exists names st',
    loadNames readFileSync st = (Return names, st') /\
    match fst (readFileSync (world st)) with
    | Resolved content => names = namesOf content
    | Rejected _ => names = defaultNames
    end /\
    Forall (fun n => n <> [] /\ JsStr.trim n = n /\ ~ In 10%N n) names.
Proof.
  unfold loadNames, tryCatch, bind, call.
  destruct (readFileSync (world st)) as [[content|m] w'].
  - cbn. eexists _, _. split; [reflexivity|]. split; [reflexivity|]. apply namesOf_names.
  - cbn. eexists _, _. split; [reflexivity|]. split; [reflexivity|].
    unfold defaultNames. repeat constructor; try discriminate;
      try (cbn; intuition discriminate).
Qed.

End Load.

(** X11.  A [name.txt] that holds nothing but white space loads as an
    empty list of names, not as the default names, and on that list both
    [getRandomFullName] and [generateUsername] throw a TypeError, whatever
    [Math.random()] returns. *)
Theorem blank_name_file (toUpperCase toLowerCase : jsstring -> jsstring)
        (content : jsstring) (r1 r2 r3 : unitDouble) :
  forallb JsStr.isWhiteSpace content = true ->
  namesOf content = [] /\
  getRandomFullName toUpperCase toLowerCase (namesOf content) r1 r2 r3
  = Throw (undefinedHasNo "charAt") /\
  generateUsername toLowerCase (namesOf content) r1 r2
  = Throw (undefinedHasNo "toLowerCase").
Proof.
  intros Hblank. rewrite (namesOf_blank content Hblank).
  unfold getRandomFullName, generateUsername, randomName.
  cbn [List.length Z.of_nat]. rewrite !floorTimes_zero. auto.
Qed.

(** *** Cookie domains *)

Lemma includes_trans (a b c : jsstring) :
  JsStr.includes a b = true -> JsStr.includes b c = true -> JsStr.includes a c = true.
Proof.
  rewrite !JsStrFacts.includes_app.
  intros [p1 [q1 ->]] [p2 [q2 ->]].
  exists (p1 ++ p2), (q2 ++ q1). now rewrite <- !app_assoc.
Qed.

(** X12.  The domain test of the cookie filter of [getSessionToken]
    comes to this: the cookie's domain holds [openai.com], [sora.com] or
    [chatgpt.com] somewhere.  The fourth entry of the list and the
    comparisons for equality add nothing; and the test is one of
    substrings, so it does not tell a sub-domain from any other name that
    holds one of the three. *)
Theorem isRelevantDomain_substring (cookieDomain : jsstring) :
  isRelevantDomain cookieDomain =
  JsStr.includes cookieDomain (JsStr.lit "openai.com") ||
  JsStr.includes cookieDomain (JsStr.lit "sora.com") ||
  JsStr.includes cookieDomain (JsStr.lit "chatgpt.com").
Proof.
  unfold isRelevantDomain, relevantDomains.
  cbn [map existsb].
  change (removeFirst 46 (JsStr.lit ".openai.com")) with (JsStr.lit "openai.com").
  change (removeFirst 46 (JsStr.lit ".sora.com")) with (JsStr.lit "sora.com").
  change (removeFirst 46 (JsStr.lit ".chatgpt.com")) with (JsStr.lit "chatgpt.com").
  change (removeFirst 46 (JsStr.lit "auth.openai.com")) with (JsStr.lit "authopenai.com").
  assert (Heq : forall x n,
             JsStr.includes x n = true ->
             JsStr.eqb cookieDomain x = true -> JsStr.includes cookieDomain n = true).
  { intros x n Hx Hd. apply JsStrFacts.eqb_eq in Hd. now subst. }
  pose proof (Heq (JsStr.lit ".openai.com") (JsStr.lit "openai.com") eq_refl) as H1.
  pose proof (Heq (JsStr.lit ".sora.com") (JsStr.lit "sora.com") eq_refl) as H2.
  pose proof (Heq (JsStr.lit ".chatgpt.com") (JsStr.lit "chatgpt.com") eq_refl) as H3.
  pose proof (Heq (JsStr.lit "auth.openai.com") (JsStr.lit "openai.com") eq_refl) as H4.
  pose proof (fun H => @includes_trans cookieDomain (JsStr.lit "authopenai.com")
                         (JsStr.lit "openai.com") H eq_refl) as H5.
  destruct (JsStr.includes cookieDomain (JsStr.lit "openai.com")); [reflexivity|].
  destruct (JsStr.eqb cookieDomain (JsStr.lit ".openai.com")); [now specialize (H1 eq_refl)|].
  destruct (JsStr.eqb cookieDomain (JsStr.lit "auth.openai.com"));
    [now specialize (H4 eq_refl)|].
  destruct (JsStr.includes cookieDomain (JsStr.lit "authopenai.com"));
    [now specialize (H5 eq_refl)|].
  destruct (JsStr.includes cookieDomain (JsStr.lit "sora.com")); [reflexivity|].
  destruct (JsStr.eqb cookieDomain (JsStr.lit ".sora.com")); [now specialize (H2 eq_refl)|].
  destruct (JsStr.includes cookieDomain (JsStr.lit "chatgpt.com")); [reflexivity|].
  destruct (JsStr.eqb cookieDomain (JsStr.lit ".chatgpt.com")); [now specialize (H3 eq_refl)|].
  reflexivity.
Qed.

End NameFacts.
(* ------------------------------------------------------------------ *)
(** * The registration run, end to end *)

Module RunFacts.

Import Js Browser OpenAIRegister Properties.

Section Run.

Variable W : Type.
Variable P : page W.
Variable S : stages W.

Lemma last_error (failures : list jsstring) (fallback : thrown) :
  failures <> [] -> exists message, last (map Error failures) fallback = Error message.
Proof.
  induction failures as [|m failures IH]; [contradiction|]. intros _.
  destruct failures as [|m' failures]; [now exists m|].
  change (last (map Error (m :: m' :: failures)) fallback)
    with (last (map Error (m' :: failures)) fallback).
  apply IH. discriminate.
Qed.

(** With a try to make, the wrapper throws the error of an attempt. *)
Lemma withRetry_raisesErrors A (op : W -> outcome A * W) (label stepName : string)
      (retries : nat) (delay : Z) :
  (1 <= retries)%nat ->
  raisesErrors (withRetry P (invoke label op) stepName retries delay).
Proof.
  intros Hpos st t st' Hrun.
  pose proof (@RetryFacts.withRetryLoop_outcome W P A op label stepName retries delay
                retries 0%nat Undefined st) as Hout.
  unfold withRetry in Hrun. rewrite Hrun in Hout.
  destruct Hout as [failures [_ [Hlen ->]]].
  apply last_error. destruct failures; [cbn in Hlen; lia | discriminate].
Qed.

Lemma safeEvaluate_raisesErrors A (fn : document -> A) (d : A) (retries : nat) :
  raisesErrors (safeEvaluate P fn d retries).
Proof.
  intros st t st' Hrun.
  pose proof (@EvaluateFacts.safeEvaluateLoop_outcome W P A fn d retries retries 0%nat st
                ltac:(lia)) as Hout.
  unfold safeEvaluate in Hrun. rewrite Hrun in Hout.
  destruct Hout as [retried [_ [_ [msg [-> _]]]]]. now exists msg.
Qed.

Lemma stagesThroughProfile_raisesErrors (email password : jsstring) :
  raisesErrors (stagesThroughProfile P S email password).
Proof.
  unfold stagesThroughProfile.
  repeat first
    [ apply withRetry_raisesErrors; lia
    | solve [auto with throws]
    | apply ThrowFacts.raisesErrors_bind; [|intros ?] ].
Qed.

Lemma checkCompletion_raisesErrors : raisesErrors (checkCompletion P).
Proof.
  intros st t st'. unfold checkCompletion.
  match goal with |- ?m st = _ -> _ => enough (Hm : raisesErrors m) by apply Hm end.
  repeat first
    [ apply safeEvaluate_raisesErrors
    | solve [auto with throws]
    | apply ThrowFacts.raisesErrors_bind; [|intros ?]
    | apply ThrowFacts.raisesErrors_if ].
Qed.

Lemma afterProfile_raisesErrors : raisesErrors (afterProfile P S).
Proof.
  unfold afterProfile, checkForSignInIssue, saveFinalState.
  repeat first
    [ apply withRetry_raisesErrors; lia
    | apply safeEvaluate_raisesErrors
    | apply checkCompletion_raisesErrors
    | solve [auto with throws]
    | apply ThrowFacts.raisesErrors_bind; [|intros ?]
    | apply ThrowFacts.raisesErrors_tryCatch; intros ?
    | apply ThrowFacts.raisesErrors_if ].
Qed.

(** X13.  [register] completes as its stages do.  When the stages and
    the checks that follow them return, it returns what they return; when
    one of them throws, the [catch] logs the error and tries a screenshot,
    and then the very same error is thrown on, whether the screenshot could
    be taken or not: the method neither swallows an error nor puts another
    in its place. *)
Theorem register_completes_as_stages (email password : jsstring) (st : state W) :
  fst (register P S email password st) =
  fst (bind (stagesThroughProfile P S email password) (fun _ => afterProfile P S) st).
Proof.
  unfold register, tryCatch.
  assert (Hbody : raisesErrors (bind (stagesThroughProfile P S email password)
                                     (fun _ => afterProfile P S))).
  { apply ThrowFacts.raisesErrors_bind;
      [apply stagesThroughProfile_raisesErrors | intros; apply afterProfile_raisesErrors]. }
  destruct (bind (stagesThroughProfile P S email password) (fun _ => afterProfile P S) st)
    as [[b|t] st1] eqn:Hrun; [reflexivity|].
  destruct (Hbody _ _ _ Hrun) as [message ->].
  js_run. destruct (screenshot P "debug-register-error.png" (world st1)) as [[[]|m] w'];
    reflexivity.
Qed.

(** What [true] from the completion check means. *)
Lemma checkCompletion_true (st st' : state W) :
  checkCompletion P st = (Return true, st') ->
  onAuthDomain (url P (world st)) = false /\ onTargetDomain (url P (world st)) = true.
Proof.
  unfold checkCompletion, onAuthDomain, onTargetDomain. js_run.
  destruct (JsStr.includes (url P (world st)) (JsStr.lit "auth.openai.com")).
  - match goal with
    | |- context [safeEvaluate P errorTextScript None 3 ?s] =>
        destruct (safeEvaluate P errorTextScript None 3 s) as [[hasError|t] st1]
    end; [|discriminate].
    destruct (truthyText hasError); discriminate.
  - destruct (JsStr.includes (url P (world st)) (JsStr.lit "sora.com") ||
              JsStr.includes (url P (world st)) (JsStr.lit "chat.openai.com") ||
              JsStr.includes (url P (world st)) (JsStr.lit "chatgpt.com"));
      [auto | discriminate].
Qed.

(** X14.  [register] returns [true] only from a page of the
    application: in every run that returns [true] the six stages and the
    username stage have returned, the issue check has found nothing, and
    the URL the completion check read, after the last pause, is off the
    auth domain and on [sora.com], [chat.openai.com] or [chatgpt.com]. *)
Theorem register_true_only_on_target (email password : jsstring) (st st' : state W) :
  register P S email password st = (Return true, st') ->
  exists st1 st2 st3 st4,
    stagesThroughProfile P S email password st = (Return tt, st1) /\
    checkForSignInIssue P st1 = (Return false, st2) /\
    withRetry P (invoke "enterUsername" (enterUsername S)) "输入用户名" 3 2000 st2
      = (Return tt, st3) /\
    checkCompletion P st4 = (Return true, st') /\
    onAuthDomain (url P (world st4)) = false /\
    onTargetDomain (url P (world st4)) = true.
Proof.
  intros Hrun.
  assert (Hbody : bind (stagesThroughProfile P S email password)
                       (fun _ => afterProfile P S) st = (Return true, st')).
  { unfold register, tryCatch in Hrun.
    destruct (bind (stagesThroughProfile P S email password) (fun _ => afterProfile P S) st)
      as [[b|t] st0]; [exact Hrun|].
    exfalso. revert Hrun. js_run. destruct t as [m|]; js_run; [|discriminate].
    destruct (screenshot P "debug-register-error.png" (world st0)) as [[[]|m'] w'];
      discriminate. }
  unfold bind at 1 in Hbody.
  destruct (stagesThroughProfile P S email password st) as [[[]|t] st1]; [|discriminate].
  unfold afterProfile, bind at 1 in Hbody.
  destruct (checkForSignInIssue P st1) as [[[|]|t] st2] eqn:Hissue; try discriminate.
  - exfalso. revert Hbody. js_run.
    destruct (screenshot P "debug-signin-issue.png" (world st2)) as [[[]|m'] w'];
      discriminate.
  - unfold bind at 1 in Hbody.
    destruct (withRetry P (invoke "enterUsername" (enterUsername S)) "输入用户名" 3 2000 st2)
      as [[[]|t] st3] eqn:Hname; [|discriminate].
    unfold bind at 1, sleep at 1 in Hbody.
    unfold bind at 1 in Hbody.
    destruct (saveFinalState P _) as [[[]|t] st4] eqn:Hsave; [|discriminate].
    exists st1, st2, st3, st4.
    destruct (@checkCompletion_true st4 st' Hbody) as [Hauth Htarget].
    repeat split; auto.
Qed.

End Run.

End RunFacts.

(* ------------------------------------------------------------------ *)
(** * The format of a birthday *)

Module BirthdayFormatFacts.

Import OpenAIRegister Properties.

Local Open Scope Z_scope.

Lemma ofZ_year_table :
  forallb (fun n => JsStr.eqb (ofZ (Z.of_nat n)) (fourDigits (Z.of_nat n)))
          (seq (10 * 100) (90 * 100)) = true.
Proof. vm_compute. reflexivity. Qed.

Lemma ofZ_day_table :
  forallb (fun n => JsStr.eqb (padStart2 (ofZ (Z.of_nat n))) (twoDigits (Z.of_nat n)))
          (seq 0 100) = true.
Proof. vm_compute. reflexivity. Qed.

Lemma ofZ_four (y : Z) : 1000 <= y <= 9999 -> ofZ y = fourDigits y.
Proof.
  intros Hy. pose proof ofZ_year_table as Ht. rewrite forallb_forall in Ht.
  specialize (Ht (Z.to_nat y)). rewrite Z2Nat.id in Ht by lia.
  apply JsStrFacts.eqb_eq, Ht, in_seq. lia.
Qed.

Lemma padStart2_two (n : Z) : 0 <= n <= 99 -> padStart2 (ofZ n) = twoDigits n.
Proof.
  intros Hn. pose proof ofZ_day_table as Ht. rewrite forallb_forall in Ht.
  specialize (Ht (Z.to_nat n)). rewrite Z2Nat.id in Ht by lia.
  apply JsStrFacts.eqb_eq, Ht, in_seq. lia.
Qed.

(** X15.  The text of a birthday, in a year from 1039 to 10017 and for
    every value [Math.random()] can return: ten characters, the month and
    the day as two decimal digits each, padded with a zero, the year as
    four, with a slash between the parts; month, day and year on an English
    page, year, month and day on a Chinese one.  The digits are those of the
    date drawn. *)
Theorem generateBirthday_format (today : date) (r1 r2 r3 : unitDouble)
        (isChinesePage : bool) :
  isUnitDouble r1 -> isUnitDouble r2 -> isUnitDouble r3 ->
  1039 <= year today <= 10017 ->
  let b := randomBirthday today r1 r2 r3 in
  generateBirthday today r1 r2 r3 isChinesePage =
  (if isChinesePage
   then fourDigits (year b) ++ [47%N] ++ twoDigits (month b) ++ [47%N] ++ twoDigits (day b)
   else twoDigits (month b) ++ [47%N] ++ twoDigits (day b) ++ [47%N] ++ fourDigits (year b))
  /\ List.length (generateBirthday today r1 r2 r3 isChinesePage) = 10%nat.
Proof.
  intros H1 H2 H3 Hy b.
  pose proof (@NameFacts.floorTimes_below r1 22 ltac:(lia) H1) as Hk1.
  pose proof (@NameFacts.floorTimes_below r2 12 ltac:(lia) H2) as Hk2.
  pose proof (@NameFacts.floorTimes_below r3 28 ltac:(lia) H3) as Hk3.
  assert (Heq : generateBirthday today r1 r2 r3 isChinesePage =
                if isChinesePage
                then fourDigits (year b) ++ [47%N] ++ twoDigits (month b) ++ [47%N]
                     ++ twoDigits (day b)
                else twoDigits (month b) ++ [47%N] ++ twoDigits (day b) ++ [47%N]
                     ++ fourDigits (year b)).
  { unfold generateBirthday. fold b. cbv zeta.
    rewrite (@ofZ_four (year b)) by (unfold b; cbn; lia).
    rewrite (@padStart2_two (month b)) by (unfold b; cbn; lia).
    rewrite (@padStart2_two (day b)) by (unfold b; cbn; lia).
    reflexivity. }
  split; [exact Heq|]. rewrite Heq. destruct isChinesePage; reflexivity.
Qed.

End BirthdayFormatFacts.
(* ------------------------------------------------------------------ *)
(** * How often a run invokes an operation *)

Module BudgetFacts.

Import Js Browser OpenAIRegister Properties.

Section Budget.

Variable W : Type.
Variable P : page W.
Variable label : string.









End Budget.


Section Register.

Variable W : Type.
Variable P : page W.
Variable S : stages W.
Variable label : string.





End Register.

End BudgetFacts.

(* ------------------------------------------------------------------ *)
(** * The address of the inbox, in every run *)

Module AddressFacts.

Import Regex Js Browser TempMailService Properties.

Lemma emailFromInputs_long (inputs : list element) (a : jsstring) :
  emailFromInputs inputs = Some a -> (6 <= List.length a)%nat.
Proof.
  induction inputs as [|input rest IH]; [discriminate|]. cbn [emailFromInputs].
  destruct (_ && _ && _); [|exact IH].
  destruct (exec wholeEmailRegex (JsStr.trim (value input))) as [m|] eqn:Hm; [|exact IH].
  intros H. injection H as <-.
  apply TempMailFacts.exec_min_length in Hm.
  now rewrite (proj2 TempMailFacts.email_min_length) in Hm.
Qed.

Lemma emailFromText_long (bodyText a : jsstring) :
  emailFromText bodyText = Some a -> (6 <= List.length a)%nat.
Proof.
  unfold emailFromText.
  destruct (matchGlobal emailRegex bodyText) as [matches|] eqn:Hm; [|discriminate].
  apply TempMailFacts.matchGlobal_min_length in Hm.
  rewrite (proj1 TempMailFacts.email_min_length), Forall_forall in Hm.
  destruct (find notPlaceholder matches) as [email|] eqn:Hf.
  - intros H. injection H as <-. apply find_some in Hf as [Hin _]. auto.
  - destruct matches as [|m ms]; [discriminate|]. intros H. injection H as <-.
    apply Hm. now left.
Qed.

Lemma findEmailScript_long (d : document) (a : jsstring) :
  findEmailScript d = Some a -> (6 <= List.length a)%nat.
Proof.
  unfold findEmailScript.
  destruct (emailFromInputs (querySelectorAll d (JsStr.lit "input"))) as [v|] eqn:Hi.
  - intros H. injection H as <-. eapply emailFromInputs_long; eauto.
  - apply emailFromText_long.
Qed.

Section Address.

Variable W : Type.
Variable P : page W.

(** X18.  Whatever the driver does, an address that [getEmailAddress]
    returns is one that the page script resolved on the document of an
    evaluation, the last the run made, and it has six characters at least:
    the method never returns an empty address, it throws instead. *)
Theorem getEmailAddress_returns_address (st st' : state W) (address : jsstring) :
  getEmailAddress P st = (Return address, st') ->
  (6 <= List.length address)%nat /\
  exists w d,
    evaluateDocument P w = (Resolved d, world st') /\
    findEmailScript d = Some address.
Proof.
  unfold getEmailAddress. js_run.
  destruct (evaluateDocument P (afterTimeout P 2000 (world st))) as [[inputInfo|m] w1];
    js_run.
  2: { destruct (screenshot P "debug-tempmail-error.png" w1) as [[[]|m1] w2];
       js_run; discriminate. }
  assert (Hrest : forall tr0 : list event,
             (let (c, st0) :=
                (let (o, w') := waitForFunction P 15000 w1 in
                 match o with
                 | Resolved a => (Return a, MkState w' tr0)
                 | Rejected msg => (Throw (Error msg), MkState w' tr0)
                 end) in
              match c with
              | Return a => (Return a, st0)
              | Throw _ =>
                  (Return tt,
                   MkState (world st0)
                           (trace st0 ++ [Logged Warn [Txt "等待邮箱元素超时，尝试直接获取..."]]))
              end) = (Return tt, MkState (snd (waitForFunction P 15000 w1))
                                   (match fst (waitForFunction P 15000 w1) with
                                    | Resolved _ => tr0
                                    | Rejected _ =>
                                        tr0 ++ [Logged Warn [Txt "等待邮箱元素超时，尝试直接获取..."]]
                                    end))).
  { intros tr0. destruct (waitForFunction P 15000 w1) as [[[]|m] w2]; reflexivity. }
  destruct (0 <? Z.of_nat (List.length (querySelectorAll inputInfo (JsStr.lit "input"))))%Z;
    js_run; rewrite Hrest; js_run;
    (destruct (evaluateDocument P (snd (waitForFunction P 15000 w1))) as [[d|m] w3] eqn:Hev;
     js_run;
     [ destruct (findEmailScript d) as [found|] eqn:Hfound;
       [ destruct (JsStr.truthy found); js_run;
         [ intros H; inversion H; subst; cbn [world];
           split; [eapply findEmailScript_long; eauto|];
           exists (snd (waitForFunction P 15000 w1)), d; auto
         | destruct (screenshot P "debug-no-email.png" w3) as [[[]|m1] w4]; js_run;
           destruct (screenshot P "debug-tempmail-error.png" w4) as [[[]|m2] w5]; js_run;
           discriminate ]
       | js_run;
         destruct (screenshot P "debug-no-email.png" w3) as [[[]|m1] w4]; js_run;
         destruct (screenshot P "debug-tempmail-error.png" w4) as [[[]|m2] w5]; js_run;
         discriminate ]
     | destruct (screenshot P "debug-tempmail-error.png" w3) as [[[]|m2] w5]; js_run;
       discriminate ]).
Qed.

End Address.

End AddressFacts.
(* ------------------------------------------------------------------ *)
(** * The first two stages *)

Module StageFacts.

Import Js Browser OpenAIRegister Properties.

Section Stages.

Variable W : Type.
Variable H : Type.
Variable P : page W.
Variable E : elements W H.
Variable toLowerCase : jsstring -> jsstring.

(** The wrapper adds nothing to a function that never throws. *)
Lemma withRetry_total A (fn : M W A) (stepName : string) (retries : nat) (delay : Z)
      (st : state W) :
  neverThrows fn -> (1 <= retries)%nat ->
  withRetry P fn stepName retries delay st = fn st.
Proof.
  intros Hfn Hpos. unfold withRetry. destruct retries as [|n]; [lia|].
  cbn [withRetryLoop]. unfold tryCatch.
  destruct (Hfn st) as [a [st' ->]]. reflexivity.
Qed.

Lemma waitForNavigation_returns (timeout : Z) (st : state W) :
  exists st', waitForNavigation E timeout st = (Return tt, st').
Proof.
  unfold waitForNavigation, tryCatch, call.
  destruct (navigationOrTimer E timeout (world st)) as [[[]|m] w']; cbn;
    eexists; reflexivity.
Qed.

Lemma clickSignUp_returns : neverThrows (Handlers.clickSignUp P E).
Proof.
  intros st. unfold Handlers.clickSignUp.
  unfold bind at 1, logger at 1, emit at 1. cbn [world trace].
  match goal with
  | |- context [tryCatch ?b ?h ?s] =>
      assert (Hbody : raisesErrors b);
      [|unfold tryCatch; destruct (b s) as [[[]|t] st1] eqn:Hrun]
  end.
  - apply ThrowFacts.raisesErrors_bind; [auto with throws|]. intros _.
    apply ThrowFacts.raisesErrors_bind; [apply RunFacts.safeEvaluate_raisesErrors|].
    intros clicked. destruct clicked; [|auto with throws].
    apply ThrowFacts.raisesErrors_bind; [auto with throws|]. intros _.
    apply ThrowFacts.raisesErrors_bind; [|intros; auto with throws].
    apply ThrowFacts.raisesErrors_tryCatch. intros. auto with throws.
  - exists tt, st1. reflexivity.
  - destruct (Hbody _ _ _ Hrun) as [message ->]. js_run.
    destruct (screenshot P "debug-signup-btn.png" (world st1)) as [[[]|m] w']; cbn;
      eexists tt, _; reflexivity.
Qed.

(** X19.  Step 2 of [register] is never retried.  [clickSignUp] never
    throws, whatever the driver does: what goes wrong in it is logged as a
    warning, after a screenshot whose own failure is ignored.  So the retry
    wrapper [register] puts around it completes exactly as a single call of
    [clickSignUp] does, and always returns. *)
Theorem clickSignUp_never_retried (st : state W) :
  exists st',
    Handlers.clickSignUp P E st = (Return tt, st') /\
    withRetry P (Handlers.clickSignUp P E) "点击免费注册按钮" 3 2000 st = (Return tt, st').
Proof.
  destruct (clickSignUp_returns st) as [[] [st' Hrun]].
  exists st'. split; [exact Hrun|].
  rewrite withRetry_total; [exact Hrun | exact clickSignUp_returns | lia].
Qed.

(** X20.  [clickLogin] returns only after its page script has found,
    and clicked, a button or link that reads 'log in' or '登录'.  Otherwise it
    throws, and what it throws is the error that stopped it: the rejection
    of the wait for a button, the rejection of the evaluation, or the
    'button not found' error when the script found nothing.  The screenshot
    it takes on the way out never changes the error, taken or not. *)
Theorem clickLogin_outcome (st : state W) :
  let (r, st') := Handlers.clickLogin P E toLowerCase st in
  match r with
  | Return _ =>
      exists w d w',
        evaluateDocument P w = (Resolved d, w') /\ loginScript toLowerCase d = true
  | Throw t =>
      (exists message w w',
         waitForSelector E (JsStr.lit "button, a") 10000 1 w = (Rejected message, w') /\
         t = Error message) \/
      (exists message w w',
         evaluateDocument P w = (Rejected message, w') /\ t = Error message) \/
      (t = Error loginButtonNotFound /\
       exists w d w',
         evaluateDocument P w = (Resolved d, w') /\ loginScript toLowerCase d = false)
  end.
Proof.
  unfold Handlers.clickLogin.
  unfold bind at 1, logger at 1, emit at 1. cbn [world trace].
  assert (Hout : forall (message : jsstring) (st1 : state W),
             fst (bind (tryCatch (call (screenshot P "debug-login-btn.png"))
                                 (fun _ => ret tt))
                       (fun _ => throw (A := unit) (Error message)) st1)
             = Throw (Error message)).
  { intros message st1. unfold bind, tryCatch, call.
    destruct (screenshot P "debug-login-btn.png" (world st1)) as [[[]|m] w']; reflexivity. }
  unfold tryCatch at 1, bind at 1, invoke at 1. cbn [world trace].
  destruct (waitForSelector E (JsStr.lit "button, a") 10000 1 (world st))
    as [[[]|message] w1] eqn:Hwait.
  - unfold bind at 1.
    match goal with
    | |- context [safeEvaluate P (loginScript toLowerCase) false 3 ?s] =>
        pose proof (@EvaluateFacts.safeEvaluateLoop_outcome
                      W P bool (loginScript toLowerCase) false 3 3 0%nat s eq_refl) as Hev;
        unfold safeEvaluate;
        destruct (safeEvaluateLoop P (loginScript toLowerCase) false 3 3 0 s)
          as [[clicked|t] st1]
    end.
    + destruct Hev as [retried [_ [_ [[Hzero _]|[_ [_ [w [d [Hd ->]]]]]]]]];
        [discriminate|].
      destruct (loginScript toLowerCase d) eqn:Hscript.
      * unfold bind at 1, logger at 1, emit at 1. cbn [world trace].
        match goal with
        | |- context [waitForNavigation E 10000 ?s] =>
            destruct (waitForNavigation_returns 10000 s) as [st' ->]
        end.
        exists w, d, (world st1). auto.
      * cbn [throw].
        match goal with
        | |- context [bind ?m ?k ?s] =>
            pose proof (Hout loginButtonNotFound s) as Ht;
            destruct (bind m k s) as [r st']
        end.
        cbn [fst] in Ht. subst r. right. right. split; [reflexivity|].
        exists w, d, (world st1). auto.
    + destruct Hev as [retried [_ [_ [message [-> [_ [_ [[w Hw] _]]]]]]]].
      match goal with
      | |- context [bind ?m ?k ?s] =>
          pose proof (Hout message s) as Ht;
          destruct (bind m k s) as [r st']
      end.
      cbn [fst] in Ht. subst r. right. left. exists message, w, (world st1). auto.
  - match goal with
    | |- context [bind ?m ?k ?s] =>
        pose proof (Hout message s) as Ht;
        destruct (bind m k s) as [r st']
    end.
    cbn [fst] in Ht. subst r. left. exists message, (world st), w1. auto.
Qed.

End Stages.

End StageFacts.

(* ------------------------------------------------------------------ *)
(** * Concrete runs on the simulated browser *)

Module Runs.

Import Js Browser OpenAIRegister TempMailService Simulated Properties.

Local Open Scope Z_scope.

(** An operation that succeeds on its second attempt is invoked twice. *)
Example withRetry_second_attempt :
  let (r, st') := withRetry anyPage (invoke "op" (flaky 1)) "step" 3 2000 start in
  r = Return tt /\
  attempts "op" (trace st') = [Some (JsStr.lit "boom"); None] /\
  pauses (trace st') = [2000].
Proof. vm_compute. repeat split; reflexivity. Qed.

(** An operation that always fails is invoked three times of three, and
    the last error comes out. *)
Example withRetry_exhausted :
  let (r, st') := withRetry anyPage (invoke "op" (flaky 5)) "step" 3 2000 start in
  r = Throw (Error (JsStr.lit "boom")) /\
  List.length (attempts "op" (trace st')) = 3%nat /\
  pauses (trace st') = [2000; 2000].
Proof. vm_compute. repeat split; reflexivity. Qed.

(** C3, the claim as stated fails: on a page every evaluation of which
    is cut short by a navigation, [safeEvaluate] throws that very
    navigation-class error to its caller after its third attempt. *)
Lemma safeEvaluate_surfaces_navigation_error :
  isNavigationError contextDestroyed = true /\
  fst (safeEvaluate (rejecting contextDestroyed) bodyInnerText [] 3 start)
  = Throw (Error contextDestroyed) /\
  attempts "page.evaluate"
           (trace (snd (safeEvaluate (rejecting contextDestroyed) bodyInnerText [] 3 start)))
  = [Some contextDestroyed; Some contextDestroyed; Some contextDestroyed].
Proof. vm_compute. repeat split; reflexivity. Qed.

(** C4 at a concrete page. *)
Lemma safeEvaluate_never_default_witness :
  (1 <= 3)%nat /\
  (safeEvaluate anyPage bodyInnerText (JsStr.lit "default") 3 start =
   safeEvaluate anyPage bodyInnerText [] 3 start /\
   match safeEvaluate anyPage bodyInnerText (JsStr.lit "default") 3 start with
   | (Return v, st') =>
       exists w doc,
         evaluateDocument anyPage w = (Resolved doc, world st') /\ v = bodyInnerText doc
   | (Throw t, st') =>
       exists msg w,
         evaluateDocument anyPage w = (Rejected msg, world st') /\ t = Error msg
   end).
Proof.
  split; [lia|].
  apply (@EvaluateFacts.safeEvaluate_never_default
           sim anyPage jsstring bodyInnerText (JsStr.lit "default") [] 3%nat start).
  lia.
Defined.

(** C5, the claim as stated fails: a URL that is neither on the auth
    domain nor on one of the application's is sorted into a fourth
    outcome, failure with a warning that the state is uncertain. *)
Lemma checkCompletion_elsewhere :
  onAuthDomain elsewhere = false /\
  onTargetDomain elsewhere = false /\
  checkCompletion (showing (textOnly []) elsewhere) start =
  (Return false,
   MkState (MkSim 0 0)
           [Logged Info [Txt "当前页面: "; Str elsewhere];
            Logged Warn [Txt "注册状态不确定，当前页面: "; Str elsewhere]]).
Proof. vm_compute. repeat split; reflexivity. Qed.

(** C6 at a concrete site that shows the banner after the profile
    stage. *)
Lemma issue_aborts_before_username_witness :
  fst (stagesThroughProfile bannerPage someone (JsStr.lit "a@b.co") (JsStr.lit "pw") start)
  = Return tt /\
  fst (checkForSignInIssue bannerPage
         (snd (stagesThroughProfile bannerPage someone (JsStr.lit "a@b.co")
                                    (JsStr.lit "pw") start)))
  = Return true /\
  exists t st',
    register bannerPage someone (JsStr.lit "a@b.co") (JsStr.lit "pw") start = (Throw t, st') /\
    attempts "enterUsername" (trace st') = attempts "enterUsername" (trace start) /\
    (fst (screenshot bannerPage "debug-signin-issue.png"
                     (world (snd (checkForSignInIssue bannerPage
                                    (snd (stagesThroughProfile bannerPage someone
                                            (JsStr.lit "a@b.co") (JsStr.lit "pw") start))))))
     = Resolved tt ->
     t = Error signInIssueMessage).
Proof.
  split; [vm_compute; reflexivity|]. split; [vm_compute; reflexivity|].
  apply (@RegisterFacts.issue_aborts_before_username
           sim bannerPage someone (JsStr.lit "a@b.co") (JsStr.lit "pw") start
           (snd (stagesThroughProfile bannerPage someone (JsStr.lit "a@b.co")
                                      (JsStr.lit "pw") start))
           (snd (checkForSignInIssue bannerPage
                   (snd (stagesThroughProfile bannerPage someone (JsStr.lit "a@b.co")
                                              (JsStr.lit "pw") start)))));
    vm_compute; reflexivity.
Defined.

(** C7, the claim as stated fails: on a page without inputs whose text
    holds one address-shaped token, a placeholder, neither route yields a
    match of the kind the claim names, and yet [getEmailAddress] returns
    the placeholder instead of failing. *)
Lemma getEmailAddress_returns_placeholder :
  emailFromInputs (querySelectorAll placeholderOnly (JsStr.lit "input")) = None /\
  Regex.matchGlobal emailRegex (bodyInnerText placeholderOnly)
  = Some [JsStr.lit "test@example.com"] /\
  find notPlaceholder [JsStr.lit "test@example.com"] = None /\
  fst (getEmailAddress (showing placeholderOnly []) start)
  = Return (JsStr.lit "test@example.com").
Proof. vm_compute. repeat split; reflexivity. Qed.

(** C7 at a concrete page whose input holds the address. *)
Lemma getEmailAddress_outcome_witness :
  evaluateDocument (showing (mailbox true) []) (afterTimeout (showing (mailbox true) []) 2000 (world start))
  = (Resolved (mailbox true), MkSim 2001 1) /\
  fst (getEmailAddress (showing (mailbox true) []) start) = Return (JsStr.lit "kx7q2@temporam.com").
Proof.
  split; [reflexivity|].
  exact (proj1 (@TempMailFacts.getEmailAddress_outcome
                  sim (showing (mailbox true) []) start (mailbox true) (mailbox true)
                  (MkSim 2001 1) (MkSim 2002 2) eq_refl eq_refl)).
Defined.


(** A page that spins for good: the wait ends with [false] once thirty
    seconds have passed. *)
Example waitForPageLoad_times_out :
  let (r, st') := waitForPageLoad (showing spinner []) 62 30000 start in
  r = Return (Some false) /\ clock (world st') = 30060.
Proof. vm_compute. split; reflexivity. Qed.


(** The scan of the inputs does not ask whether an input is laid out. *)
Example findEmailScript_hidden_input :
  findEmailScript (mailbox false) = Some (JsStr.lit "kx7q2@temporam.com").
Proof. vm_compute. reflexivity. Qed.

(** Nor does the completion check ask it of an error element. *)
Example errorTextScript_hidden_element :
  errorTextScript hiddenError = Some (JsStr.lit "Username is taken").
Proof. vm_compute. reflexivity. Qed.

(** A run that the site lets through to the application returns
    [true], the username stage invoked once. *)
Example register_succeeds :
  let (r, st') := register welcomePage someone (JsStr.lit "a@b.co") (JsStr.lit "pw") start in
  r = Return true /\ attempts "enterUsername" (trace st') = [None].
Proof. vm_compute. split; reflexivity. Qed.

(** A run on the site that shows the banner throws the banner's error. *)
Example register_aborts :
  fst (register bannerPage someone (JsStr.lit "a@b.co") (JsStr.lit "pw") start)
  = Throw (Error signInIssueMessage).
Proof. vm_compute. reflexivity. Qed.

(** A live session is exchanged for its access token. *)
Example sessionToAccessToken_live :
  fst (sessionToAccessToken (answering liveSession) noJson (Some (JsStr.lit "st")) start)
  = Return (MkTokens (VStr (JsStr.lit "eyJhbGciOi"))
                     (VObj [(JsStr.lit "email", VStr (JsStr.lit "kx7q2@temporam.com"))])
                     (VStr (JsStr.lit "2027-01-31T00:00:00.000Z"))).
Proof. vm_compute. reflexivity. Qed.

(** An answer of [null] from the session endpoint is caught like any
    other failure. *)
Example sessionToAccessToken_null_answer :
  fst (sessionToAccessToken (answering VNull) noJson (Some (JsStr.lit "st")) start)
  = Return noTokens.
Proof. vm_compute. reflexivity. Qed.

(** A failed fetch whose fallback gets no response gives the three
    [null]s. *)
Example sessionToAccessToken_no_response :
  fst (sessionToAccessToken anyPage noJson (Some (JsStr.lit "st")) start)
  = Return noTokens.
Proof. vm_compute. reflexivity. Qed.

(** The ranges of the draws, at three draws of 0.03125. *)
Lemma randomBirthday_ranges_witness :
  isUnitDouble (MkUnit (2 ^ 48) 0) /\
  (18 <= year (MkDate 2026 11 2)
         - year (randomBirthday (MkDate 2026 11 2) (MkUnit (2 ^ 48) 0)
                                (MkUnit (2 ^ 48) 0) (MkUnit (2 ^ 48) 0)) <= 39 /\
   1 <= month (randomBirthday (MkDate 2026 11 2) (MkUnit (2 ^ 48) 0)
                              (MkUnit (2 ^ 48) 0) (MkUnit (2 ^ 48) 0)) <= 12 /\
   1 <= day (randomBirthday (MkDate 2026 11 2) (MkUnit (2 ^ 48) 0)
                            (MkUnit (2 ^ 48) 0) (MkUnit (2 ^ 48) 0)) <= 28).
Proof.
  assert (H : isUnitDouble (MkUnit (2 ^ 48) 0)) by (unfold isUnitDouble; cbn; lia).
  split; [exact H|].
  exact (@BirthdayFacts.randomBirthday_ranges
           (MkDate 2026 11 2) (MkUnit (2 ^ 48) 0) (MkUnit (2 ^ 48) 0) (MkUnit (2 ^ 48) 0)
           H H H).
Defined.

(** The birthday of the youngest draw on the last day of a year, and of
    the oldest draw in the Chinese layout. *)
Example generateBirthday_samples :
  generateBirthday (MkDate 2026 12 31) (MkUnit 0 0) (MkUnit 0 0) (MkUnit 0 0) false
  = JsStr.lit "01/01/2008" /\
  generateBirthday (MkDate 2026 12 31) (MkUnit (2 ^ 53 - 1) 0) (MkUnit (2 ^ 53 - 1) 0)
                   (MkUnit (2 ^ 53 - 1) 0) true
  = JsStr.lit "1987/12/28".
Proof. vm_compute. split; reflexivity. Qed.

(** X6 at an inbox that shows the mail at once. *)
Lemma waitForVerificationCode_outcome_witness :
  steadyClock (showing codeMail []) quietInbox /\
  (inboxRounds 120000 <= 26)%nat /\
  (match waitForVerificationCode (showing codeMail []) quietInbox asciiLower 26 120000 start with
   | (Return (Some v), st') =>
       exists code,
         v = VStr code /\ isSixDigitCode code /\
         exists w d,
           evaluateDocument (showing codeMail []) w = (Resolved d, world st') /\
           extractVerificationCodeScript d = VStr code
   | (Return None, _) => False
   | (Throw t, st') =>
       (exists message w,
          bringToFront quietInbox w = (Rejected message, world st') /\ t = Error message) \/
       (120000 <= dateNow (showing codeMail []) (world st')
                  - dateNow (showing codeMail []) (world start) /\
        (t = Error codeTimedOut \/
         exists message w,
           screenshot (showing codeMail []) "debug-tempmail-timeout.png" w
           = (Rejected message, world st') /\
           t = Error message))
   end /\
   waitForVerificationCode (showing codeMail []) quietInbox asciiLower 26 120000 start =
   waitForVerificationCode (showing codeMail []) quietInbox asciiLower
                           (inboxRounds 120000) 120000 start).
Proof.
  assert (Hclock : steadyClock (showing codeMail []) quietInbox).
  { unfold steadyClock. repeat split; intros; cbn; lia. }
  assert (Hfuel : (inboxRounds 120000 <= 26)%nat) by (vm_compute; lia).
  split; [exact Hclock|]. split; [exact Hfuel|].
  exact (@InboxFacts.waitForVerificationCode_outcome
           sim (showing codeMail []) quietInbox asciiLower 120000 26%nat start Hclock Hfuel).
Defined.

(** The code of that inbox comes back after the first round. *)
Example waitForVerificationCode_finds_code :
  let (r, st') :=
    waitForVerificationCode (showing codeMail []) quietInbox asciiLower 26 120000 start in
  r = Return (Some (VStr (JsStr.lit "482913"))) /\ pauses (trace st') = [3000].
Proof. vm_compute. split; reflexivity. Qed.

(** An inbox that stays empty: the wait ends with the time-out error
    after fifteen rounds of eight seconds. *)
Example waitForVerificationCode_times_out :
  let (r, st') :=
    waitForVerificationCode (showing (textOnly []) []) quietInbox asciiLower 26 120000 start in
  r = Throw (Error codeTimedOut) /\ List.length (pauses (trace st')) = 30%nat.
Proof. vm_compute. split; reflexivity. Qed.

(** X7 at the default bounds and the draw 0.5. *)
Lemma randomDelayMs_range_witness :
  isUnitDouble half /\ 0 <= 1000 /\ 1000 <= 3000 /\ 3000 < 2 ^ 53 /\
  1000 <= randomDelayMs half 1000 3000 <= 3000.
Proof.
  assert (H : isUnitDouble half) by (unfold isUnitDouble; cbn; lia).
  split; [exact H|]. split; [lia|]. split; [lia|]. split; [lia|].
  apply (@NameFacts.randomDelayMs_range half 1000 3000 H); lia.
Defined.

(** X8 on the default names. *)
Lemma generateUsername_outcome_witness :
  isUnitDouble half /\
  exists name num,
    In name defaultNames /\ 0 <= num <= 9998 /\
    generateUsername asciiLower defaultNames half half = Return (asciiLower name ++ ofZ num).
Proof.
  assert (H : isUnitDouble half) by (unfold isUnitDouble; cbn; lia).
  split; [exact H|].
  exact (@NameFacts.generateUsername_outcome asciiLower defaultNames half half H H).
Defined.

(** The user name of that draw. *)
Example generateUsername_sample :
  generateUsername asciiLower defaultNames half half = Return (JsStr.lit "alex4999").
Proof. vm_compute. reflexivity. Qed.

(** X9 on the default names. *)
Lemma getRandomFullName_outcome_witness :
  (forall c, JsStr.isLower c = true -> asciiUpper [c] = [(c - 32)%N]) /\
  (forall c, JsStr.isLower c = true -> asciiLower [c] = [c]) /\
  isUnitDouble half /\
  exists a b name,
    JsStr.isUpper a = true /\ JsStr.isLower b = true /\ In name defaultNames /\
    getRandomFullName asciiUpper asciiLower defaultNames half half half
    = Return ([a; b] ++ capitalize asciiUpper asciiLower name).
Proof.
  assert (Hup : forall c, JsStr.isLower c = true -> asciiUpper [c] = [(c - 32)%N]).
  { intros c Hc. unfold asciiUpper. cbn [map]. now rewrite Hc. }
  assert (Hlow : forall c, JsStr.isLower c = true -> asciiLower [c] = [c]).
  { intros c Hc. unfold asciiLower. cbn [map].
    replace (JsStr.isUpper c) with false; [reflexivity|].
    unfold JsStr.isLower, JsStr.isUpper, JsStr.inRange in *.
    apply andb_true_iff in Hc as [Hc _]. apply N.leb_le in Hc.
    symmetry. apply andb_false_iff. right. apply N.leb_gt. lia. }
  assert (H : isUnitDouble half) by (unfold isUnitDouble; cbn; lia).
  split; [exact Hup|]. split; [exact Hlow|]. split; [exact H|].
  exact (@NameFacts.getRandomFullName_outcome asciiUpper asciiLower defaultNames
           half half half Hup Hlow H H H).
Defined.

(** The full name of that draw. *)
Example getRandomFullName_sample :
  getRandomFullName asciiUpper asciiLower defaultNames half half half
  = Return (JsStr.lit "NnAlex").
Proof. vm_compute. reflexivity. Qed.

(** X11 at a file of three blank lines. *)
Lemma blank_name_file_witness :
  forallb JsStr.isWhiteSpace blankLines = true /\
  (namesOf blankLines = [] /\
   getRandomFullName asciiUpper asciiLower (namesOf blankLines) half half half
   = Throw (undefinedHasNo "charAt") /\
   generateUsername asciiLower (namesOf blankLines) half half
   = Throw (undefinedHasNo "toLowerCase")).
Proof.
  split; [reflexivity|].
  exact (@NameFacts.blank_name_file asciiUpper asciiLower blankLines half half half eq_refl).
Defined.

(** The names of a file with Windows line ends and a blank line. *)
Example namesOf_sample :
  namesOf (JsStr.lit "Ann" ++ [13; 10]%N ++ JsStr.lit "  Bob " ++ [10; 10]%N)
  = [JsStr.lit "Ann"; JsStr.lit "Bob"].
Proof. vm_compute. reflexivity. Qed.

(** The domain test of the cookie filter takes any name that holds one
    of the three, and no other. *)
Example isRelevantDomain_samples :
  isRelevantDomain (JsStr.lit "auth.openai.com") = true /\
  isRelevantDomain (JsStr.lit "notsora.com.example.org") = true /\
  isRelevantDomain (JsStr.lit ".example.org") = false.
Proof. vm_compute. repeat split; reflexivity. Qed.

(** X14 at the site that lets the run through. *)
Lemma register_true_only_on_target_witness :
  register welcomePage someone (JsStr.lit "a@b.co") (JsStr.lit "pw") start
  = (Return true,
     snd (register welcomePage someone (JsStr.lit "a@b.co") (JsStr.lit "pw") start)) /\
  exists st1 st2 st3 st4,
    stagesThroughProfile welcomePage someone (JsStr.lit "a@b.co") (JsStr.lit "pw") start
    = (Return tt, st1) /\
    checkForSignInIssue welcomePage st1 = (Return false, st2) /\
    withRetry welcomePage (invoke "enterUsername" (enterUsername someone)) "输入用户名" 3 2000 st2
    = (Return tt, st3) /\
    checkCompletion welcomePage st4
    = (Return true,
       snd (register welcomePage someone (JsStr.lit "a@b.co") (JsStr.lit "pw") start)) /\
    onAuthDomain (url welcomePage (world st4)) = false /\
    onTargetDomain (url welcomePage (world st4)) = true.
Proof.
  assert (Hrun : register welcomePage someone (JsStr.lit "a@b.co") (JsStr.lit "pw") start
                 = (Return true,
                    snd (register welcomePage someone (JsStr.lit "a@b.co")
                                  (JsStr.lit "pw") start)))
    by (vm_compute; reflexivity).
  split; [exact Hrun|].
  exact (@RunFacts.register_true_only_on_target
           sim welcomePage someone (JsStr.lit "a@b.co") (JsStr.lit "pw") start _ Hrun).
Defined.

(** X15 on 2 November 2026 at three draws of 0.5. *)
Lemma generateBirthday_format_witness :
  isUnitDouble half /\ 1039 <= year (MkDate 2026 11 2) <= 10017 /\
  (generateBirthday (MkDate 2026 11 2) half half half false =
   twoDigits (month (randomBirthday (MkDate 2026 11 2) half half half)) ++ [47%N] ++
   twoDigits (day (randomBirthday (MkDate 2026 11 2) half half half)) ++ [47%N] ++
   fourDigits (year (randomBirthday (MkDate 2026 11 2) half half half)) /\
   List.length (generateBirthday (MkDate 2026 11 2) half half half false) = 10%nat).
Proof.
  assert (H : isUnitDouble half) by (unfold isUnitDouble; cbn; lia).
  assert (Hy : 1039 <= year (MkDate 2026 11 2) <= 10017) by (cbn; lia).
  split; [exact H|]. split; [exact Hy|].
  exact (@BirthdayFormatFacts.generateBirthday_format
           (MkDate 2026 11 2) half half half false H H H Hy).
Defined.

(** X16 on 2 November 2026 at three draws of 0.5. *)
Lemma randomBirthday_age_witness :
  isUnitDouble half /\
  17 <= ageOn (MkDate 2026 11 2) (randomBirthday (MkDate 2026 11 2) half half half) <= 39.
Proof.
  assert (H : isUnitDouble half) by (unfold isUnitDouble; cbn; lia).
  split; [exact H|].
  exact (@BirthdayFacts.randomBirthday_age (MkDate 2026 11 2) half half half H H H).
Defined.

(** X18 at the page whose input holds the address. *)
Lemma getEmailAddress_returns_address_witness :
  getEmailAddress (showing (mailbox true) []) start
  = (Return (JsStr.lit "kx7q2@temporam.com"),
     snd (getEmailAddress (showing (mailbox true) []) start)) /\
  ((6 <= List.length (JsStr.lit "kx7q2@temporam.com"))%nat /\
   exists w d,
     evaluateDocument (showing (mailbox true) []) w
     = (Resolved d, world (snd (getEmailAddress (showing (mailbox true) []) start))) /\
     findEmailScript d = Some (JsStr.lit "kx7q2@temporam.com")).
Proof.
  assert (Hrun : getEmailAddress (showing (mailbox true) []) start
                 = (Return (JsStr.lit "kx7q2@temporam.com"),
                    snd (getEmailAddress (showing (mailbox true) []) start)))
    by (vm_compute; reflexivity).
  split; [exact Hrun|].
  exact (@AddressFacts.getEmailAddress_returns_address
           sim (showing (mailbox true) []) start _ _ Hrun).
Defined.

(** A field that never shows: three waits of five seconds, two pauses,
    and [null]. *)
Example waitForElement_gives_up :
  let (r, st') :=
    waitForElement anyPage (form false []) (JsStr.lit "input") 15000 3 start in
  r = Return None /\
  List.length (attempts "page.waitForSelector" (trace st')) = 3%nat /\
  pauses (trace st') = [2000; 2000] /\
  clock (world st') = 19000.
Proof. vm_compute. repeat split; reflexivity. Qed.

(** The continue button is found by its text, trimmed and in lower
    case, among the buttons of the page. *)
Example clickContinue_clicks_continue :
  let (r, st') :=
    clickContinue anyPage (form true [JsStr.lit "Cancel"; JsStr.lit " Continue "])
                  asciiLower start in
  r = Return tt /\
  attempts "handle.evaluate" (trace st') = [None; None] /\
  attempts "handle.click" (trace st') = [None] /\
  pauses (trace st') = [2000].
Proof. vm_compute. repeat split; reflexivity. Qed.

(** Without a password field the stage throws the error that says
    so. *)
Example enterPassword_no_field :
  fst (Handlers.enterPassword anyPage (form false []) asciiLower (JsStr.lit "pw") start)
  = Throw (Error passwordInputNotFound).
Proof. vm_compute. reflexivity. Qed.

(** With the field and no button that reads continue the stage types the
    password, clicks what the submit selector gives, and returns. *)
Example enterPassword_without_button :
  let (r, st') :=
    Handlers.enterPassword anyPage (form true []) asciiLower (JsStr.lit "pw") start in
  r = Return tt /\
  attempts "handle.type" (trace st') = [None] /\
  attempts "handle.click" (trace st') = [None; None].
Proof. vm_compute. repeat split; reflexivity. Qed.

(** The first stage on a page with a Log in link, and on a blank
    page. *)
Example clickLogin_samples :
  fst (Handlers.clickLogin (showing loginPage []) (form true []) asciiLower start)
  = Return tt /\
  fst (Handlers.clickLogin anyPage (form true []) asciiLower start)
  = Throw (Error loginButtonNotFound).
Proof. vm_compute. split; reflexivity. Qed.

End Runs.
